(** * Signal detection and trade simulation: a shallow embedding

    The strategies of the repository (PSAR, PSAR+ADX, trend following,
    triple oscillator) are embedded as Rocq functions over JavaScript-like
    values.  Numbers are exact rationals; [undefined] and [NaN] are kept
    apart because the code tests [x !== undefined] and [isNaN(x)], and every
    relational operator answers [false] as soon as one operand is not a
    number.  The rounding of IEEE doubles is outside the model of the
    strategies; the accuracy of a backtest is given both in exact
    arithmetic ([accuracyOf]) and as the double the code computes
    ([accuracyDouble]).

    The indicator library ([technicalindicators]) and the helpers of
    [core/indicators] are interfaces: the strategies are stated for every
    implementation of them. *)

From Stdlib Require Import Ascii String ZArith QArith Qminmax Qround Qpower Bool
  Lia Lqa Arith List.
From Stdlib Require SpecFloat.
From Equations Require Import Equations.
Import ListNotations.

Local Open Scope Z_scope.

(** ** JavaScript values *)

Inductive value : Type :=
| undefined
| NaN
| Num (q : Q).

Definition isUndefined (v : value) : bool :=
  match v with undefined => true | _ => false end.

(** [isNaN(v)]: [ToNumber(undefined)] is [NaN]. *)
Definition isNaN (v : value) : bool :=
  match v with Num _ => false | _ => true end.

Definition Qltb (x y : Q) : bool := negb (Qle_bool y x).

(** [a < b], [a <= b], [a > b], [a >= b]. *)
Definition js_lt (a b : value) : bool :=
  match a, b with Num x, Num y => Qltb x y | _, _ => false end.
Definition js_le (a b : value) : bool :=
  match a, b with Num x, Num y => Qle_bool x y | _, _ => false end.
Definition js_gt (a b : value) : bool := js_lt b a.
Definition js_ge (a b : value) : bool := js_le b a.

(** Arithmetic: a non-number operand gives [NaN]. *)
Definition arith (f : Q -> Q -> Q) (a b : value) : value :=
  match a, b with Num x, Num y => Num (f x y) | _, _ => NaN end.
Definition js_add := arith Qplus.
Definition js_sub := arith Qminus.
Definition js_mul := arith Qmult.
Definition js_div := arith Qdiv.
(** [Math.min(a, b)]. *)
Definition Math_min := arith Qmin.

Definition ofZ (z : Z) : value := Num (inject_Z z).

(** ** Arrays

    [arr[i]] is [undefined] outside the array, also for a negative [i]. *)

Definition idx {A : Type} (arr : list A) (i : Z) : option A :=
  if i <? 0 then None else nth_error arr (Z.to_nat i).

Definition get (arr : list value) (i : Z) : value :=
  match idx arr i with Some v => v | None => undefined end.

(** [for (let i = 0; i < diff; i++) arr.unshift(arr[0])] *)
Fixpoint unshiftFirst (diff : nat) (arr : list value) : list value :=
  match diff with
  | O => arr
  | S d => unshiftFirst d (get arr 0 :: arr)
  end.

(** [while (arr.length < n) arr.unshift(fill)] *)
Equations unshiftWhile {A : Type} (fill : A) (n : nat) (arr : list A) : list A
  by wf (n - length arr)%nat lt :=
unshiftWhile fill n arr with lt_dec (length arr) n := {
  | left _ => unshiftWhile fill n (fill :: arr)
  | right _ => arr }.
Next Obligation. simpl. lia. Qed.

(** The PSAR padding of [psarSignal] and [psarAdxSignal]. *)
Definition alignPsar (n : nat) (psar : list value) : list value :=
  if (length psar <? n)%nat then unshiftFirst (n - length psar) psar else psar.

(** The EMA padding: [while (ema200Arr.length < candles.length)
    ema200Arr.unshift(undefined)]; the SMA and Stochastic series of
    [backtest_sma_psar_stoch.js] are padded by the same loop. *)
Definition alignUndefined (n : nat) (series : list value) : list value :=
  unshiftWhile undefined n series.

(** ** Candles, directions, signals *)

Record candle : Type := mkCandle {
  open : value;
  high : value;
  low : value;
  close : value;
  volume : value
}.

(** The argument of a signal function: any value that is not an array, or
    an array of candles. *)
Inductive candlesArg : Type :=
| NotArray
| Array (candles : list candle).

Inductive direction : Type := UP | DOWN.

(** [{ signal, confidence, reason, skipped }]; [signal = None] is ['NONE']. *)
Record signalResult : Type := mkSignal {
  signal : option direction;
  confidence : value;
  reason : string;
  skipped : bool
}.

(** [{ signal: 'NONE', confidence: 0, reason: '', skipped: true }] *)
Definition neutral : signalResult := mkSignal None (ofZ 0) EmptyString true.

Definition directionName (d : direction) : string :=
  match d with UP => "UP" | DOWN => "DOWN" end.

(** ** The indicator library *)

(** An element of [ADX.calculate]'s output. *)
Record adxEntry : Type := mkAdx { adx : value; pdi : value; mdi : value }.

(** [{ adx: undefined }] *)
Definition adxUndefined : adxEntry := mkAdx undefined undefined undefined.

(** [PSAR.calculate({high, low, step, max})],
    [EMA.calculate({period, values})] and
    [ADX.calculate({high, low, close, period})]; [None] is a thrown
    exception. *)
Class TechnicalIndicators : Type := {
  PSAR_calculate : list value -> list value -> value -> value -> list value;
  EMA_calculate : value -> list value -> list value;
  ADX_calculate : list value -> list value -> list value -> value ->
                  option (list adxEntry)
}.

(** ** The flip detector *)

(** [closePrev <= psarPrev && closeCurr > psarCurr] *)
Definition crossUp (closePrev psarPrev closeCurr psarCurr : value) : bool :=
  js_le closePrev psarPrev && js_gt closeCurr psarCurr.

(** [closePrev >= psarPrev && closeCurr < psarCurr] *)
Definition crossDown (closePrev psarPrev closeCurr psarCurr : value) : bool :=
  js_ge closePrev psarPrev && js_lt closeCurr psarCurr.

(** [let direction = null;
     if (up) direction = 'UP';
     if (down) direction = direction === 'UP' ? null : 'DOWN';] *)
Definition resolveCross (up down : bool) : option direction :=
  let direction := None in
  let direction := if up then Some UP else direction in
  let direction :=
    if down
    then match direction with Some UP => None | _ => Some DOWN end
    else direction in
  direction.

Definition psarCross (closePrev psarPrev closeCurr psarCurr : value)
  : option direction :=
  resolveCross (crossUp closePrev psarPrev closeCurr psarCurr)
               (crossDown closePrev psarPrev closeCurr psarCurr).

(** [direction === 'UP' ? next > curr : next < curr] *)
Definition continuation (d : direction) (next curr : value) : bool :=
  match d with UP => js_gt next curr | DOWN => js_lt next curr end.

(** ** Filters *)

(** The EMA trend filter; [true] when the bar is rejected.
    [if (ema200 !== undefined) {
       if (direction === 'UP' && crossClose < ema200) return result;
       if (direction === 'DOWN' && crossClose > ema200) return result; }] *)
Definition emaRejects (d : direction) (crossClose ema200 : value) : bool :=
  if negb (isUndefined ema200) then
    match d with
    | UP => js_lt crossClose ema200
    | DOWN => js_gt crossClose ema200
    end
  else false.

(** The ADX strength filter; [true] when the bar is rejected.
    [if (adxVal !== undefined && adxVal < adxThreshold) return result;] *)
Definition adxRejects (adxVal adxThreshold : value) : bool :=
  negb (isUndefined adxVal) && js_lt adxVal adxThreshold.

(** [for (let j = i - lookback + 1; j <= i; j++)
      sumRange += (highs[j] - lows[j]);]
    with [k] iterations left. *)
Fixpoint sumRangeLoop (highs lows : list value) (j : Z) (k : nat)
  (sumRange : value) : value :=
  match k with
  | O => sumRange
  | S k' =>
    sumRangeLoop highs lows (j + 1) k'
      (js_add sumRange (js_sub (get highs j) (get lows j)))
  end.

(** The range filter at bar [i]; [true] when the bar is rejected. *)
Definition rangeRejects (highs lows : list value) (i : Z) (rangeMult : value)
  : bool :=
  if js_gt rangeMult (ofZ 0) then
    let lookback := 14 in
    if lookback <=? i then
      let sumRange :=
        sumRangeLoop highs lows (i - lookback + 1) (Z.to_nat lookback) (ofZ 0) in
      let avgRange := js_div sumRange (ofZ lookback) in
      let currRange := js_sub (get highs i) (get lows i) in
      js_lt currRange (js_mul avgRange rangeMult)
    else false
  else false.

Inductive side : Type := above | below.

Definition side_eqb (a b : side) : bool :=
  match a, b with above, above | below, below => true | _, _ => false end.

(** [close > psar ? 'above' : 'below'] *)
Definition sideOf (c p : value) : side := if js_gt c p then above else below.

(** [for (let j = crossIdx - 1; j >= 0; j--) {
       const side = closes[j] > psarArr[j] ? 'above' : 'below';
       barsSinceFlip++;
       if (side !== currentSide) break; }]
    entered with [j = j1 - 1]; the result is the final [barsSinceFlip]. *)
Fixpoint walkBack (closes psarArr : list value) (currentSide : side)
  (j1 : nat) (barsSinceFlip : Z) : Z :=
  match j1 with
  | O => barsSinceFlip
  | S j =>
    let s := sideOf (get closes (Z.of_nat j)) (get psarArr (Z.of_nat j)) in
    let barsSinceFlip := barsSinceFlip + 1 in
    if side_eqb s currentSide
    then walkBack closes psarArr currentSide j barsSinceFlip
    else barsSinceFlip
  end.

(** The persistence filter of [psarAdxSignal]; [true] when the bar is
    rejected. *)
Definition persistenceRejects (closes psarArr : list value) (crossIdx : Z)
  (minFlips : value) : bool :=
  if js_gt minFlips (ofZ 1) then
    let currentSide := sideOf (get closes crossIdx) (get psarArr crossIdx) in
    let barsSinceFlip :=
      walkBack closes psarArr currentSide (Z.to_nat crossIdx) 0 in
    js_lt (ofZ barsSinceFlip) minFlips
  else false.

(** [config.field ?? dflt] *)
Definition nullish (field : option value) (dflt : value) : value :=
  match field with
  | None | Some undefined => dflt
  | Some v => v
  end.

(** The configuration record of [psarAdxSignal]; [None] is an absent or
    [null] field. *)
Record psarAdxConfig : Type := mkConfig {
  psarStep : option value;
  psarMax : option value;
  adxThreshold : option value;
  minFlips : option value;
  rangeMultiplier : option value
}.

(** [{}] *)
Definition emptyConfig : psarAdxConfig := mkConfig None None None None None.

Definition q_0_02 : value := Num (2 # 100).
Definition q_0_2 : value := Num (2 # 10).

Section Strategies.

Context {TI : TechnicalIndicators}.

(** [Number.prototype.toFixed(2)] *)
Variable toFixed2 : value -> string.

(** *** core/psarStrategy.js *)

Definition psarSignal (arg : candlesArg) : signalResult :=
  let result := neutral in
  match arg with
  | NotArray => result
  | Array candles =>
    if (length candles <? 3)%nat then result else
    let highs := map high candles in
    let lows := map low candles in
    let closes := map close candles in
    let psar := PSAR_calculate highs lows q_0_02 q_0_2 in
    let psar := alignPsar (length candles) psar in
    let ema200Arr := EMA_calculate (ofZ 200) closes in
    let ema200Arr := alignUndefined (length candles) ema200Arr in
    let n := Z.of_nat (length candles) in
    let prevIdx := n - 3 in
    let crossIdx := n - 2 in
    let latestIdx := n - 1 in
    if (prevIdx <? 0) || (crossIdx <? 0) || (latestIdx <? 0) then result else
    let prevClose := get closes prevIdx in
    let crossClose := get closes crossIdx in
    let latestClose := get closes latestIdx in
    let prevPsar := get psar prevIdx in
    let crossPsar := get psar crossIdx in
    let ema200 := get ema200Arr crossIdx in
    match psarCross prevClose prevPsar crossClose crossPsar with
    | None => result
    | Some d =>
      if negb (continuation d latestClose crossClose) then result else
      if emaRejects d crossClose ema200 then result else
      mkSignal (Some d) (ofZ 80)
        ("PSAR cross " ++ directionName d ++
         " with continuation and EMA200 filter")
        false
    end
  end.

(** *** core/psarAdxStrategy.js *)

(** [try { adxArr = ADX.calculate(...);
           while (adxArr.length < candles.length)
             adxArr.unshift({ adx: undefined }); }
     catch (e) { adxArr = new Array(candles.length).fill({ adx: undefined }); }] *)
Definition alignAdx (n : nat) (res : option (list adxEntry)) : list adxEntry :=
  match res with
  | Some adxArr => unshiftWhile adxUndefined n adxArr
  | None => repeat adxUndefined n
  end.

(** [adxArr[i] && adxArr[i].adx] *)
Definition adxAt (adxArr : list adxEntry) (i : Z) : value :=
  match idx adxArr i with
  | Some e => adx e
  | None => undefined
  end.

(** [let confidence = 70;
     if (adxVal !== undefined)
       confidence += Math.min(30, (adxVal - adxThreshold) * 2);
     if (rangeMult > 0) confidence += 5;
     confidence = Math.min(confidence, 100);] *)
Definition psarAdxConfidence (adxVal adxThreshold rangeMult : value) : value :=
  let confidence := ofZ 70 in
  let confidence :=
    if negb (isUndefined adxVal)
    then js_add confidence
           (Math_min (ofZ 30) (js_mul (js_sub adxVal adxThreshold) (ofZ 2)))
    else confidence in
  let confidence :=
    if js_gt rangeMult (ofZ 0) then js_add confidence (ofZ 5) else confidence in
  Math_min confidence (ofZ 100).

(** [adxVal?.toFixed?.(2) ?? 'n/a'] *)
Definition adxText (adxVal : value) : string :=
  if isUndefined adxVal then "n/a" else toFixed2 adxVal.

Definition psarAdxSignal (arg : candlesArg) (config : psarAdxConfig)
  : signalResult :=
  let result := neutral in
  match arg with
  | NotArray => result
  | Array candles =>
    if (length candles <? 3)%nat then result else
    let step := nullish (psarStep config) q_0_02 in
    let max := nullish (psarMax config) q_0_2 in
    let adxThreshold := nullish (adxThreshold config) (ofZ 20) in
    let minFlips := nullish (minFlips config) (ofZ 1) in
    let rangeMult := nullish (rangeMultiplier config) (ofZ 0) in
    let highs := map high candles in
    let lows := map low candles in
    let closes := map close candles in
    let psarArr := PSAR_calculate highs lows step max in
    let psarArr := alignPsar (length candles) psarArr in
    let ema200Arr := EMA_calculate (ofZ 200) closes in
    let ema200Arr := alignUndefined (length candles) ema200Arr in
    let adxArr :=
      alignAdx (length candles) (ADX_calculate highs lows closes (ofZ 14)) in
    let n := Z.of_nat (length candles) in
    let prevIdx := n - 3 in
    let crossIdx := n - 2 in
    let latestIdx := n - 1 in
    if (prevIdx <? 0) || (crossIdx <? 0) || (latestIdx <? 0) then result else
    let prevClose := get closes prevIdx in
    let crossClose := get closes crossIdx in
    let latestClose := get closes latestIdx in
    let prevPsar := get psarArr prevIdx in
    let crossPsar := get psarArr crossIdx in
    match psarCross prevClose prevPsar crossClose crossPsar with
    | None => result
    | Some d =>
      if negb (continuation d latestClose crossClose) then result else
      if rangeRejects highs lows crossIdx rangeMult then result else
      if persistenceRejects closes psarArr crossIdx minFlips then result else
      let ema200 := get ema200Arr crossIdx in
      if emaRejects d crossClose ema200 then result else
      let adxVal := adxAt adxArr crossIdx in
      if adxRejects adxVal adxThreshold then result else
      mkSignal (Some d) (psarAdxConfidence adxVal adxThreshold rangeMult)
        ("PSAR cross " ++ directionName d ++ " with continuation, ADX " ++
         adxText adxVal ++ ", EMA200 filter")
        false
    end
  end.

End Strategies.

(** ** backtest_psar_adx.js *)

(** The result of a call: a thrown [Error] or a returned value. *)
Inductive outcome (A : Type) : Type :=
| Throw (msg : string)
| Return (a : A).
Arguments Throw {A} msg.
Arguments Return {A} a.

(** The values [from, from + 1, ...] below [bound], in order: the indices
    visited by [for (let i = from; i < bound; i++)]. *)
Definition forRange (from bound : Z) : list Z :=
  map (fun k => from + Z.of_nat k) (seq 0 (Z.to_nat (bound - from))).

(** A default parameter value: used when the argument is [undefined]. *)
Definition defaultTo (dflt arg : value) : value :=
  if isUndefined arg then dflt else arg.

(** [direction === 'UP' ? exitPrice > entryPrice : exitPrice < entryPrice] *)
Definition isWin (d : direction) (entryPrice exitPrice : value) : bool :=
  match d with
  | UP => js_gt exitPrice entryPrice
  | DOWN => js_lt exitPrice entryPrice
  end.

(** [total > 0 ? (correct / total) * 100 : 0], in exact arithmetic. *)
Definition accuracyOf (total correct : Z) : value :=
  if 0 <? total
  then js_mul (js_div (ofZ correct) (ofZ total)) (ofZ 100)
  else ofZ 0.

(** [{ total, correct, accuracy }] *)
Record backtestResult : Type := mkResult {
  total : Z;
  correct : Z;
  accuracy : value
}.

(** The variables the loop mutates. *)
Record loopState : Type := mkLoop {
  totalTrades : Z;
  correctTrades : Z;
  barsSinceFlip : Z
}.

(** [ema200Arr[i] !== undefined ? ema200Arr[i] : null]; [None] is [null]. *)
Definition orNull (v : value) : option value :=
  if isUndefined v then None else Some v.

(** [adxArr[i] !== undefined ? adxArr[i].adx : null] *)
Definition adxOrNull (adxArr : list adxEntry) (i : Z) : option value :=
  match idx adxArr i with
  | Some e => Some (adx e)
  | None => None
  end.

(** The trend filter of the backtest loop; [true] when the bar is skipped.
    [if (ema200 !== null) {
       if (direction === 'UP' && closeCurr < ema200) continue;
       if (direction === 'DOWN' && closeCurr > ema200) continue; }] *)
Definition trendSkips (d : direction) (closeCurr : value) (ema200 : option value)
  : bool :=
  match ema200 with
  | Some e =>
    match d with UP => js_lt closeCurr e | DOWN => js_gt closeCurr e end
  | None => false
  end.

(** [if (adx !== null && adx < adxThreshold) continue;] *)
Definition adxSkips (adxv : option value) (adxThreshold : value) : bool :=
  match adxv with
  | Some a => js_lt a adxThreshold
  | None => false
  end.

Section BacktestPsarAdx.

Variables (highs lows closes psarArr ema200Arr : list value).
Variable adxArr : list adxEntry.
Variable expiryBars : Z.
Variables (adxThreshold minFlips rangeMultiplier : value).

(** What one iteration decides: the direction of the trade opened at bar
    [i + 1], if any, and the new value of [barsSinceFlip]. *)
Definition barDecision (barsSinceFlip : Z) (i : Z) : option direction * Z :=
  if isUndefined (get psarArr (i - 1)) || isUndefined (get psarArr i)
  then (None, barsSinceFlip + 1) else
  let closePrev := get closes (i - 1) in
  let closeCurr := get closes i in
  let closeNext := get closes (i + 1) in
  let psarPrev := get psarArr (i - 1) in
  let psarCurr := get psarArr i in
  let ema200 := orNull (get ema200Arr i) in
  let adxv := adxOrNull adxArr i in
  match psarCross closePrev psarPrev closeCurr psarCurr with
  | None => (None, barsSinceFlip + 1)
  | Some d =>
    if negb (continuation d closeNext closeCurr)
    then (None, barsSinceFlip + 1) else
    if js_lt (ofZ barsSinceFlip) minFlips then (None, 0) else
    let barsSinceFlip := 0 in
    if rangeRejects highs lows i rangeMultiplier then (None, barsSinceFlip) else
    if trendSkips d closeCurr ema200 then (None, barsSinceFlip) else
    if adxSkips adxv adxThreshold then (None, barsSinceFlip) else
    (Some d, barsSinceFlip)
  end.

(** The loop body. *)
Definition backtestStep (st : loopState) (i : Z) : loopState :=
  match barDecision (barsSinceFlip st) i with
  | (None, bars) => mkLoop (totalTrades st) (correctTrades st) bars
  | (Some d, bars) =>
    let totalTrades := totalTrades st + 1 in
    let entryPrice := get closes (i + 1) in
    let exitPrice := get closes (i + 1 + expiryBars) in
    let correctTrades :=
      if isWin d entryPrice exitPrice
      then correctTrades st + 1 else correctTrades st in
    mkLoop totalTrades correctTrades bars
  end.

(** [for (let i = 1; i < candles.length - (expiryBars + 1); i++) { ... }] *)
Definition backtestLoop (n : Z) : loopState :=
  fold_left backtestStep (forRange 1 (n - (expiryBars + 1))) (mkLoop 0 0 0).

End BacktestPsarAdx.

Section Backtest.

Context {TI : TechnicalIndicators}.

Definition backtestStrategy (candles : list candle) (expiryBars : Z)
  (adxThreshold minFlips psarStep psarMax rangeMultiplier : value)
  : outcome backtestResult :=
  let adxThreshold := defaultTo (ofZ 20) adxThreshold in
  let minFlips := defaultTo (ofZ 1) minFlips in
  let psarStep := defaultTo q_0_02 psarStep in
  let psarMax := defaultTo q_0_2 psarMax in
  let rangeMultiplier := defaultTo (ofZ 0) rangeMultiplier in
  if (length candles <? 250)%nat
  then Throw "Insufficient data for PSAR+ADX strategy" else
  let highs := map high candles in
  let lows := map low candles in
  let closes := map close candles in
  let psarArr := PSAR_calculate highs lows psarStep psarMax in
  let ema200Arr := EMA_calculate (ofZ 200) closes in
  match ADX_calculate highs lows closes (ofZ 14) with
  | None => Throw "ADX.calculate"
  | Some adxArr =>
    let st :=
      backtestLoop highs lows closes psarArr ema200Arr adxArr expiryBars
        adxThreshold minFlips rangeMultiplier (Z.of_nat (length candles)) in
    Return (mkResult (totalTrades st) (correctTrades st)
              (accuracyOf (totalTrades st) (correctTrades st)))
  end.

End Backtest.

(** ** trendStrategy5m *)

Module Trend.

(** [{ fastLen, slowLen, trendLen, adxLen, adxThreshold }]; an absent field
    is [undefined]. *)
Record options : Type := mkOptions {
  fastLen : value;
  slowLen : value;
  trendLen : value;
  adxLen : value;
  adxThreshold : value
}.

(** [{}] *)
Definition noOptions : options :=
  mkOptions undefined undefined undefined undefined undefined.

(** [{ index, direction, confidence }] *)
Record entry : Type := mkEntry {
  index : Z;
  direction : direction;
  confidence : value
}.

(** [Math.min((adx - adxThreshold) / 50 + 0.5, 0.95)] *)
Definition confidenceOf (adxv adxThreshold : value) : value :=
  Math_min (js_add (js_div (js_sub adxv adxThreshold) (ofZ 50)) (Num (5 # 10)))
           (Num (95 # 100)).

(** [prevFast <= prevSlow && currFast > currSlow && price > currTrend] *)
Definition bullish (prevFast prevSlow currFast currSlow price currTrend : value)
  : bool :=
  js_le prevFast prevSlow && js_gt currFast currSlow && js_gt price currTrend.

(** [prevFast >= prevSlow && currFast < currSlow && price < currTrend] *)
Definition bearish (prevFast prevSlow currFast currSlow price currTrend : value)
  : bool :=
  js_ge prevFast prevSlow && js_lt currFast currSlow && js_lt price currTrend.

Section Loop.

Variables (closes fastEma slowEma trendEma : list value).
Variable adxValues : list adxEntry.
Variable adxThreshold : value.
Variable n : Z.

(** The signals pushed by the iteration at bar [i]; reading [.adx] of a
    missing element throws. *)
Definition bar (i : Z) : outcome (list entry) :=
  let fastOffset := n - Z.of_nat (length fastEma) in
  let slowOffset := n - Z.of_nat (length slowEma) in
  let trendOffset := n - Z.of_nat (length trendEma) in
  let adxOffset := n - Z.of_nat (length adxValues) in
  let fastIdx := i - fastOffset in
  let slowIdx := i - slowOffset in
  let trendIdx := i - trendOffset in
  let adxIdx := i - adxOffset in
  if (fastIdx <? 1) || (slowIdx <? 1) || (trendIdx <? 0) || (adxIdx <? 0)
  then Return [] else
  let prevFast := get fastEma (fastIdx - 1) in
  let prevSlow := get slowEma (slowIdx - 1) in
  let currFast := get fastEma fastIdx in
  let currSlow := get slowEma slowIdx in
  let currTrend := get trendEma trendIdx in
  match idx adxValues adxIdx with
  | None => Throw "TypeError"
  | Some e =>
    let adxv := adx e in
    let price := get closes i in
    if isNaN adxv || js_lt adxv adxThreshold then Return [] else
    let up :=
      if bullish prevFast prevSlow currFast currSlow price currTrend
      then [mkEntry i UP (confidenceOf adxv adxThreshold)] else [] in
    let down :=
      if bearish prevFast prevSlow currFast currSlow price currTrend
      then [mkEntry i DOWN (confidenceOf adxv adxThreshold)] else [] in
    Return (up ++ down)
  end.

(** [for (let i = 1; i < candles.length - 5; i++) { ... }] over the indices
    still to visit. *)
Fixpoint loop (indices : list Z) (signals : list entry)
  : outcome (list entry) :=
  match indices with
  | [] => Return signals
  | i :: rest =>
    match bar i with
    | Throw msg => Throw msg
    | Return pushed => loop rest (signals ++ pushed)
    end
  end.

End Loop.

Section Strategy.

Context {TI : TechnicalIndicators}.

Definition trendStrategy5m (candles : list candle) (opts : options)
  : outcome (list entry) :=
  let fastLen := defaultTo (ofZ 50) (fastLen opts) in
  let slowLen := defaultTo (ofZ 100) (slowLen opts) in
  let trendLen := defaultTo (ofZ 200) (trendLen opts) in
  let adxLen := defaultTo (ofZ 14) (adxLen opts) in
  let adxThreshold := defaultTo (ofZ 25) (adxThreshold opts) in
  let closes := map close candles in
  let highs := map high candles in
  let lows := map low candles in
  let fastEma := EMA_calculate fastLen closes in
  let slowEma := EMA_calculate slowLen closes in
  let trendEma := EMA_calculate trendLen closes in
  match ADX_calculate highs lows closes adxLen with
  | None => Throw "ADX.calculate"
  | Some adxValues =>
    let n := Z.of_nat (length candles) in
    loop closes fastEma slowEma trendEma adxValues adxThreshold n
         (forRange 1 (n - 5)) []
  end.

End Strategy.

End Trend.

(** ** backtest_triple_oscillator.js *)

(** The helpers of [core/indicators] and the library's CCI, which the
    backtest calls on the history: [calculateEMA(values, period)],
    [calculateRSI(values)], [calculateStochastic(candles)] (its [k] and [d]
    series) and [CCI.calculate({high, low, close, period})].  They are not
    part of the sources read here; the backtest is stated for every
    implementation of them. *)
Class OscillatorIndicators : Type := {
  calculateEMA : list value -> value -> list value;
  calculateRSI : list value -> list value;
  calculateStochastic : list candle -> list value * list value;
  CCI_calculate : list value -> list value -> list value -> value -> list value
}.

Definition direction_eqb (a b : direction) : bool :=
  match a, b with UP, UP | DOWN, DOWN => true | _, _ => false end.

(** [arr[arr.length - k]] *)
Definition fromEnd (arr : list value) (k : Z) : value :=
  get arr (Z.of_nat (length arr) - k).

Module Triple.

Section Signal.

Context {OI : OscillatorIndicators}.

(** The signal computed from the history up to and including [candle];
    [None] is ['NONE']. *)
Definition oscillatorSignal (history : list candle) (c : candle)
  : option direction :=
  let closes := map close history in
  let highs := map high history in
  let lows := map low history in
  let ema200Arr := calculateEMA closes (ofZ 200) in
  let ema200 := fromEnd ema200Arr 1 in
  let rsiArr := calculateRSI closes in
  let rsi := fromEnd rsiArr 1 in
  let rsiPrev := fromEnd rsiArr 2 in
  let (k, d) := calculateStochastic history in
  let stochK := fromEnd k 1 in
  let stochD := fromEnd d 1 in
  let stochKPrev := fromEnd k 2 in
  let stochDPrev := fromEnd d 2 in
  let cciArr := CCI_calculate highs lows closes (ofZ 14) in
  let cci := fromEnd cciArr 1 in
  let cciPrev := fromEnd cciArr 2 in
  if negb (isUndefined rsi) && negb (isUndefined rsiPrev) &&
     negb (isUndefined stochK) && negb (isUndefined stochD) &&
     negb (isUndefined stochKPrev) && negb (isUndefined stochDPrev) &&
     negb (isUndefined cci) && negb (isUndefined cciPrev)
  then
    let oversold :=
      js_lt rsi (ofZ 35) && js_lt stochK (ofZ 20) && js_lt stochD (ofZ 20) &&
      js_lt cci (ofZ (-100)) in
    let turningUp :=
      js_gt rsi rsiPrev && js_gt stochK stochKPrev &&
      js_gt stochD stochDPrev && js_gt cci cciPrev in
    let overbought :=
      js_gt rsi (ofZ 65) && js_gt stochK (ofZ 80) && js_gt stochD (ofZ 80) &&
      js_gt cci (ofZ 100) in
    let turningDown :=
      js_lt rsi rsiPrev && js_lt stochK stochKPrev &&
      js_lt stochD stochDPrev && js_lt cci cciPrev in
    if oversold && turningUp && js_gt (close c) ema200 then Some UP
    else if overbought && turningDown && js_lt (close c) ema200 then Some DOWN
    else None
  else None.

End Signal.

(** [{ entryIndex, expiryIndex, direction, entryPrice }] *)
Record trade : Type := mkTrade {
  entryIndex : Z;
  expiryIndex : Z;
  direction : direction;
  entryPrice : value
}.

(** [(trade.direction === 'UP' && resultUp) ||
     (trade.direction === 'DOWN' && resultDown)] with
    [resultUp = close > trade.entryPrice] and
    [resultDown = close < trade.entryPrice]. *)
Definition tradeCorrect (t : trade) (closeNow : value) : bool :=
  let resultUp := js_gt closeNow (entryPrice t) in
  let resultDown := js_lt closeNow (entryPrice t) in
  (direction_eqb (direction t) UP && resultUp) ||
  (direction_eqb (direction t) DOWN && resultDown).

(** The variables the loop mutates. *)
Record ledger : Type := mkLedger {
  history : list candle;
  openTrades : list trade;
  totalTrades : Z;
  correctTrades : Z
}.

(** [for (const trade of openTrades) {
       if (trade.expiryIndex === i) { ...; if (correct) correctTrades++;
                                      totalTrades++; }
       else remaining.push(trade); }]
    The result is [(remaining, totalTrades, correctTrades)]. *)
Fixpoint expire (i : Z) (closeNow : value) (trades remaining : list trade)
  (totalTrades correctTrades : Z) : list trade * Z * Z :=
  match trades with
  | [] => (remaining, totalTrades, correctTrades)
  | t :: rest =>
    if expiryIndex t =? i then
      let correctTrades :=
        if tradeCorrect t closeNow then correctTrades + 1 else correctTrades in
      expire i closeNow rest remaining (totalTrades + 1) correctTrades
    else
      expire i closeNow rest (remaining ++ [t]) totalTrades correctTrades
  end.

Section Backtest.

Context {OI : OscillatorIndicators}.

(** The loop body at bar [i], whose candle is [c]. *)
Definition step (st : ledger) (i : Z) (c : candle) : ledger :=
  let history := history st ++ [c] in
  let '(openTrades, totalTrades, correctTrades) :=
    match openTrades st with
    | [] => (openTrades st, totalTrades st, correctTrades st)
    | _ => expire i (close c) (openTrades st) []
             (totalTrades st) (correctTrades st)
    end in
  if (length history <? 200)%nat
  then mkLedger history openTrades totalTrades correctTrades else
  match oscillatorSignal history c with
  | None => mkLedger history openTrades totalTrades correctTrades
  | Some d =>
    mkLedger history (openTrades ++ [mkTrade i (i + 1) d (close c)])
      totalTrades correctTrades
  end.

(** [for (let i = 0; i < data.length; i++) { ... }] from bar [i] on, over
    the candles still to visit. *)
Fixpoint loop (st : ledger) (i : Z) (data : list candle) : ledger :=
  match data with
  | [] => st
  | c :: rest => loop (step st i c) (i + 1) rest
  end.

Definition run (data : list candle) : ledger :=
  loop (mkLedger [] [] 0 0) 0 data.

(** The figures [backtest] prints; [None] when it stops with
    ['Not enough data to run backtest.']. *)
Definition backtest (data : list candle) : option backtestResult :=
  if (length data <? 210)%nat then None else
  let st := run data in
  Some (mkResult (totalTrades st) (correctTrades st)
          (accuracyOf (totalTrades st) (correctTrades st))).

End Backtest.

End Triple.

(** ** The PSAR crossover backtest with a look-back filter *)

(** [for (let j = i - lookback; j < i; j++) {
       if (closes[j] <= psar[j]) belowCount++;
       if (closes[j] >= psar[j]) aboveCount++; }]
    with [k] iterations left; the result is [(belowCount, aboveCount)]. *)
Fixpoint countSides (closes psar : list value) (j : Z) (k : nat)
  (belowCount aboveCount : Z) : Z * Z :=
  match k with
  | O => (belowCount, aboveCount)
  | S k' =>
    let belowCount :=
      if js_le (get closes j) (get psar j)
      then belowCount + 1 else belowCount in
    let aboveCount :=
      if js_ge (get closes j) (get psar j)
      then aboveCount + 1 else aboveCount in
    countSides closes psar (j + 1) k' belowCount aboveCount
  end.

(** The direction found at bar [i]:
    [if (belowCount === lookback && closePrev <= psarPrev &&
         closeCurr > psarCurr) direction = 'UP';
     if (aboveCount === lookback && closePrev >= psarPrev &&
         closeCurr < psarCurr) direction = direction === 'UP' ? null : 'DOWN';] *)
Definition lookbackCross (closes psar : list value) (lookback i : Z)
  : option direction :=
  let '(belowCount, aboveCount) :=
    countSides closes psar (i - lookback) (Z.to_nat lookback) 0 0 in
  let closeCurr := get closes i in
  let closePrev := get closes (i - 1) in
  let psarCurr := get psar i in
  let psarPrev := get psar (i - 1) in
  resolveCross
    ((belowCount =? lookback) && crossUp closePrev psarPrev closeCurr psarCurr)
    ((aboveCount =? lookback) &&
     crossDown closePrev psarPrev closeCurr psarCurr).

(** ** The PSAR crossover backtests

    [backtest] of the PSAR crossover script and of its EMA100 variant run
    the same loop, with a one-bar expiry; they read [candles[i].close],
    which is [closes[i]] at the indices the loop visits. *)

Module Psar.

Section Loop.

Variables (closes psar emaArr : list value).

(** The direction of the trade opened by the iteration at bar [i], if
    any. *)
Definition bar (i : Z) : option direction :=
  if isUndefined (get psar (i - 1)) || isUndefined (get psar i)
  then None else
  let closePrev := get closes (i - 1) in
  let closeCurr := get closes i in
  let closeNext := get closes (i + 1) in
  let psarPrev := get psar (i - 1) in
  let psarCurr := get psar i in
  let ema200 := orNull (get emaArr i) in
  match psarCross closePrev psarPrev closeCurr psarCurr with
  | None => None
  | Some d =>
    if negb (continuation d closeNext closeCurr) then None else
    if trendSkips d closeCurr ema200 then None else
    Some d
  end.

(** [totalTrades++; const entryPrice = closeNext;
     const exitPrice = candles[i + 2].close;
     const isCorrect = direction === 'UP' ? exitPrice > entryPrice
                                          : exitPrice < entryPrice;
     if (isCorrect) correctTrades++;]
    on the state [(totalTrades, correctTrades)]. *)
Definition trade (d : direction) (st : Z * Z) (i : Z) : Z * Z :=
  let '(totalTrades, correctTrades) := st in
  let totalTrades := totalTrades + 1 in
  let entryPrice := get closes (i + 1) in
  let exitPrice := get closes (i + 2) in
  let correctTrades :=
    if isWin d entryPrice exitPrice
    then correctTrades + 1 else correctTrades in
  (totalTrades, correctTrades).

Definition step (st : Z * Z) (i : Z) : Z * Z :=
  match bar i with
  | None => st
  | Some d => trade d st i
  end.

(** [for (let i = 1; i < candles.length - 2; i++) { ... }] *)
Definition loop (n : Z) : Z * Z :=
  fold_left step (forRange 1 (n - 2)) (0, 0).

End Loop.

Section Backtest.

Context {TI : TechnicalIndicators}.

(** The figures printed by the PSAR crossover script; [None] when it stops
    with ['Not enough data for PSAR strategy.']. *)
Definition backtest (candles : list candle) : option backtestResult :=
  if (length candles <? 250)%nat then None else
  let highs := map high candles in
  let lows := map low candles in
  let psar := PSAR_calculate highs lows q_0_02 q_0_2 in
  let closes := map close candles in
  let ema200Arr := EMA_calculate (ofZ 200) closes in
  let '(totalTrades, correctTrades) :=
    loop closes psar ema200Arr (Z.of_nat (length candles)) in
  Some (mkResult totalTrades correctTrades
          (accuracyOf totalTrades correctTrades)).

End Backtest.

End Psar.

Module PsarEma100.

Section Backtest.

Context {TI : TechnicalIndicators}.

(** The EMA100 variant: the trend filter reads [EMA.calculate({ period:
    100, ... })] and 200 candles are enough. *)
Definition backtest (candles : list candle) : option backtestResult :=
  if (length candles <? 200)%nat then None else
  let highs := map high candles in
  let lows := map low candles in
  let psar := PSAR_calculate highs lows q_0_02 q_0_2 in
  let closes := map close candles in
  let emaArr := EMA_calculate (ofZ 100) closes in
  let '(totalTrades, correctTrades) :=
    Psar.loop closes psar emaArr (Z.of_nat (length candles)) in
  Some (mkResult totalTrades correctTrades
          (accuracyOf totalTrades correctTrades)).

End Backtest.

End PsarEma100.

(** The look-back variant: [lookbackCross] replaces the plain cross and the
    loop starts at [lookback]. *)
Module Lookback.

Section Loop.

Variables (closes psar ema200Arr : list value).
Variable lookback : Z.

Definition bar (i : Z) : option direction :=
  if isUndefined (get psar (i - 1)) || isUndefined (get psar i)
  then None else
  let closeCurr := get closes i in
  let closeNext := get closes (i + 1) in
  let ema200 := orNull (get ema200Arr i) in
  match lookbackCross closes psar lookback i with
  | None => None
  | Some d =>
    if negb (continuation d closeNext closeCurr) then None else
    if trendSkips d closeCurr ema200 then None else
    Some d
  end.

Definition step (st : Z * Z) (i : Z) : Z * Z :=
  match bar i with
  | None => st
  | Some d => Psar.trade closes d st i
  end.

(** [for (let i = lookback; i < candles.length - 2; i++) { ... }] *)
Definition loop (n : Z) : Z * Z :=
  fold_left step (forRange lookback (n - 2)) (0, 0).

End Loop.

Section Backtest.

Context {TI : TechnicalIndicators}.

Definition backtest (candles : list candle) (lookback : Z)
  : option backtestResult :=
  if (length candles <? 200)%nat then None else
  let highs := map high candles in
  let lows := map low candles in
  let psar := PSAR_calculate highs lows q_0_02 q_0_2 in
  let closes := map close candles in
  let ema200Arr := EMA_calculate (ofZ 200) closes in
  let '(totalTrades, correctTrades) :=
    loop closes psar ema200Arr lookback (Z.of_nat (length candles)) in
  Some (mkResult totalTrades correctTrades
          (accuracyOf totalTrades correctTrades)).

End Backtest.

End Lookback.

(** ** The PSAR backtest with the EMA stack *)

Module EmaStack.

Section Loop.

Variables (closes psarArr ema50Arr ema100Arr ema200Arr : list value).
Variable expiryBars : Z.

(** [ema50 > ema100 && ema100 > ema200] *)
Definition bullishStack (ema50 ema100 ema200 : value) : bool :=
  js_gt ema50 ema100 && js_gt ema100 ema200.

(** [ema50 < ema100 && ema100 < ema200] *)
Definition bearishStack (ema50 ema100 ema200 : value) : bool :=
  js_lt ema50 ema100 && js_lt ema100 ema200.

Definition bar (i : Z) : option direction :=
  if isUndefined (get psarArr (i - 1)) || isUndefined (get psarArr i)
  then None else
  let closePrev := get closes (i - 1) in
  let closeCurr := get closes i in
  let closeNext := get closes (i + 1) in
  let psarPrev := get psarArr (i - 1) in
  let psarCurr := get psarArr i in
  match psarCross closePrev psarPrev closeCurr psarCurr with
  | None => None
  | Some d =>
    if negb (continuation d closeNext closeCurr) then None else
    let ema50 := get ema50Arr i in
    let ema100 := get ema100Arr i in
    let ema200 := get ema200Arr i in
    if isUndefined ema50 || isUndefined ema100 || isUndefined ema200
    then None else
    if (direction_eqb d UP && negb (bullishStack ema50 ema100 ema200)) ||
       (direction_eqb d DOWN && negb (bearishStack ema50 ema100 ema200))
    then None else
    Some d
  end.

Definition step (st : Z * Z) (i : Z) : Z * Z :=
  match bar i with
  | None => st
  | Some d =>
    let '(total, correct) := st in
    let total := total + 1 in
    let entry := get closes (i + 1) in
    let exit := get closes (i + 1 + expiryBars) in
    let correct := if isWin d entry exit then correct + 1 else correct in
    (total, correct)
  end.

(** [for (let i = 1; i < candles.length - (expiryBars + 1); i++) { ... }] *)
Definition loop (n : Z) : Z * Z :=
  fold_left step (forRange 1 (n - (expiryBars + 1))) (0, 0).

End Loop.

Section Backtest.

Context {TI : TechnicalIndicators}.

Definition backtestStrategy (candles : list candle) (expiryBars : Z)
  (psarStep psarMax : value) : backtestResult :=
  let psarStep := defaultTo q_0_02 psarStep in
  let psarMax := defaultTo q_0_2 psarMax in
  let highs := map high candles in
  let lows := map low candles in
  let closes := map close candles in
  let psarArr := PSAR_calculate highs lows psarStep psarMax in
  let ema50Arr := EMA_calculate (ofZ 50) closes in
  let ema100Arr := EMA_calculate (ofZ 100) closes in
  let ema200Arr := EMA_calculate (ofZ 200) closes in
  let '(total, correct) :=
    loop closes psarArr ema50Arr ema100Arr ema200Arr expiryBars
      (Z.of_nat (length candles)) in
  mkResult total correct (accuracyOf total correct).

End Backtest.

End EmaStack.

(** ** Synthetic volume *)

(** [timeString.split(':')[0]] *)
Fixpoint beforeColon (s : string) : string :=
  match s with
  | EmptyString => EmptyString
  | String c rest =>
    if Ascii.eqb c ":"%char then EmptyString else String c (beforeColon rest)
  end.

Section SyntheticVolume.

(** [parseInt(s, 10)] *)
Variable parseInt10 : string -> value.

(** [getSyntheticVolume(timeString)], where [random] is the number
    returned by its call of [Math.random()]. *)
Definition getSyntheticVolume (random : Q) (timeString : string) : value :=
  let hour := parseInt10 (beforeColon timeString) in
  let min := 100 in
  let max := 1500 in
  let '(min, max) :=
    if js_lt hour (ofZ 8) then (min, 400)
    else if js_lt hour (ofZ 16) then (400, 800)
    else (800, 1500) in
  ofZ (Qfloor (random * inject_Z (max - min + 1)) + min).

End SyntheticVolume.

(** ** The Keltner channel backtest *)

Module Keltner.

(** An element of [KeltnerChannels.calculate]'s output. *)
Record channel : Type := mkChannel {
  upper : value;
  middle : value;
  lower : value
}.

(** [KeltnerChannels.calculate({close, high, low, period, multiplier})] *)
Class KeltnerChannels : Type := {
  KeltnerChannels_calculate :
    list value -> list value -> list value -> value -> value -> list channel
}.

(** [closePrev <= kcUpper && closeCurr > kcUpper] *)
Definition breaksAbove (closePrev closeCurr kcUpper : value) : bool :=
  js_le closePrev kcUpper && js_gt closeCurr kcUpper.

(** [closePrev >= kcLower && closeCurr < kcLower] *)
Definition breaksBelow (closePrev closeCurr kcLower : value) : bool :=
  js_ge closePrev kcLower && js_lt closeCurr kcLower.

(** [let direction = null;
     if (closePrev <= kcUpper && closeCurr > kcUpper) {
       if (ema50 <= ema200) direction = 'DOWN'; }
     if (closePrev >= kcLower && closeCurr < kcLower) {
       if (ema50 >= ema200) direction = direction ? null : 'UP'; }] *)
Definition reversal (closePrev closeCurr kcUpper kcLower ema50 ema200 : value)
  : option direction :=
  let direction := None in
  let direction :=
    if breaksAbove closePrev closeCurr kcUpper
    then (if js_le ema50 ema200 then Some DOWN else direction)
    else direction in
  let direction :=
    if breaksBelow closePrev closeCurr kcLower
    then (if js_ge ema50 ema200
          then match direction with Some _ => None | None => Some UP end
          else direction)
    else direction in
  direction.

Section Loop.

Variables (closes ema50Arr ema200Arr : list value).
Variable kcArr : list channel.
Variable expiryBars : Z.

(** The direction of the trade opened by the iteration at [i], if any. *)
Definition bar (i : Z) : option direction :=
  match idx kcArr i with
  | None => None
  | Some kc =>
    let idx := i + (20 - 1) in
    let ema50 := get ema50Arr idx in
    let ema200 := get ema200Arr idx in
    if isUndefined ema50 || isUndefined ema200 then None else
    let closeCurr := get closes idx in
    let closePrev := get closes (idx - 1) in
    let kcUpper := upper kc in
    let kcLower := lower kc in
    reversal closePrev closeCurr kcUpper kcLower ema50 ema200
  end.

Definition step (st : Z * Z) (i : Z) : Z * Z :=
  match bar i with
  | None => st
  | Some d =>
    let '(total, correct) := st in
    let idx := i + (20 - 1) in
    let entry := get closes (idx + 1) in
    let exit := get closes (idx + 1 + expiryBars) in
    let win := isWin d entry exit in
    let total := total + 1 in
    let correct := if win then correct + 1 else correct in
    (total, correct)
  end.

(** [for (let i = 0; i < candles.length - (expiryBars + 1); i++) { ... }] *)
Definition loop (n : Z) : Z * Z :=
  fold_left step (forRange 0 (n - (expiryBars + 1))) (0, 0).

End Loop.

Section Backtest.

Context {TI : TechnicalIndicators} {KC : KeltnerChannels}.

Definition backtest (candles : list candle) (expiryBars : Z)
  : backtestResult :=
  let closes := map close candles in
  let highs := map high candles in
  let lows := map low candles in
  let kcArr := KeltnerChannels_calculate closes highs lows (ofZ 20) (ofZ 2) in
  let ema50Arr := EMA_calculate (ofZ 50) closes in
  let ema200Arr := EMA_calculate (ofZ 200) closes in
  let '(total, correct) :=
    loop closes ema50Arr ema200Arr kcArr expiryBars
      (Z.of_nat (length candles)) in
  mkResult total correct (accuracyOf total correct).

End Backtest.

End Keltner.

(** ** Loading candles *)

(** [s.split(',')] *)
Fixpoint splitComma (s : string) : list string :=
  match s with
  | EmptyString => [EmptyString]
  | String c rest =>
    if Ascii.eqb c ","%char then EmptyString :: splitComma rest
    else match splitComma rest with
         | [] => [String c EmptyString]
         | field :: fields => String c field :: fields
         end
  end.

(** Whether a value counts as true in a condition; the values here are
    numbers, [NaN] or [undefined]. *)
Definition truthy (v : value) : bool :=
  match v with
  | Num q => negb (Qeq_bool q 0)
  | _ => false
  end.

(** [parts[k]] *)
Definition field (parts : list string) (k : nat) : string :=
  nth k parts EmptyString.

Definition isEmpty (s : string) : bool :=
  match s with EmptyString => true | _ => false end.

Section LoadCandles.

(** [content.split(/\r?\n/)], [line.trim()], [parseFloat(s)] and
    [parseInt(s, 10)]. *)
Variable splitLines : string -> list string.
Variable trim : string -> string.
Variable parseFloat : string -> value.
Variable parseInt10 : string -> value.

(** The number returned by the [k]-th call of [Math.random()], counting
    from 0. *)
Variable random : nat -> Q.

(** The candle pushed for a line whose fields are [parts], when [pushed]
    candles were pushed before. *)
Definition candleOf (parts : list string) (pushed : nat) : candle :=
  let timeStr := field parts 1 in
  mkCandle (parseFloat (field parts 2)) (parseFloat (field parts 3))
           (parseFloat (field parts 4)) (parseFloat (field parts 5))
           (getSyntheticVolume parseInt10 (random pushed) timeStr).

(** [for (const line of lines) {
       if (!line.trim()) continue;
       const parts = line.trim().split(',');
       if (parts.length < 7) continue;
       candles.push({ ... });
       if (maxRows && candles.length >= maxRows) break; }]
    over the lines still to read. *)
Fixpoint loadLines (lines : list string) (candles : list candle)
  (maxRows : value) : list candle :=
  match lines with
  | [] => candles
  | line :: rest =>
    if isEmpty (trim line) then loadLines rest candles maxRows else
    let parts := splitComma (trim line) in
    if (length parts <? 7)%nat then loadLines rest candles maxRows else
    let candles := candles ++ [candleOf parts (length candles)] in
    if truthy maxRows && js_ge (ofZ (Z.of_nat (length candles))) maxRows
    then candles
    else loadLines rest candles maxRows
  end.

(** [loadCandles(csvPath, maxRows)], where [content] is what
    [fs.readFileSync(csvPath, 'utf8')] returns. *)
Definition loadCandles (content : string) (maxRows : value) : list candle :=
  let lines := splitLines content in
  loadLines lines [] maxRows.

(** A line that gives a candle: not blank, and at least seven fields. *)
Definition givesCandle (line : string) : bool :=
  negb (isEmpty (trim line)) &&
  negb (length (splitComma (trim line)) <? 7)%nat.

(** The open, high, low and close read from a line. *)
Definition linePrices (line : string) : value * value * value * value :=
  let parts := splitComma (trim line) in
  (parseFloat (field parts 2), parseFloat (field parts 3),
   parseFloat (field parts 4), parseFloat (field parts 5)).

End LoadCandles.

(** The open, high, low and close of a candle. *)
Definition prices (c : candle) : value * value * value * value :=
  (open c, high c, low c, close c).

(** ** bollingerBreakoutStrategy5m *)

(** [Math.max(a, b)] *)
Definition Math_max := arith Qmax.

Module Bollinger.

(** An element of [BollingerBands.calculate]'s output. *)
Record band : Type := mkBand {
  upper : value;
  middle : value;
  lower : value
}.

(** [BollingerBands.calculate({ period, stdDev, values })] *)
Class BollingerBands : Type := {
  BollingerBands_calculate : value -> value -> list value -> list band
}.

(** [{ period, stdDev, adxLen, adxThreshold, squeezeMult }]; an absent
    field is [undefined], and [squeezeMult = None] is [null]. *)
Record options : Type := mkOptions {
  period : value;
  stdDev : value;
  adxLen : value;
  adxThreshold : value;
  squeezeMult : option value
}.

(** [{}] *)
Definition noOptions : options :=
  mkOptions undefined undefined undefined undefined (Some undefined).

(** [arr.slice(start, stop)] for an integer [stop] within the array and a
    [start] that is any value: [NaN] counts as 0, a number is truncated,
    and a negative one counts from the end. *)
Definition slice (arr : list value) (start : value) (stop : Z) : list value :=
  let len := Z.of_nat (length arr) in
  let s := match start with
           | Num q => if Qle_bool 0 q then Qfloor q else Qceiling q
           | _ => 0
           end in
  let from := if s <? 0 then Z.max (len + s) 0 else Z.min s len in
  firstn (Z.to_nat (stop - from)) (skipn (Z.to_nat from) arr).

(** [widths.map((_, idx) => {
       const start = Math.max(0, idx - period + 1);
       const slice = widths.slice(start, idx + 1);
       const sum = slice.reduce((a, b) => a + b, 0);
       return sum / slice.length; })] at [idx]; the quotient of an empty
    slice is [0 / 0]. *)
Definition avgWidthAt (widths : list value) (period : value) (idx : Z)
  : value :=
  let start := Math_max (ofZ 0) (js_add (js_sub (ofZ idx) period) (ofZ 1)) in
  let slice := slice widths start (idx + 1) in
  let sum := fold_left js_add slice (ofZ 0) in
  match slice with
  | [] => NaN
  | _ => js_div sum (ofZ (Z.of_nat (length slice)))
  end.

Definition avgWidths (widths : list value) (period : value) : list value :=
  map (fun idx => avgWidthAt widths period (Z.of_nat idx))
      (seq 0 (length widths)).

(** [prev <= upper && curr > upper] *)
Definition breakoutUp (prev curr upper : value) : bool :=
  js_le prev upper && js_gt curr upper.

(** [prev >= lower && curr < lower] *)
Definition breakoutDown (prev curr lower : value) : bool :=
  js_ge prev lower && js_lt curr lower.

(** [squeezeMult !== null && (width >= squeezeMult * avg)] *)
Definition squeezed (squeezeMult : option value) (width avg : value) : bool :=
  match squeezeMult with
  | None => false
  | Some mult => js_ge width (js_mul mult avg)
  end.

Section Loop.

Variable closes : list value.
Variable bb : list band.
Variables (widths avgWidth : list value).
Variable adxVals : list adxEntry.
Variable adxThreshold : value.
Variable squeezeMult : option value.
Variable n : Z.

(** The signals pushed by the iteration at bar [i]; reading a property of
    a missing element throws. *)
Definition bar (i : Z) : outcome (list Trend.entry) :=
  let bbOffset := n - Z.of_nat (length bb) in
  let adxOffset := n - Z.of_nat (length adxVals) in
  let bbIdx := i - bbOffset in
  let adxIdx := i - adxOffset in
  if (bbIdx <=? 0) || (adxIdx <? 0) then Return [] else
  let prev := get closes (i - 1) in
  let curr := get closes i in
  match idx bb bbIdx with
  | None => Throw "TypeError"
  | Some b =>
    let upper := upper b in
    let lower := lower b in
    let width := get widths bbIdx in
    let avg := get avgWidth bbIdx in
    match idx adxVals adxIdx with
    | None => Throw "TypeError"
    | Some e =>
      let adxv := adx e in
      if isNaN adxv || js_lt adxv adxThreshold then Return [] else
      if squeezed squeezeMult width avg then Return [] else
      let up :=
        if breakoutUp prev curr upper
        then [Trend.mkEntry i UP (Trend.confidenceOf adxv adxThreshold)]
        else [] in
      let down :=
        if breakoutDown prev curr lower
        then [Trend.mkEntry i DOWN (Trend.confidenceOf adxv adxThreshold)]
        else [] in
      Return (up ++ down)
    end
  end.

(** [for (let i = 1; i < candles.length - 5; i++) { ... }] over the indices
    still to visit. *)
Fixpoint loop (indices : list Z) (signals : list Trend.entry)
  : outcome (list Trend.entry) :=
  match indices with
  | [] => Return signals
  | i :: rest =>
    match bar i with
    | Throw msg => Throw msg
    | Return pushed => loop rest (signals ++ pushed)
    end
  end.

End Loop.

Section Strategy.

Context {TI : TechnicalIndicators} {BB : BollingerBands}.

Definition bollingerBreakoutStrategy5m (candles : list candle)
  (opts : options) : outcome (list Trend.entry) :=
  let period := defaultTo (ofZ 20) (period opts) in
  let stdDev := defaultTo (ofZ 2) (stdDev opts) in
  let adxLen := defaultTo (ofZ 14) (adxLen opts) in
  let adxThreshold := defaultTo (ofZ 30) (adxThreshold opts) in
  let squeezeMult :=
    match squeezeMult opts with
    | Some mult => Some (defaultTo (Num (8 # 10)) mult)
    | None => None
    end in
  let closes := map close candles in
  let highs := map high candles in
  let lows := map low candles in
  let bb := BollingerBands_calculate period stdDev closes in
  let widths := map (fun b => js_sub (upper b) (lower b)) bb in
  let avgWidth := avgWidths widths period in
  match ADX_calculate highs lows closes adxLen with
  | None => Throw "ADX.calculate"
  | Some adxVals =>
    let n := Z.of_nat (length candles) in
    loop closes bb widths avgWidth adxVals adxThreshold squeezeMult n
         (forRange 1 (n - 5)) []
  end.

End Strategy.

End Bollinger.

(** ** The SMA cross, PSAR and Stochastic backtest *)

(** [while (arr.length < n) arr.unshift(arr[0])] *)
Equations unshiftFirstWhile (n : nat) (arr : list value) : list value
  by wf (n - length arr)%nat lt :=
unshiftFirstWhile n arr with lt_dec (length arr) n := {
  | left _ => unshiftFirstWhile n (get arr 0 :: arr)
  | right _ => arr }.
Next Obligation. simpl. lia. Qed.

Module SmaPsarStoch.

(** An element of [Stochastic.calculate]'s output. *)
Record stochastic : Type := mkStochastic { k : value; d : value }.

(** [SMA.calculate({ period, values })] and
    [Stochastic.calculate({ high, low, close, period, signalPeriod })]. *)
Class Indicators : Type := {
  SMA_calculate : value -> list value -> list value;
  Stochastic_calculate :
    list value -> list value -> list value -> value -> value ->
    list stochastic
}.

Section Loop.

Variable candles : list candle.
Variables (sma5 sma13 psar stochK : list value).
Variable expiry : Z.

(** The direction found at bar [i], whose candle is [c]. *)
Definition bar (c : candle) (i : Z) : option direction :=
  let sma5Prev := get sma5 (i - 1) in
  let sma13Prev := get sma13 (i - 1) in
  let sma5Curr := get sma5 i in
  let sma13Curr := get sma13 i in
  let psarCurr := get psar i in
  let highCurr := high c in
  let lowCurr := low c in
  let stochVal := get stochK i in
  let direction := None in
  if negb (isUndefined sma5Prev) && negb (isUndefined sma13Prev) &&
     negb (isUndefined sma5Curr) && negb (isUndefined sma13Curr) &&
     negb (isUndefined stochVal)
  then
    let direction :=
      if js_le sma5Prev sma13Prev && js_gt sma5Curr sma13Curr
      then (if js_lt psarCurr lowCurr && js_gt stochVal (ofZ 50)
            then Some UP else direction)
      else direction in
    let direction :=
      if js_ge sma5Prev sma13Prev && js_lt sma5Curr sma13Curr
      then (if js_gt psarCurr highCurr && js_lt stochVal (ofZ 50)
            then Some DOWN else direction)
      else direction in
    direction
  else direction.

(** The loop body; reading a property of [candles[j]] throws when the
    array has no element at [j]. *)
Definition step (st : Z * Z) (i : Z) : outcome (Z * Z) :=
  match idx candles i with
  | None => Throw "TypeError"
  | Some c =>
    match bar c i with
    | None => Return st
    | Some dir =>
      let '(totalTrades, correctTrades) := st in
      let totalTrades := totalTrades + 1 in
      let entryPrice := close c in
      match idx candles (i + expiry) with
      | None => Throw "TypeError"
      | Some x =>
        let exitPrice := close x in
        let correctTrades :=
          if isWin dir entryPrice exitPrice
          then correctTrades + 1 else correctTrades in
        Return (totalTrades, correctTrades)
      end
    end
  end.

(** [for (let i = 2; i < candles.length - expiry; i++) { ... }] over the
    indices still to visit. *)
Fixpoint loop (indices : list Z) (st : Z * Z) : outcome (Z * Z) :=
  match indices with
  | [] => Return st
  | i :: rest =>
    match step st i with
    | Throw msg => Throw msg
    | Return st' => loop rest st'
    end
  end.

End Loop.

Section Backtest.

Context {TI : TechnicalIndicators} {SI : Indicators}.

(** The figures [backtest] prints for the loaded candles and the expiry
    given on the command line; [None] when it stops with
    ['Not enough data.']. *)
Definition backtest (candles : list candle) (expiry : Z)
  : option (outcome backtestResult) :=
  if (length candles <? 30)%nat then None else
  let closes := map close candles in
  let highs := map high candles in
  let lows := map low candles in
  let sma5 := SMA_calculate (ofZ 5) closes in
  let sma13 := SMA_calculate (ofZ 13) closes in
  let sma5 := unshiftWhile undefined (length closes) sma5 in
  let sma13 := unshiftWhile undefined (length closes) sma13 in
  let psar := PSAR_calculate highs lows (Num (3 # 100)) q_0_2 in
  let psar := unshiftFirstWhile (length closes) psar in
  let stoch := Stochastic_calculate highs lows closes (ofZ 16) (ofZ 9) in
  let stochK := map k stoch in
  let stochK := unshiftWhile undefined (length closes) stochK in
  Some
    match loop candles sma5 sma13 psar stochK expiry
            (forRange 2 (Z.of_nat (length candles) - expiry)) (0, 0) with
    | Throw msg => Throw msg
    | Return (totalTrades, correctTrades) =>
      Return (mkResult totalTrades correctTrades
                (accuracyOf totalTrades correctTrades))
    end.

End Backtest.

End SmaPsarStoch.

(** ** The accuracy as a double

    JavaScript numbers are IEEE 754 binary64 values: the result of [/] and
    [*] is the exact result rounded to the nearest double, ties to the even
    significand.  [roundDouble] is that rounding on the rationals, for
    results in the range of the normal doubles (between [2^-1022] and
    [2^1024] in magnitude), which is where the accuracy of two counters
    lies. *)

(** [floor (log2 x)] for [0 < x]. *)
Definition binade (x : Q) : Z :=
  let k := Z.log2 (Qnum x) - Z.log2 (Zpos (Qden x)) in
  if Qle_bool (2 ^ k) x then k else k - 1.

(** The nearest integer, ties to the even one. *)
Definition roundHalfEven (x : Q) : Z :=
  let f := Qfloor x in
  match (x - inject_Z f ?= 1 # 2)%Q with
  | Lt => f
  | Gt => f + 1
  | Eq => if Z.even f then f else f + 1
  end.

(** The nearest number with a significand of 53 bits, for [0 < x]. *)
Definition roundPositive (x : Q) : Q :=
  let s := binade x - 52 in
  (inject_Z (roundHalfEven (x / 2 ^ s)) * 2 ^ s)%Q.

Definition roundDouble (x : Q) : Q :=
  match (x ?= 0)%Q with
  | Eq => 0%Q
  | Gt => roundPositive x
  | Lt => (- roundPositive (- x))%Q
  end.

(** [a / b] and [a * b] on doubles. *)
Definition double_div := arith (fun x y => roundDouble (x / y)).
Definition double_mul := arith (fun x y => roundDouble (x * y)).

(** [total > 0 ? (correct / total) * 100 : 0] as JavaScript evaluates it:
    the quotient is rounded, then the product. *)
Definition accuracyDouble (total correct : Z) : value :=
  if 0 <? total
  then double_mul (double_div (ofZ correct) (ofZ total)) (ofZ 100)
  else ofZ 0.

(** The same expression over the binary64 operations of the Standard
    Library's specification of floating-point numbers. *)
Module Binary64.

Definition ofInteger (z : Z) : SpecFloat.spec_float :=
  SpecFloat.binary_normalize 53 1024 z 0 false.

Definition toQ (f : SpecFloat.spec_float) : option Q :=
  match f with
  | SpecFloat.S754_zero _ => Some 0%Q
  | SpecFloat.S754_finite s m e =>
    Some ((if s then - (1) else 1) * inject_Z (Zpos m) * 2 ^ e)%Q
  | _ => None
  end.

Definition accuracy (total correct : Z) : option Q :=
  if 0 <? total
  then toQ (SpecFloat.SFmul 53 1024
              (SpecFloat.SFdiv 53 1024 (ofInteger correct) (ofInteger total))
              (ofInteger 100))
  else Some 0%Q.

(** Every pair of counters [0 <= correct <= total] with [1 <= total <= n]. *)
Definition counters (n : nat) : list (Z * Z) :=
  flat_map (fun t => map (fun c => (Z.of_nat t, Z.of_nat c)) (seq 0 (S t)))
    (seq 1 n).

Definition agrees (tc : Z * Z) : bool :=
  let '(t, c) := tc in
  match accuracy t c, accuracyDouble t c with
  | Some q, Num a => Qeq_bool q a
  | _, _ => false
  end.

End Binary64.

(** ** The array reads of the batch loops

    The loops of [backtestStrategy] again, statement by statement, with
    every array read recorded: the array, the index and the length of the
    array at the time of the read. *)

Inductive arrayName : Type :=
| Closes | Highs | Lows | PsarArr | Ema50Arr | Ema100Arr | Ema200Arr | AdxArr.

Record access : Type := mkAccess {
  readArray : arrayName;
  readIndex : Z;
  readLength : nat
}.

(** The read hits an element of the array. *)
Definition inBounds (a : access) : bool :=
  (0 <=? readIndex a) && (readIndex a <? Z.of_nat (readLength a)).

(** The arrays made from the candles: [candles.map(c => c.close)] and the
    like. *)
Definition ofCandles (name : arrayName) : bool :=
  match name with Closes | Highs | Lows => true | _ => false end.

Definition arrayName_eqb (a b : arrayName) : bool :=
  match a, b with
  | Closes, Closes | Highs, Highs | Lows, Lows | PsarArr, PsarArr
  | Ema50Arr, Ema50Arr | Ema100Arr, Ema100Arr | Ema200Arr, Ema200Arr
  | AdxArr, AdxArr => true
  | _, _ => false
  end.

Definition access_eqb (a b : access) : bool :=
  arrayName_eqb (readArray a) (readArray b) &&
  (readIndex a =? readIndex b) && (readLength a =? readLength b)%nat.

Module Traced.

(** A computation that returns a value and the reads it made, in order. *)
Definition traced (A : Type) : Type := (A * list access)%type.

Definition ret {A : Type} (a : A) : traced A := (a, []).

Definition bind {A B : Type} (m : traced A) (f : A -> traced B) : traced B :=
  let r := f (fst m) in (fst r, snd m ++ snd r).

Notation "x <- m ;; k" := (bind m (fun x => k))
  (at level 61, m at next level, right associativity).

(** [arr[i]] *)
Definition readAt {A : Type} (name : arrayName) (arr : list A) (i : Z)
  : traced (option A) :=
  (idx arr i, [mkAccess name i (length arr)]).

Definition read (name : arrayName) (arr : list value) (i : Z) : traced value :=
  (get arr i, [mkAccess name i (length arr)]).

(** [psarArr[i - 1] === undefined || psarArr[i] === undefined]: the second
    operand is evaluated only when the first is false. *)
Definition psarMissing (psarArr : list value) (i : Z) : traced bool :=
  p <- read PsarArr psarArr (i - 1) ;;
  if isUndefined p then ret true else
  q <- read PsarArr psarArr i ;;
  ret (isUndefined q).

Section PsarAdx.

Variables (highs lows closes psarArr ema200Arr : list value).
Variable adxArr : list adxEntry.
Variable expiryBars : Z.
Variables (adxThreshold minFlips rangeMultiplier : value).

(** [for (let j = i - lookback + 1; j <= i; j++)
      sumRange += (highs[j] - lows[j]);]
    with [k] iterations left. *)
Fixpoint sumRangeLoop (j : Z) (k : nat) (sumRange : value) : traced value :=
  match k with
  | O => ret sumRange
  | S k' =>
    h <- read Highs highs j ;;
    l <- read Lows lows j ;;
    sumRangeLoop (j + 1) k' (js_add sumRange (js_sub h l))
  end.

Definition rangeRejects (i : Z) : traced bool :=
  if js_gt rangeMultiplier (ofZ 0) then
    let lookback := 14 in
    if lookback <=? i then
      sumRange <- sumRangeLoop (i - lookback + 1) (Z.to_nat lookback) (ofZ 0) ;;
      let avgRange := js_div sumRange (ofZ lookback) in
      h <- read Highs highs i ;;
      l <- read Lows lows i ;;
      let currRange := js_sub h l in
      ret (js_lt currRange (js_mul avgRange rangeMultiplier))
    else ret false
  else ret false.

(** [ema200Arr[i] !== undefined ? ema200Arr[i] : null] *)
Definition ema200OrNull (i : Z) : traced (option value) :=
  e <- read Ema200Arr ema200Arr i ;;
  if negb (isUndefined e) then
    e' <- read Ema200Arr ema200Arr i ;;
    ret (Some e')
  else ret None.

(** [adxArr[i] !== undefined ? adxArr[i].adx : null] *)
Definition adxOrNull (i : Z) : traced (option value) :=
  a <- readAt AdxArr adxArr i ;;
  match a with
  | Some _ =>
    a' <- readAt AdxArr adxArr i ;;
    ret (option_map adx a')
  | None => ret None
  end.

Definition barDecision (barsSinceFlip : Z) (i : Z)
  : traced (option direction * Z) :=
  missing <- psarMissing psarArr i ;;
  if missing then ret (None, barsSinceFlip + 1) else
  closePrev <- read Closes closes (i - 1) ;;
  closeCurr <- read Closes closes i ;;
  closeNext <- read Closes closes (i + 1) ;;
  psarPrev <- read PsarArr psarArr (i - 1) ;;
  psarCurr <- read PsarArr psarArr i ;;
  ema200 <- ema200OrNull i ;;
  adxv <- adxOrNull i ;;
  match psarCross closePrev psarPrev closeCurr psarCurr with
  | None => ret (None, barsSinceFlip + 1)
  | Some d =>
    if negb (continuation d closeNext closeCurr)
    then ret (None, barsSinceFlip + 1) else
    if js_lt (ofZ barsSinceFlip) minFlips then ret (None, 0) else
    let barsSinceFlip := 0 in
    rejected <- rangeRejects i ;;
    if rejected then ret (None, barsSinceFlip) else
    if trendSkips d closeCurr ema200 then ret (None, barsSinceFlip) else
    if adxSkips adxv adxThreshold then ret (None, barsSinceFlip) else
    ret (Some d, barsSinceFlip)
  end.

Definition backtestStep (st : loopState) (i : Z) : traced loopState :=
  decision <- barDecision (barsSinceFlip st) i ;;
  match decision with
  | (None, bars) => ret (mkLoop (totalTrades st) (correctTrades st) bars)
  | (Some d, bars) =>
    let totalTrades := totalTrades st + 1 in
    entryPrice <- read Closes closes (i + 1) ;;
    exitPrice <- read Closes closes (i + 1 + expiryBars) ;;
    let correctTrades :=
      if isWin d entryPrice exitPrice
      then correctTrades st + 1 else correctTrades st in
    ret (mkLoop totalTrades correctTrades bars)
  end.

(** The loop over the indices still to visit. *)
Fixpoint visit (indices : list Z) (st : loopState) : traced loopState :=
  match indices with
  | [] => ret st
  | i :: rest => st' <- backtestStep st i ;; visit rest st'
  end.

(** [for (let i = 1; i < candles.length - (expiryBars + 1); i++) { ... }] *)
Definition backtestLoop (n : Z) : traced loopState :=
  visit (forRange 1 (n - (expiryBars + 1))) (mkLoop 0 0 0).

End PsarAdx.

(** The loop of the EMA-stack backtest. *)
Section Stack.

Variables (closes psarArr ema50Arr ema100Arr ema200Arr : list value).
Variable expiryBars : Z.

Definition stackBar (i : Z) : traced (option direction) :=
  missing <- psarMissing psarArr i ;;
  if missing then ret None else
  closePrev <- read Closes closes (i - 1) ;;
  closeCurr <- read Closes closes i ;;
  closeNext <- read Closes closes (i + 1) ;;
  psarPrev <- read PsarArr psarArr (i - 1) ;;
  psarCurr <- read PsarArr psarArr i ;;
  match psarCross closePrev psarPrev closeCurr psarCurr with
  | None => ret None
  | Some d =>
    if negb (continuation d closeNext closeCurr) then ret None else
    ema50 <- read Ema50Arr ema50Arr i ;;
    ema100 <- read Ema100Arr ema100Arr i ;;
    ema200 <- read Ema200Arr ema200Arr i ;;
    if isUndefined ema50 || isUndefined ema100 || isUndefined ema200
    then ret None else
    if (direction_eqb d UP &&
        negb (EmaStack.bullishStack ema50 ema100 ema200)) ||
       (direction_eqb d DOWN &&
        negb (EmaStack.bearishStack ema50 ema100 ema200))
    then ret None else
    ret (Some d)
  end.

Definition stackStep (st : Z * Z) (i : Z) : traced (Z * Z) :=
  decision <- stackBar i ;;
  match decision with
  | None => ret st
  | Some d =>
    let '(total, correct) := st in
    let total := total + 1 in
    entry <- read Closes closes (i + 1) ;;
    exit <- read Closes closes (i + 1 + expiryBars) ;;
    let correct := if isWin d entry exit then correct + 1 else correct in
    ret (total, correct)
  end.

Fixpoint stackVisit (indices : list Z) (st : Z * Z) : traced (Z * Z) :=
  match indices with
  | [] => ret st
  | i :: rest => st' <- stackStep st i ;; stackVisit rest st'
  end.

(** [for (let i = 1; i < candles.length - (expiryBars + 1); i++) { ... }] *)
Definition stackLoop (n : Z) : traced (Z * Z) :=
  stackVisit (forRange 1 (n - (expiryBars + 1))) (0, 0).

End Stack.

End Traced.

(** ** Reference definitions and sample inputs *)

(** Follows the spec's words (persistence filter): the number of
    consecutive bars, walking backward from bar [j1 - 1], at which the
    close is on side [s] of the PSAR series; bars before the first one do
    not count. *)
Fixpoint barsOnSide (closes psarArr : list value) (s : side) (j1 : nat) : Z :=
  match j1 with
  | O => 0
  | S j =>
    if side_eqb (sideOf (get closes (Z.of_nat j)) (get psarArr (Z.of_nat j))) s
    then 1 + barsOnSide closes psarArr s j
    else 0
  end.

(** Follows the spec's words: the reference series stayed on the pre-flip
    side (the side at bar [i - 1]) for at least [k] consecutive bars before
    bar [i]. *)
Definition persistedBefore (closes psarArr : list value) (i k : Z) : bool :=
  let preFlipSide := sideOf (get closes (i - 1)) (get psarArr (i - 1)) in
  k <=? barsOnSide closes psarArr preFlipSide (Z.to_nat i).

(** Two candles with the same open, high, low and close; their volumes
    are unrelated. *)
Definition samePrices (a b : candle) : Prop :=
  open a = open b /\ high a = high b /\ low a = low b /\ close a = close b.

(** An indicator library whose functions return fixed series. *)
Definition fixedIndicators (psar ema : list value)
  (adxRes : option (list adxEntry)) : TechnicalIndicators :=
  {| PSAR_calculate := fun _ _ _ _ => psar;
     EMA_calculate := fun _ _ => ema;
     ADX_calculate := fun _ _ _ _ => adxRes |}.

(** An indicator library whose EMA depends on the period only. *)
Definition periodIndicators (psar : list value)
  (ema : value -> list value) (adxRes : option (list adxEntry))
  : TechnicalIndicators :=
  {| PSAR_calculate := fun _ _ _ _ => psar;
     EMA_calculate := fun period _ => ema period;
     ADX_calculate := fun _ _ _ _ => adxRes |}.

(** A candle whose four prices are [c], with volume [v]. *)
Definition flat (c : Z) (v : Z) : candle :=
  mkCandle (ofZ c) (ofZ c) (ofZ c) (ofZ c) (ofZ v).

Definition noFormat : value -> string := fun _ => EmptyString.

(** Closes 1, 3, 4 against a PSAR of 2: an UP flip at the middle bar with
    continuation; too short for the EMA and the ADX to produce a value. *)
Definition shortRise : list candle := [flat 1 100; flat 3 100; flat 4 100].
Definition shortRiseIndicators : TechnicalIndicators :=
  fixedIndicators [ofZ 2; ofZ 2; ofZ 2] [] (Some []).

(** Closes 1, 1, 1, 3, 4 against a PSAR of 2: three bars below, then an UP
    flip at bar 3, confirmed at bar 4. *)
Definition lateRise : list candle :=
  [flat 1 100; flat 1 100; flat 1 100; flat 3 100; flat 4 100].
Definition lateRiseIndicators : TechnicalIndicators :=
  fixedIndicators [ofZ 2; ofZ 2; ofZ 2; ofZ 2; ofZ 2] [] (Some []).
Definition minFlips2 : psarAdxConfig :=
  mkConfig None None None (Some (ofZ 2)) None.

(** Eight flat candles; the fast EMA (period 50) crosses above the slow
    one (period 100) at bar 1, with the close above the trend EMA and an
    ADX of 30. *)
Definition crossingCandles : list candle := repeat (flat 10 100) 8.
Definition crossingEma (period : value) : list value :=
  match period with
  | Num q =>
    if Qeq_bool q (inject_Z 50) then ofZ 1 :: repeat (ofZ 3) 7
    else if Qeq_bool q (inject_Z 100) then repeat (ofZ 2) 8
    else repeat (ofZ 5) 8
  | _ => []
  end.
Definition crossingIndicators : TechnicalIndicators :=
  periodIndicators [] crossingEma
    (Some (repeat (mkAdx (ofZ 30) (ofZ 20) (ofZ 10)) 8)).

(** 250 flat candles, with an EMA(200) series of the 51 values the
    library returns for them. *)
Definition longFlat : list candle := repeat (flat 1 100) 250.
Definition longFlatIndicators : TechnicalIndicators :=
  fixedIndicators (repeat (ofZ 2) 250) (repeat (ofZ 1) 51)
    (Some (repeat (mkAdx (ofZ 30) (ofZ 20) (ofZ 10)) 223)).

(** What holds between two iterations of the triple-oscillator loop,
    before bar [i]: at most one trade is open, and it expires at [i]. *)
Definition ledgerInv (st : Triple.ledger) (i : Z) : Prop :=
  (length (Triple.openTrades st) <= 1)%nat /\
  Forall (fun t => Triple.expiryIndex t = i) (Triple.openTrades st).

Section Created.

Context {OI : OscillatorIndicators}.

(** Whether the triple-oscillator loop executes [openTrades.push] at the
    bar of candle [c], reached with [history]. *)
Definition opensTrade (history : list candle) (c : candle) : bool :=
  negb (length (history ++ [c]) <? 200)%nat &&
  match Triple.oscillatorSignal (history ++ [c]) c with
  | Some _ => true
  | None => false
  end.

(** The number of trades the loop creates on [data], entered with
    [history]. *)
Fixpoint tradesCreated (history data : list candle) : Z :=
  match data with
  | [] => 0
  | c :: rest =>
    (if opensTrade history c then 1 else 0) +
    tradesCreated (history ++ [c]) rest
  end.

End Created.

(** Oscillators that read oversold and turning up, with the close above
    the EMA, once exactly 210 candles are in the history. *)
Definition lastBarOscillators : OscillatorIndicators :=
  {| calculateEMA := fun _ _ => [ofZ 0];
     calculateRSI := fun closes =>
       if (length closes =? 210)%nat then [ofZ 20; ofZ 30] else [];
     calculateStochastic := fun _ =>
       ([ofZ 10; ofZ 15], [ofZ 10; ofZ 15]);
     CCI_calculate := fun _ _ _ _ => [ofZ (-200); ofZ (-150)] |}.
Definition twoHundredTen : list candle := repeat (flat 1 100) 210.

(** 250 candles whose closes start 1, 3, 4, 5, 1, 0, 3, 2 and stay at 1,
    against a PSAR of 2: a confirmed UP flip at bar 1 and a confirmed DOWN
    flip at bar 4; no EMA value, no ADX value. *)
Definition zigzag : list candle :=
  [flat 1 100; flat 3 100; flat 4 100; flat 5 100;
   flat 1 100; flat 0 100; flat 3 100; flat 2 100] ++ repeat (flat 1 100) 242.
Definition zigzagIndicators : TechnicalIndicators :=
  fixedIndicators (repeat (ofZ 2) 250) [] (Some []).

(** Figures a backtest may report after visiting [visited] bars:
    [0 <= correct <= total <= max 0 visited] and an accuracy between 0 and
    100. *)
Definition boundedFigures (r : backtestResult) (visited : Z) : Prop :=
  0 <= correct r <= total r /\ total r <= Z.max 0 visited /\
  exists q, accuracy r = Num q /\ (0 <= q)%Q /\ (q <= inject_Z 100)%Q.

(** Bollinger bands of 2..6 on eight candles whose close rises from 5 to
    9 at bar 1, with an ADX of 35; the squeeze filter is switched off. *)
Definition breakoutCandles : list candle := flat 5 100 :: repeat (flat 9 100) 7.
Definition breakoutBands : Bollinger.BollingerBands :=
  {| Bollinger.BollingerBands_calculate := fun _ _ _ =>
       repeat (Bollinger.mkBand (ofZ 6) (ofZ 4) (ofZ 2)) 8 |}.
Definition breakoutIndicators : TechnicalIndicators :=
  fixedIndicators [] [] (Some (repeat (mkAdx (ofZ 35) (ofZ 20) (ofZ 10)) 8)).
Definition noSqueeze : Bollinger.options :=
  Bollinger.mkOptions undefined undefined undefined undefined None.

(** Thirty flat candles at 10 with a PSAR of 5 below them; SMA(5) crosses
    above SMA(13) at bar 2 and the Stochastic %K stays at 60. *)
Definition thirtyFlat : list candle := repeat (flat 10 100) 30.
Definition smaCrossSma (period : value) : list value :=
  match period with
  | Num q =>
    if Qeq_bool q (inject_Z 5) then ofZ 1 :: ofZ 1 :: repeat (ofZ 3) 28
    else repeat (ofZ 2) 30
  | _ => []
  end.
Definition smaCrossIndicators : SmaPsarStoch.Indicators :=
  {| SmaPsarStoch.SMA_calculate := fun period _ => smaCrossSma period;
     SmaPsarStoch.Stochastic_calculate := fun _ _ _ _ _ =>
       repeat (SmaPsarStoch.mkStochastic (ofZ 60) (ofZ 60)) 30 |}.
Definition thirtyFlatIndicators : TechnicalIndicators :=
  fixedIndicators (repeat (ofZ 5) 30) [] (Some []).

(** Every recorded read of an array made from the candles hits an element
    of that array. *)
Definition candleReadsInBounds (log : list access) : Prop :=
  Forall (fun a => ofCandles (readArray a) = true -> inBounds a = true) log.

(** * Properties *)

(** ** Comparisons *)

Lemma Qltb_lt (x y : Q) : Qltb x y = true <-> (x < y)%Q.
Proof.
  unfold Qltb. rewrite negb_true_iff. split; intro H.
  - apply Qnot_le_lt. intro Hle. apply Qle_bool_iff in Hle. congruence.
  - destruct (Qle_bool y x) eqn:E; [|reflexivity].
    apply Qle_bool_iff in E. exfalso. exact (Qlt_not_le _ _ H E).
Qed.

Lemma js_lt_Num (a b : value) :
  js_lt a b = true <-> exists x y, a = Num x /\ b = Num y /\ (x < y)%Q.
Proof.
  split.
  - destruct a as [| |x], b as [| |y]; simpl; try discriminate.
    intro H. exists x, y. rewrite <- Qltb_lt. auto.
  - intros (x & y & -> & -> & H). simpl. now apply Qltb_lt.
Qed.

Lemma js_le_Num (a b : value) :
  js_le a b = true <-> exists x y, a = Num x /\ b = Num y /\ (x <= y)%Q.
Proof.
  split.
  - destruct a as [| |x], b as [| |y]; simpl; try discriminate.
    intro H. exists x, y. rewrite <- Qle_bool_iff. auto.
  - intros (x & y & -> & -> & H). simpl. now apply Qle_bool_iff.
Qed.

(** [a < b] and [a > b] exclude each other. *)
Lemma js_lt_asym (a b : value) : js_lt a b = true -> js_lt b a = false.
Proof.
  intro H. apply js_lt_Num in H. destruct H as (x & y & -> & -> & H).
  simpl. destruct (Qltb y x) eqn:E; [|reflexivity].
  apply Qltb_lt in E. exfalso. exact (Qlt_irrefl _ (Qlt_trans _ _ _ H E)).
Qed.

Lemma js_lt_irrefl (a : value) : js_lt a a = false.
Proof.
  destruct (js_lt a a) eqn:E; [|reflexivity].
  pose proof (js_lt_asym _ _ E). congruence.
Qed.

(** ** Array reads *)

Lemma idx_nonneg {A : Type} (arr : list A) (i : Z) :
  0 <= i -> idx arr i = nth_error arr (Z.to_nat i).
Proof. intro H. unfold idx. destruct (Z.ltb_spec i 0); [lia | reflexivity]. Qed.

Lemma idx_app_l {A : Type} (l r : list A) (i : Z) :
  0 <= i < Z.of_nat (length l) -> idx (l ++ r) i = idx l i.
Proof.
  intro H. rewrite !idx_nonneg by lia. apply nth_error_app1. lia.
Qed.

Lemma idx_app_r {A : Type} (l r : list A) (i : Z) :
  Z.of_nat (length l) <= i -> idx (l ++ r) i = idx r (i - Z.of_nat (length l)).
Proof.
  intro H. rewrite !idx_nonneg by lia. rewrite nth_error_app2 by lia.
  f_equal. lia.
Qed.

Lemma idx_repeat {A : Type} (x : A) (k : nat) (i : Z) :
  0 <= i < Z.of_nat k -> idx (repeat x k) i = Some x.
Proof.
  intro H. rewrite idx_nonneg by lia.
  assert (Hk : (Z.to_nat i < k)%nat) by lia. clear H. revert Hk.
  generalize (Z.to_nat i) as m. induction k as [|k IH]; intros m Hm; [lia|].
  destruct m as [|m]; simpl; [reflexivity | apply IH; lia].
Qed.

Lemma idx_beyond {A : Type} (arr : list A) (i : Z) :
  Z.of_nat (length arr) <= i -> idx arr i = None.
Proof.
  intro H. rewrite idx_nonneg by lia. apply nth_error_None. lia.
Qed.

Lemma idx_map {A B : Type} (f : A -> B) (arr : list A) (i : Z) :
  idx (map f arr) i = option_map f (idx arr i).
Proof. unfold idx. destruct (i <? 0); [reflexivity | apply nth_error_map]. Qed.

(** ** Alignment *)

Lemma unshiftWhile_repeat {A : Type} (fill : A) (n : nat) (arr : list A) :
  unshiftWhile fill n arr = repeat fill (n - length arr) ++ arr.
Proof.
  funelim (unshiftWhile fill n arr).
  - match goal with IH : unshiftWhile _ _ _ = _ ++ _ |- _ => rewrite IH end.
    simpl length.
    replace (n - length arr)%nat with (S (n - S (length arr))) by lia.
    simpl repeat. rewrite repeat_cons, <- app_assoc. reflexivity.
  - replace (n - length arr)%nat with 0%nat by lia. reflexivity.
Qed.

Lemma unshiftFirst_repeat (diff : nat) (arr : list value) :
  unshiftFirst diff arr = repeat (get arr 0) diff ++ arr.
Proof.
  revert arr. induction diff as [|d IH]; intro arr; [reflexivity|].
  simpl unshiftFirst. rewrite IH.
  change (get (get arr 0 :: arr) 0) with (get arr 0).
  change (repeat (get arr 0) (S d)) with (get arr 0 :: repeat (get arr 0) d).
  rewrite repeat_cons, <- app_assoc. reflexivity.
Qed.

Lemma alignPsar_repeat (n : nat) (psar : list value) :
  alignPsar n psar = repeat (get psar 0) (n - length psar) ++ psar.
Proof.
  unfold alignPsar. destruct (Nat.ltb_spec (length psar) n).
  - apply unshiftFirst_repeat.
  - replace (n - length psar)%nat with 0%nat by lia. reflexivity.
Qed.

Lemma alignUndefined_length (n : nat) (series : list value) :
  (length series <= n)%nat -> length (alignUndefined n series) = n.
Proof.
  intro H. unfold alignUndefined. rewrite unshiftWhile_repeat.
  rewrite length_app, repeat_length. lia.
Qed.

Lemma alignPsar_length (n : nat) (series : list value) :
  (length series <= n)%nat -> length (alignPsar n series) = n.
Proof.
  intro H. rewrite alignPsar_repeat, length_app, repeat_length. lia.
Qed.

(** Reading a series padded in front by [k] copies of [x]. *)
Lemma idx_padded {A : Type} (x : A) (k : nat) (arr : list A) (i : Z) :
  0 <= i ->
  idx (repeat x k ++ arr) i =
  if i <? Z.of_nat k then Some x else idx arr (i - Z.of_nat k).
Proof.
  intro H. destruct (Z.ltb_spec i (Z.of_nat k)).
  - rewrite idx_app_l by (rewrite repeat_length; lia).
    apply idx_repeat. lia.
  - rewrite idx_app_r by (rewrite repeat_length; lia).
    rewrite repeat_length. reflexivity.
Qed.

Lemma get_padded (x : value) (k : nat) (arr : list value) (i : Z) :
  0 <= i ->
  get (repeat x k ++ arr) i =
  if i <? Z.of_nat k then x else get arr (i - Z.of_nat k).
Proof.
  intro H. unfold get. rewrite idx_padded by assumption.
  destruct (i <? Z.of_nat k); reflexivity.
Qed.

(** C1 (as amended): for a series of length [M <= N], the EMA padding (the
    same loop pads the SMA and Stochastic series) and the ADX padding make
    the value at bar [i] undefined for [i < N - M] and equal to
    [series[i - (N - M)]] from [N - M] on; the PSAR padding gives the same
    value from [N - M] on, but before [N - M] it gives the first PSAR
    value [series[0]]; and when [ADX.calculate] throws every ADX value is
    undefined. *)
Theorem aligned_value_at (n : nat) (i : Z) (series : list value)
  (adxArr : list adxEntry) :
  0 <= i ->
  (length series <= n)%nat ->
  (length adxArr <= n)%nat ->
  let w := Z.of_nat n - Z.of_nat (length series) in
  let wAdx := Z.of_nat n - Z.of_nat (length adxArr) in
  get (alignUndefined n series) i =
    (if i <? w then undefined else get series (i - w)) /\
  get (alignPsar n series) i =
    (if i <? w then get series 0 else get series (i - w)) /\
  adxAt (alignAdx n (Some adxArr)) i =
    (if i <? wAdx then undefined else adxAt adxArr (i - wAdx)) /\
  adxAt (alignAdx n None) i = undefined.
Proof.
  intros Hi Hs Ha w wAdx.
  assert (Hw : w = Z.of_nat (n - length series)) by (unfold w; lia).
  assert (HwAdx : wAdx = Z.of_nat (n - length adxArr)) by (unfold wAdx; lia).
  rewrite Hw, HwAdx. repeat split.
  - unfold alignUndefined. rewrite unshiftWhile_repeat.
    now apply get_padded.
  - rewrite alignPsar_repeat. now apply get_padded.
  - unfold adxAt, alignAdx. rewrite unshiftWhile_repeat.
    rewrite idx_padded by assumption.
    destruct (i <? Z.of_nat (n - length adxArr)); reflexivity.
  - unfold adxAt, alignAdx.
    destruct (Z.ltb_spec i (Z.of_nat n)).
    + rewrite idx_repeat by lia. reflexivity.
    + rewrite idx_beyond by (rewrite repeat_length; lia). reflexivity.
Qed.

Lemma aligned_value_at_witness :
  0 <= 0 /\
  (length [ofZ 5; ofZ 6] <= 3)%nat /\
  (length [mkAdx (ofZ 30) (ofZ 20) (ofZ 10)] <= 3)%nat /\
  get (alignUndefined 3 [ofZ 5; ofZ 6]) 0 = undefined /\
  get (alignPsar 3 [ofZ 5; ofZ 6]) 0 = ofZ 5 /\
  adxAt (alignAdx 3 (Some [mkAdx (ofZ 30) (ofZ 20) (ofZ 10)])) 0 = undefined /\
  adxAt (alignAdx 3 None) 0 = undefined.
Proof.
  assert (H0 : 0 <= 0) by lia.
  assert (H1 : (length [ofZ 5; ofZ 6] <= 3)%nat) by (simpl; lia).
  assert (H2 : (length [mkAdx (ofZ 30) (ofZ 20) (ofZ 10)] <= 3)%nat)
    by (simpl; lia).
  split; [exact H0|]. split; [exact H1|]. split; [exact H2|].
  exact (aligned_value_at 3 0 [ofZ 5; ofZ 6]
           [mkAdx (ofZ 30) (ofZ 20) (ofZ 10)] H0 H1 H2).
Defined.

(** C1 as stated fails for PSAR: with three bars and a two-element PSAR
    series, bar 0 lies before [N - M = 1], yet its aligned value is the
    first PSAR value, not undefined. *)
Lemma psar_padding_is_not_undefined :
  (length [ofZ 5; ofZ 6] <= 3)%nat /\
  0 < Z.of_nat 3 - Z.of_nat (length [ofZ 5; ofZ 6]) /\
  get (alignPsar 3 [ofZ 5; ofZ 6]) 0 = ofZ 5 /\
  get (alignPsar 3 [ofZ 5; ofZ 6]) 0 <> undefined.
Proof.
  repeat split; try (simpl; lia). discriminate.
Qed.

(** ** The flip detector *)

Lemma cross_exclusive (closePrev psarPrev closeCurr psarCurr : value) :
  crossUp closePrev psarPrev closeCurr psarCurr = true ->
  crossDown closePrev psarPrev closeCurr psarCurr = false.
Proof.
  unfold crossUp, crossDown, js_gt. intro H.
  apply andb_true_iff in H. destruct H as [_ H].
  rewrite (js_lt_asym _ _ H). apply andb_false_r.
Qed.

(** The combining step evaluates both conditions; were both true, it
    would give no direction.  By [cross_exclusive] this case never arises
    from the values of a bar. *)
Remark both_conditions_cancel : resolveCross true true = None.
Proof. reflexivity. Qed.

(** C2: at every bar at which the UP condition holds, whatever the DOWN
    condition is, the detector emits UP; so it does at a bar at which both
    conditions hold.  The detector emits one direction at most: the DOWN
    condition is then false, and UP is the only direction emitted. *)
Theorem up_flip_takes_precedence
  (closePrev psarPrev closeCurr psarCurr : value) :
  crossUp closePrev psarPrev closeCurr psarCurr = true ->
  psarCross closePrev psarPrev closeCurr psarCurr = Some UP /\
  crossDown closePrev psarPrev closeCurr psarCurr = false /\
  (forall d, psarCross closePrev psarPrev closeCurr psarCurr = Some d ->
             d = UP).
Proof.
  intro Hu. pose proof (cross_exclusive _ _ _ _ Hu) as Hd.
  unfold psarCross. rewrite Hu, Hd. simpl.
  repeat split. intros d H. now injection H as <-.
Qed.

Lemma up_flip_takes_precedence_witness :
  crossUp (ofZ 2) (ofZ 2) (ofZ 3) (ofZ 2) = true /\
  js_ge (ofZ 2) (ofZ 2) = true /\
  psarCross (ofZ 2) (ofZ 2) (ofZ 3) (ofZ 2) = Some UP.
Proof.
  assert (H : crossUp (ofZ 2) (ofZ 2) (ofZ 3) (ofZ 2) = true) by reflexivity.
  split; [exact H|]. split; [reflexivity|].
  exact (proj1 (up_flip_takes_precedence (ofZ 2) (ofZ 2) (ofZ 3) (ofZ 2) H)).
Defined.

(** ** Short inputs *)

(** C8: for an argument that is not an array, or an array of fewer than
    three candles, [psarSignal] and [psarAdxSignal] return the neutral
    signal, whatever the indicator library and the configuration are: no
    indicator or filter takes part in the result. *)
Theorem short_input_is_neutral (TI : TechnicalIndicators)
  (toFixed2 : value -> string) (arg : candlesArg) (config : psarAdxConfig) :
  (arg = NotArray \/
   exists candles, arg = Array candles /\ (length candles < 3)%nat) ->
  psarSignal arg = mkSignal None (ofZ 0) EmptyString true /\
  psarAdxSignal toFixed2 arg config = mkSignal None (ofZ 0) EmptyString true.
Proof.
  intros [-> | (candles & -> & Hlen)].
  - split; reflexivity.
  - unfold psarSignal, psarAdxSignal.
    destruct (Nat.ltb_spec (length candles) 3); [|lia].
    split; reflexivity.
Qed.

Lemma short_input_is_neutral_witness :
  (length [flat 1 100; flat 3 100] < 3)%nat /\
  psarSignal (TI := shortRiseIndicators) (Array [flat 1 100; flat 3 100]) =
    mkSignal None (ofZ 0) EmptyString true /\
  psarAdxSignal (TI := shortRiseIndicators) noFormat
    (Array [flat 1 100; flat 3 100]) emptyConfig =
    mkSignal None (ofZ 0) EmptyString true.
Proof.
  assert (H : (length [flat 1 100; flat 3 100] < 3)%nat) by (simpl; lia).
  split; [exact H|].
  apply (short_input_is_neutral shortRiseIndicators noFormat
           (Array [flat 1 100; flat 3 100]) emptyConfig).
  right. exists [flat 1 100; flat 3 100]. split; [reflexivity | exact H].
Defined.

(** ** Loop indices *)

Lemma forRange_nil (from bound : Z) : bound <= from -> forRange from bound = [].
Proof.
  intro H. unfold forRange. replace (Z.to_nat (bound - from)) with 0%nat by lia.
  reflexivity.
Qed.

Lemma forRange_cons (from bound : Z) :
  from < bound -> forRange from bound = from :: forRange (from + 1) bound.
Proof.
  intro H. unfold forRange.
  replace (Z.to_nat (bound - from)) with (S (Z.to_nat (bound - (from + 1))))
    by lia.
  simpl. f_equal; [lia|].
  rewrite <- seq_shift, map_map. apply map_ext. intro k. lia.
Qed.

Lemma In_forRange (from bound i : Z) :
  In i (forRange from bound) <-> from <= i < bound.
Proof.
  unfold forRange. rewrite in_map_iff. split.
  - intros (k & <- & Hk). apply in_seq in Hk. lia.
  - intro H. exists (Z.to_nat (i - from)). split; [lia|].
    apply in_seq. lia.
Qed.

(** Induction along the iterations of a [for] loop. *)
Lemma forRange_ind (bound : Z) (P : Z -> list Z -> Prop) :
  (forall from, bound <= from -> P from []) ->
  (forall from, from < bound -> P (from + 1) (forRange (from + 1) bound) ->
                P from (from :: forRange (from + 1) bound)) ->
  forall from, P from (forRange from bound).
Proof.
  intros Hnil Hcons from.
  remember (Z.to_nat (bound - from)) as k eqn:Hk.
  revert from Hk. induction k as [|k IH]; intros from Hk.
  - rewrite forRange_nil by lia. apply Hnil. lia.
  - rewrite forRange_cons by lia. apply Hcons; [lia|]. apply IH. lia.
Qed.

(** ** trendStrategy5m *)

Lemma trend_cross_exclusive
  (prevFast prevSlow currFast currSlow price currTrend : value) :
  Trend.bullish prevFast prevSlow currFast currSlow price currTrend &&
  Trend.bearish prevFast prevSlow currFast currSlow price currTrend = false.
Proof.
  unfold Trend.bullish, Trend.bearish, js_gt, js_ge.
  destruct (js_lt currSlow currFast) eqn:E;
    [rewrite (js_lt_asym _ _ E)|];
    repeat match goal with
           | |- context [js_le ?a ?b] => destruct (js_le a b)
           | |- context [js_lt ?a ?b] => destruct (js_lt a b)
           end; reflexivity.
Qed.

(** One iteration pushes nothing or a single signal, for its own bar. *)
Lemma trend_bar_pushes (closes fastEma slowEma trendEma : list value)
  (adxValues : list adxEntry) (adxThreshold : value) (n i : Z)
  (pushed : list Trend.entry) :
  Trend.bar closes fastEma slowEma trendEma adxValues adxThreshold n i =
    Return pushed ->
  pushed = [] \/ exists e, pushed = [e] /\ Trend.index e = i.
Proof.
  unfold Trend.bar.
  destruct (_ || _ || _ || _); [intro H; injection H as <-; now left|].
  destruct (idx adxValues _) as [e|]; [|discriminate].
  destruct (_ || _); [intro H; injection H as <-; now left|].
  match goal with
  | |- context [Trend.bullish ?a ?b ?c ?d ?p ?t] =>
    pose proof (trend_cross_exclusive a b c d p t) as Hx;
    destruct (Trend.bullish a b c d p t), (Trend.bearish a b c d p t)
  end; try discriminate Hx; intro H; injection H as <-; simpl.
  - right. eexists. split; reflexivity.
  - right. eexists. split; reflexivity.
  - now left.
Qed.

Lemma trend_loop_indices (closes fastEma slowEma trendEma : list value)
  (adxValues : list adxEntry) (adxThreshold : value) (n bound : Z) :
  forall from signals result,
    NoDup (map Trend.index signals) ->
    Forall (fun s => Trend.index s < from) signals ->
    Trend.loop closes fastEma slowEma trendEma adxValues adxThreshold n
      (forRange from bound) signals = Return result ->
    NoDup (map Trend.index result).
Proof.
  intro from.
  apply (forRange_ind bound (fun from indices =>
    forall signals result,
      NoDup (map Trend.index signals) ->
      Forall (fun s => Trend.index s < from) signals ->
      Trend.loop closes fastEma slowEma trendEma adxValues adxThreshold n
        indices signals = Return result ->
      NoDup (map Trend.index result))); clear from.
  - intros from _ signals result Hnd _ H. simpl in H. now injection H as <-.
  - intros from Hlt IH signals result Hnd Hall H. simpl in H.
    destruct (Trend.bar _ _ _ _ _ _ _ from) as [msg|pushed] eqn:Eb;
      [discriminate|].
    apply trend_bar_pushes in Eb.
    apply IH in H; [exact H | |].
    + destruct Eb as [-> | (e & -> & He)].
      * now rewrite app_nil_r.
      * rewrite map_app. simpl.
        apply NoDup_app; [exact Hnd | repeat constructor; intros [] |].
        intros x Hx [<- | []].
        apply in_map_iff in Hx. destruct Hx as (s & Hs & Hin).
        rewrite Forall_forall in Hall. specialize (Hall s Hin). lia.
    + apply Forall_app. split.
      * eapply Forall_impl; [|exact Hall]. simpl. intros; lia.
      * destruct Eb as [-> | (e & -> & He)]; repeat constructor. lia.
Qed.

(** C10: [trendStrategy5m] emits at most one signal per bar index (no two
    of the returned signals share an index), because the bullish and the
    bearish crossover conditions never hold at the same bar. *)
Theorem trend_one_signal_per_bar (TI : TechnicalIndicators)
  (candles : list candle) (opts : Trend.options)
  (signals : list Trend.entry) :
  Trend.trendStrategy5m candles opts = Return signals ->
  NoDup (map Trend.index signals) /\
  forall prevFast prevSlow currFast currSlow price currTrend,
    Trend.bullish prevFast prevSlow currFast currSlow price currTrend &&
    Trend.bearish prevFast prevSlow currFast currSlow price currTrend = false.
Proof.
  intro H. split; [|apply trend_cross_exclusive].
  unfold Trend.trendStrategy5m in H.
  destruct (ADX_calculate _ _ _ _) as [adxValues|]; [|discriminate].
  eapply trend_loop_indices; [| |exact H]; constructor.
Qed.

Lemma trend_one_signal_per_bar_witness :
  Trend.trendStrategy5m (TI := crossingIndicators) crossingCandles
    Trend.noOptions =
    Return [Trend.mkEntry 1 UP
              (Trend.confidenceOf (ofZ 30) (ofZ 25))] /\
  NoDup (map Trend.index
           [Trend.mkEntry 1 UP (Trend.confidenceOf (ofZ 30) (ofZ 25))]).
Proof.
  assert (H : Trend.trendStrategy5m (TI := crossingIndicators) crossingCandles
                Trend.noOptions =
              Return [Trend.mkEntry 1 UP
                        (Trend.confidenceOf (ofZ 30) (ofZ 25))])
    by reflexivity.
  split; [exact H|].
  exact (proj1 (trend_one_signal_per_bar crossingIndicators crossingCandles
                  Trend.noOptions _ H)).
Defined.

(** ** Volume *)

Lemma samePrices_projections (c1 c2 : list candle) :
  Forall2 samePrices c1 c2 ->
  length c1 = length c2 /\ map high c1 = map high c2 /\
  map low c1 = map low c2 /\ map close c1 = map close c2.
Proof.
  induction 1 as [|a b l1 l2 (_ & Hh & Hl & Hc) _ (IHn & IHh & IHl & IHc)];
    simpl; [repeat split|].
  rewrite IHn, IHh, IHl, IHc, Hh, Hl, Hc. repeat split.
Qed.

(** C7: two candle arrays that agree on every bar's open, high, low and
    close, whatever their volumes, give the same signal ([psarSignal],
    [psarAdxSignal], [trendStrategy5m]) and the same backtest result
    (total, correct, accuracy): the strategies are functions of the price
    series alone. *)
Theorem volume_never_matters (TI : TechnicalIndicators)
  (toFixed2 : value -> string) (c1 c2 : list candle)
  (config : psarAdxConfig) (opts : Trend.options) (expiryBars : Z)
  (adxThreshold minFlips psarStep psarMax rangeMultiplier : value) :
  Forall2 samePrices c1 c2 ->
  psarSignal (Array c1) = psarSignal (Array c2) /\
  psarAdxSignal toFixed2 (Array c1) config =
    psarAdxSignal toFixed2 (Array c2) config /\
  backtestStrategy c1 expiryBars adxThreshold minFlips psarStep psarMax
    rangeMultiplier =
  backtestStrategy c2 expiryBars adxThreshold minFlips psarStep psarMax
    rangeMultiplier /\
  Trend.trendStrategy5m c1 opts = Trend.trendStrategy5m c2 opts.
Proof.
  intro H. apply samePrices_projections in H.
  destruct H as (Hn & Hh & Hl & Hc).
  unfold psarSignal, psarAdxSignal, backtestStrategy, Trend.trendStrategy5m.
  rewrite Hn, Hh, Hl, Hc. repeat split.
Qed.

Lemma volume_never_matters_witness :
  Forall2 samePrices shortRise [flat 1 7; flat 3 1500; flat 4 0] /\
  psarSignal (TI := shortRiseIndicators) (Array shortRise) =
    psarSignal (TI := shortRiseIndicators)
      (Array [flat 1 7; flat 3 1500; flat 4 0]) /\
  psarAdxSignal (TI := shortRiseIndicators) noFormat (Array shortRise)
    emptyConfig =
    psarAdxSignal (TI := shortRiseIndicators) noFormat
      (Array [flat 1 7; flat 3 1500; flat 4 0]) emptyConfig.
Proof.
  assert (H : Forall2 samePrices shortRise [flat 1 7; flat 3 1500; flat 4 0])
    by (repeat constructor).
  split; [exact H|].
  pose proof (volume_never_matters shortRiseIndicators noFormat shortRise
                [flat 1 7; flat 3 1500; flat 4 0] emptyConfig Trend.noOptions
                1 undefined undefined undefined undefined undefined H)
    as (H1 & H2 & _).
  split; [exact H1 | exact H2].
Defined.

(** ** Outcome of a trade, accuracy *)









(** ** Rounding to a double *)









(** On every pair of counters with a total of at most 60, [accuracyDouble]
    is the number that the binary64 division and multiplication of the
    Standard Library's floating-point specification give. *)
Lemma accuracyDouble_is_binary64 :
  forallb Binary64.agrees (Binary64.counters 60) = true.
Proof. vm_compute. reflexivity. Qed.



(** ** Filters on values that are not available *)

Lemma emaRejects_undefined (d : direction) (crossClose : value) :
  emaRejects d crossClose undefined = false.
Proof. reflexivity. Qed.

Lemma adxRejects_undefined (adxThreshold : value) :
  adxRejects undefined adxThreshold = false.
Proof. reflexivity. Qed.

Lemma emaRejects_allows (d : direction) (crossClose ema200 : value) :
  emaRejects d crossClose ema200 =
  negb (isUndefined ema200 ||
        negb (match d with
              | UP => js_lt crossClose ema200
              | DOWN => js_gt crossClose ema200
              end)).
Proof.
  unfold emaRejects. destruct (isUndefined ema200); simpl; [reflexivity|].
  now rewrite negb_involutive.
Qed.

Lemma adxRejects_allows (adxVal adxThreshold : value) :
  adxRejects adxVal adxThreshold =
  negb (isUndefined adxVal || negb (js_lt adxVal adxThreshold)).
Proof.
  unfold adxRejects. destruct (isUndefined adxVal); simpl; [reflexivity|].
  now rewrite negb_involutive.
Qed.

(** C3 as stated fails: on three bars the EMA and the ADX have no value at
    the bar of the cross, and [psarSignal] and [psarAdxSignal] still fire. *)
Lemma signal_fires_without_ema_and_adx :
  get (alignUndefined 3 (EMA_calculate (TechnicalIndicators := shortRiseIndicators)
                           (ofZ 200) (map close shortRise))) 1 = undefined /\
  adxAt (alignAdx 3 (ADX_calculate (TechnicalIndicators := shortRiseIndicators)
                       (map high shortRise) (map low shortRise)
                       (map close shortRise) (ofZ 14))) 1 = undefined /\
  psarSignal (TI := shortRiseIndicators) (Array shortRise) =
    mkSignal (Some UP) (ofZ 80)
      "PSAR cross UP with continuation and EMA200 filter" false /\
  psarAdxSignal (TI := shortRiseIndicators) noFormat (Array shortRise)
    emptyConfig =
    mkSignal (Some UP) (ofZ 70)
      "PSAR cross UP with continuation, ADX n/a, EMA200 filter" false.
Proof. repeat split. Qed.

(** C3 (as amended): a filter whose indicator value is undefined is
    skipped, which lets the bar pass.  [psarAdxSignal] fires exactly when
    the flip, continuation, range and persistence checks pass, the aligned
    EMA value at the bar of the cross is undefined or does not contradict
    the direction, and the aligned ADX value there is undefined or not
    below the threshold; [psarSignal] likewise, with the flip, the
    continuation and the EMA.  In the batch loop a missing EMA or ADX value
    ([null]), or an ADX entry whose value is undefined, skips no bar. *)
Theorem undefined_indicator_passes_filter (TI : TechnicalIndicators)
  (toFixed2 : value -> string) (candles : list candle)
  (config : psarAdxConfig) :
  let n := length candles in
  let highs := map high candles in
  let lows := map low candles in
  let closes := map close candles in
  let psarOf := fun step max =>
    alignPsar n (PSAR_calculate highs lows step max) in
  let psarArr :=
    psarOf (nullish (psarStep config) q_0_02) (nullish (psarMax config) q_0_2) in
  let ema200Arr := alignUndefined n (EMA_calculate (ofZ 200) closes) in
  let adxArr := alignAdx n (ADX_calculate highs lows closes (ofZ 14)) in
  let i := Z.of_nat n in
  let ema200 := get ema200Arr (i - 2) in
  let adxVal := adxAt adxArr (i - 2) in
  let emaAllows := fun d =>
    isUndefined ema200 ||
    negb (match d with
          | UP => js_lt (get closes (i - 2)) ema200
          | DOWN => js_gt (get closes (i - 2)) ema200
          end) in
  (3 <= n)%nat ->
  signal (psarAdxSignal toFixed2 (Array candles) config) =
    match psarCross (get closes (i - 3)) (get psarArr (i - 3))
                    (get closes (i - 2)) (get psarArr (i - 2)) with
    | Some d =>
      if continuation d (get closes (i - 1)) (get closes (i - 2)) &&
         negb (rangeRejects highs lows (i - 2)
                 (nullish (rangeMultiplier config) (ofZ 0))) &&
         negb (persistenceRejects closes psarArr (i - 2)
                 (nullish (minFlips config) (ofZ 1))) &&
         emaAllows d &&
         (isUndefined adxVal ||
          negb (js_lt adxVal (nullish (adxThreshold config) (ofZ 20))))
      then Some d else None
    | None => None
    end /\
  signal (psarSignal (Array candles)) =
    match psarCross (get closes (i - 3)) (get (psarOf q_0_02 q_0_2) (i - 3))
                    (get closes (i - 2)) (get (psarOf q_0_02 q_0_2) (i - 2)) with
    | Some d =>
      if continuation d (get closes (i - 1)) (get closes (i - 2)) &&
         emaAllows d
      then Some d else None
    | None => None
    end /\
  (forall d closeCurr, trendSkips d closeCurr (orNull undefined) = false) /\
  (forall adxThreshold, adxSkips None adxThreshold = false) /\
  (forall adxThreshold, adxSkips (Some undefined) adxThreshold = false).
Proof.
  intros n highs lows closes psarOf psarArr ema200Arr adxArr i ema200 adxVal
    emaAllows Hn.
  subst emaAllows adxVal ema200 adxArr ema200Arr psarArr psarOf closes lows
    highs i. unfold n in *. clear n.
  assert (Hidx : (Z.of_nat (length candles) - 3 <? 0) ||
                 (Z.of_nat (length candles) - 2 <? 0) ||
                 (Z.of_nat (length candles) - 1 <? 0) = false).
  { repeat (apply orb_false_intro); apply Z.ltb_ge; lia. }
  split; [|split; [|repeat split]].
  - unfold psarAdxSignal.
    destruct (Nat.ltb_spec (length candles) 3); [lia|].
    cbv beta zeta. rewrite Hidx.
    destruct (psarCross _ _ _ _) as [d|]; [|reflexivity].
    rewrite emaRejects_allows, adxRejects_allows.
    destruct (continuation _ _ _); [|reflexivity].
    destruct (rangeRejects _ _ _ _); [reflexivity|].
    destruct (persistenceRejects _ _ _ _); [reflexivity|].
    destruct (isUndefined _ || negb (match d with UP => _ | DOWN => _ end));
      [|reflexivity].
    destruct (isUndefined _ || _); reflexivity.
  - unfold psarSignal.
    destruct (Nat.ltb_spec (length candles) 3); [lia|].
    cbv beta zeta. rewrite Hidx.
    destruct (psarCross _ _ _ _) as [d|]; [|reflexivity].
    rewrite emaRejects_allows.
    destruct (continuation _ _ _); [|reflexivity].
    destruct (isUndefined _ || _); reflexivity.
Qed.

Lemma undefined_indicator_passes_filter_witness :
  (3 <= length shortRise)%nat /\
  get (alignUndefined 3 (EMA_calculate (TechnicalIndicators := shortRiseIndicators)
                           (ofZ 200) (map close shortRise))) 1 = undefined /\
  adxAt (alignAdx 3 (ADX_calculate (TechnicalIndicators := shortRiseIndicators)
                       (map high shortRise) (map low shortRise)
                       (map close shortRise) (ofZ 14))) 1 = undefined /\
  signal (psarAdxSignal (TI := shortRiseIndicators) noFormat (Array shortRise)
            emptyConfig) = Some UP /\
  signal (psarSignal (TI := shortRiseIndicators) (Array shortRise)) = Some UP.
Proof.
  assert (H1 : (3 <= length shortRise)%nat) by (simpl; lia).
  split; [exact H1|]. split; [reflexivity|]. split; [reflexivity|].
  pose proof (undefined_indicator_passes_filter shortRiseIndicators noFormat
                shortRise emptyConfig H1) as (Ha & Hb & _).
  split; [exact Ha | exact Hb].
Defined.

(** ** The persistence filter of [psarAdxSignal] *)

Lemma psarCross_UP (closePrev psarPrev closeCurr psarCurr : value) :
  psarCross closePrev psarPrev closeCurr psarCurr = Some UP ->
  js_le closePrev psarPrev = true /\ js_gt closeCurr psarCurr = true.
Proof.
  unfold psarCross, resolveCross. intro H. apply andb_true_iff.
  fold (crossUp closePrev psarPrev closeCurr psarCurr).
  destruct (crossUp _ _ _ _), (crossDown _ _ _ _); simpl in H;
    congruence.
Qed.

Lemma psarCross_DOWN (closePrev psarPrev closeCurr psarCurr : value) :
  psarCross closePrev psarPrev closeCurr psarCurr = Some DOWN ->
  js_ge closePrev psarPrev = true /\ js_lt closeCurr psarCurr = true.
Proof.
  unfold psarCross, resolveCross. intro H. apply andb_true_iff.
  fold (crossDown closePrev psarPrev closeCurr psarCurr).
  destruct (crossUp _ _ _ _), (crossDown _ _ _ _); simpl in H;
    congruence.
Qed.

Lemma js_le_not_gt (a b : value) : js_le a b = true -> js_gt a b = false.
Proof.
  intro H. apply js_le_Num in H. destruct H as (x & y & -> & -> & H).
  unfold js_gt. simpl. destruct (Qltb y x) eqn:E; [|reflexivity].
  apply Qltb_lt in E. exfalso. exact (Qlt_not_le _ _ E H).
Qed.

(** At a flip the bar before the cross is on the other side of the PSAR,
    unless a DOWN flip starts from a close equal to the PSAR. *)
Lemma flip_changes_side (d : direction)
  (closePrev psarPrev closeCurr psarCurr : value) :
  psarCross closePrev psarPrev closeCurr psarCurr = Some d ->
  d = UP \/ js_gt closePrev psarPrev = true ->
  side_eqb (sideOf closePrev psarPrev) (sideOf closeCurr psarCurr) = false.
Proof.
  intros H Hd. unfold sideOf. destruct d.
  - apply psarCross_UP in H. destruct H as [H1 H2].
    rewrite (js_le_not_gt _ _ H1), H2. reflexivity.
  - destruct Hd as [Hd | Hd]; [discriminate|].
    apply psarCross_DOWN in H. destruct H as [_ H2].
    unfold js_gt at 2. rewrite Hd, (js_lt_asym _ _ H2). reflexivity.
Qed.

(** The backward walk stops at its first bar when that bar is on the other
    side: the count is 1. *)
Lemma walkBack_stops_at_once (closes psarArr : list value) (currentSide : side)
  (j : Z) :
  0 <= j ->
  side_eqb (sideOf (get closes j) (get psarArr j)) currentSide = false ->
  walkBack closes psarArr currentSide (Z.to_nat (j + 1)) 0 = 1.
Proof.
  intros Hj Hs. replace (Z.to_nat (j + 1)) with (S (Z.to_nat j)) by lia.
  simpl. rewrite Z2Nat.id by assumption. rewrite Hs. reflexivity.
Qed.

(** C4, the defect: with [minFlips > 1] the persistence filter of
    [psarAdxSignal] rejects every UP flip, and every DOWN flip whose
    previous close is strictly above the PSAR, however long the close
    stayed on the pre-flip side: the walk compares each bar with the side
    at the bar of the cross, which the bar before the cross is not on, so
    the count is always 1. *)
Theorem persistence_rejects_flips (TI : TechnicalIndicators)
  (toFixed2 : value -> string) (candles : list candle)
  (config : psarAdxConfig) (d : direction) :
  let n := length candles in
  let closes := map close candles in
  let psarArr :=
    alignPsar n (PSAR_calculate (map high candles) (map low candles)
                   (nullish (psarStep config) q_0_02)
                   (nullish (psarMax config) q_0_2)) in
  let i := Z.of_nat n in
  (3 <= n)%nat ->
  js_gt (nullish (minFlips config) (ofZ 1)) (ofZ 1) = true ->
  psarCross (get closes (i - 3)) (get psarArr (i - 3))
            (get closes (i - 2)) (get psarArr (i - 2)) = Some d ->
  d = UP \/ js_gt (get closes (i - 3)) (get psarArr (i - 3)) = true ->
  psarAdxSignal toFixed2 (Array candles) config =
    mkSignal None (ofZ 0) EmptyString true.
Proof.
  intros n closes psarArr i Hn Hmin Hcross Hd.
  subst psarArr closes i n.
  unfold psarAdxSignal.
  destruct (Nat.ltb_spec (length candles) 3); [lia|].
  cbv zeta.
  destruct (_ || _ || _); [reflexivity|].
  rewrite Hcross.
  destruct (negb (continuation _ _ _)); [reflexivity|].
  destruct (rangeRejects _ _ _ _); [reflexivity|].
  assert (Hp : persistenceRejects (map close candles)
                 (alignPsar (length candles)
                    (PSAR_calculate (map high candles) (map low candles)
                       (nullish (psarStep config) q_0_02)
                       (nullish (psarMax config) q_0_2)))
                 (Z.of_nat (length candles) - 2)
                 (nullish (minFlips config) (ofZ 1)) = true).
  { unfold persistenceRejects. rewrite Hmin.
    replace (Z.of_nat (length candles) - 2)
      with (Z.of_nat (length candles) - 3 + 1) by lia.
    rewrite walkBack_stops_at_once; [exact Hmin | lia |].
    replace (Z.of_nat (length candles) - 3 + 1)
      with (Z.of_nat (length candles) - 2) by lia.
    eapply flip_changes_side; eassumption. }
  rewrite Hp. reflexivity.
Qed.

Lemma persistence_rejects_flips_witness :
  (3 <= length lateRise)%nat /\
  js_gt (nullish (minFlips minFlips2) (ofZ 1)) (ofZ 1) = true /\
  psarCross (ofZ 1) (ofZ 2) (ofZ 3) (ofZ 2) = Some UP /\
  persistedBefore (map close lateRise)
    [ofZ 2; ofZ 2; ofZ 2; ofZ 2; ofZ 2] 3 2 = true /\
  signal (psarAdxSignal (TI := lateRiseIndicators) noFormat (Array lateRise)
            emptyConfig) = Some UP /\
  psarAdxSignal (TI := lateRiseIndicators) noFormat (Array lateRise) minFlips2 =
    mkSignal None (ofZ 0) EmptyString true.
Proof.
  assert (H1 : (3 <= length lateRise)%nat) by (simpl; lia).
  assert (H2 : js_gt (nullish (minFlips minFlips2) (ofZ 1)) (ofZ 1) = true)
    by reflexivity.
  assert (H3 : psarCross (ofZ 1) (ofZ 2) (ofZ 3) (ofZ 2) = Some UP)
    by reflexivity.
  split; [exact H1|]. split; [exact H2|]. split; [exact H3|].
  split; [reflexivity|]. split; [reflexivity|].
  exact (persistence_rejects_flips lateRiseIndicators noFormat lateRise
           minFlips2 UP H1 H2 H3 (or_introl eq_refl)).
Defined.

(** ** Array reads of the batch loop *)

Lemma candle_read (candles : list candle) (k : Z) :
  0 <= k < Z.of_nat (length candles) ->
  exists c, idx candles k = Some c /\
            get (map high candles) k = high c /\
            get (map low candles) k = low c /\
            get (map close candles) k = close c.
Proof.
  intro H. destruct (idx candles k) as [c|] eqn:E.
  - exists c. unfold get. rewrite !idx_map, E. repeat split.
  - rewrite idx_nonneg in E by lia. apply nth_error_None in E. lia.
Qed.

(** *** The traced loops compute what the loops compute *)

Lemma psarMissing_value (psarArr : list value) (i : Z) :
  fst (Traced.psarMissing psarArr i) =
  isUndefined (get psarArr (i - 1)) || isUndefined (get psarArr i).
Proof.
  unfold Traced.psarMissing. cbn [Traced.bind Traced.read fst snd].
  destruct (isUndefined (get psarArr (i - 1))); reflexivity.
Qed.

Lemma traced_sumRangeLoop_value (highs lows : list value) :
  forall k j sumRange,
    fst (Traced.sumRangeLoop highs lows j k sumRange) =
    sumRangeLoop highs lows j k sumRange.
Proof.
  induction k as [|k IH]; intros j sumRange; [reflexivity|].
  cbn [Traced.sumRangeLoop sumRangeLoop Traced.bind Traced.read fst snd].
  apply IH.
Qed.

Lemma traced_rangeRejects_value (highs lows : list value)
  (rangeMultiplier : value) (i : Z) :
  fst (Traced.rangeRejects highs lows rangeMultiplier i) =
  rangeRejects highs lows i rangeMultiplier.
Proof.
  unfold Traced.rangeRejects, rangeRejects.
  destruct (js_gt rangeMultiplier (ofZ 0)); [|reflexivity].
  cbv zeta. destruct (14 <=? i); [|reflexivity].
  cbn [Traced.bind Traced.read Traced.ret fst snd].
  now rewrite traced_sumRangeLoop_value.
Qed.

Lemma ema200OrNull_value (ema200Arr : list value) (i : Z) :
  fst (Traced.ema200OrNull ema200Arr i) = orNull (get ema200Arr i).
Proof.
  unfold Traced.ema200OrNull, orNull.
  cbn [Traced.bind Traced.read fst snd].
  destruct (isUndefined (get ema200Arr i)); reflexivity.
Qed.

Lemma traced_adxOrNull_value (adxArr : list adxEntry) (i : Z) :
  fst (Traced.adxOrNull adxArr i) = adxOrNull adxArr i.
Proof.
  unfold Traced.adxOrNull, adxOrNull.
  cbn [Traced.bind Traced.readAt fst snd].
  destruct (idx adxArr i) eqn:E; [|reflexivity].
  cbn [Traced.bind Traced.readAt Traced.ret fst snd].
  now rewrite E.
Qed.

Section TracedValues.

Variables (highs lows closes psarArr ema50Arr ema100Arr ema200Arr : list value).
Variable adxArr : list adxEntry.
Variable expiryBars : Z.
Variables (adxThreshold minFlips rangeMultiplier : value).

Lemma traced_barDecision_value (bars i : Z) :
  fst (Traced.barDecision highs lows closes psarArr ema200Arr adxArr
         adxThreshold minFlips rangeMultiplier bars i) =
  barDecision highs lows closes psarArr ema200Arr adxArr adxThreshold
    minFlips rangeMultiplier bars i.
Proof.
  unfold Traced.barDecision, barDecision.
  cbn [Traced.bind fst snd]. rewrite psarMissing_value.
  destruct (isUndefined (get psarArr (i - 1)) || isUndefined (get psarArr i));
    [reflexivity|].
  cbn [Traced.bind Traced.read fst snd].
  rewrite ema200OrNull_value, traced_adxOrNull_value.
  destruct (psarCross _ _ _ _) as [d|]; [|reflexivity].
  destruct (negb (continuation d _ _)); [reflexivity|].
  destruct (js_lt (ofZ bars) minFlips); [reflexivity|].
  cbv zeta. cbn [Traced.bind fst snd].
  rewrite traced_rangeRejects_value.
  destruct (rangeRejects highs lows i rangeMultiplier); [reflexivity|].
  destruct (trendSkips _ _ _); [reflexivity|].
  destruct (adxSkips _ _); reflexivity.
Qed.

Lemma traced_backtestStep_value (st : loopState) (i : Z) :
  fst (Traced.backtestStep highs lows closes psarArr ema200Arr adxArr
         expiryBars adxThreshold minFlips rangeMultiplier st i) =
  backtestStep highs lows closes psarArr ema200Arr adxArr expiryBars
    adxThreshold minFlips rangeMultiplier st i.
Proof.
  unfold Traced.backtestStep, backtestStep.
  cbn [Traced.bind fst snd]. rewrite traced_barDecision_value.
  destruct (barDecision _ _ _ _ _ _ _ _ _ _ _) as [[d|] bars]; reflexivity.
Qed.

Lemma traced_visit_value (indices : list Z) :
  forall st,
    fst (Traced.visit highs lows closes psarArr ema200Arr adxArr expiryBars
           adxThreshold minFlips rangeMultiplier indices st) =
    fold_left (backtestStep highs lows closes psarArr ema200Arr adxArr
                 expiryBars adxThreshold minFlips rangeMultiplier)
      indices st.
Proof.
  induction indices as [|i rest IH]; intro st; [reflexivity|].
  cbn [Traced.visit Traced.bind fst snd fold_left].
  now rewrite IH, traced_backtestStep_value.
Qed.

Lemma stackBar_value (i : Z) :
  fst (Traced.stackBar closes psarArr ema50Arr ema100Arr ema200Arr i) =
  EmaStack.bar closes psarArr ema50Arr ema100Arr ema200Arr i.
Proof.
  unfold Traced.stackBar, EmaStack.bar.
  cbn [Traced.bind fst snd]. rewrite psarMissing_value.
  destruct (isUndefined (get psarArr (i - 1)) || isUndefined (get psarArr i));
    [reflexivity|].
  cbn [Traced.bind Traced.read fst snd].
  destruct (psarCross _ _ _ _) as [d|]; [|reflexivity].
  destruct (negb (continuation d _ _)); [reflexivity|].
  cbn [Traced.bind Traced.read fst snd].
  destruct (isUndefined (get ema50Arr i) || isUndefined (get ema100Arr i) ||
            isUndefined (get ema200Arr i)); [reflexivity|].
  match goal with
  | |- context [if ?b then _ else _] => destruct b; reflexivity
  end.
Qed.

Lemma stackStep_value (st : Z * Z) (i : Z) :
  fst (Traced.stackStep closes psarArr ema50Arr ema100Arr ema200Arr
         expiryBars st i) =
  EmaStack.step closes psarArr ema50Arr ema100Arr ema200Arr expiryBars st i.
Proof.
  unfold Traced.stackStep, EmaStack.step.
  cbn [Traced.bind fst snd]. rewrite stackBar_value.
  destruct (EmaStack.bar _ _ _ _ _ _) as [d|]; [|reflexivity].
  destruct st as [total correct]. reflexivity.
Qed.

Lemma stackVisit_value (indices : list Z) :
  forall st,
    fst (Traced.stackVisit closes psarArr ema50Arr ema100Arr ema200Arr
           expiryBars indices st) =
    fold_left (EmaStack.step closes psarArr ema50Arr ema100Arr ema200Arr
                 expiryBars)
      indices st.
Proof.
  induction indices as [|i rest IH]; intro st; [reflexivity|].
  cbn [Traced.stackVisit Traced.bind fst snd fold_left].
  now rewrite IH, stackStep_value.
Qed.

End TracedValues.

(** *** The reads of the candle arrays *)

Lemma candleReads_bind {A B : Type} (m : Traced.traced A)
  (f : A -> Traced.traced B) :
  candleReadsInBounds (snd m) ->
  candleReadsInBounds (snd (f (fst m))) ->
  candleReadsInBounds (snd (Traced.bind m f)).
Proof. intros H1 H2. apply Forall_app. split; assumption. Qed.

Lemma candleReads_ret {A : Type} (a : A) :
  candleReadsInBounds (snd (Traced.ret a)).
Proof. apply Forall_nil. Qed.

Lemma candleReads_read (name : arrayName) (arr : list value) (i : Z) :
  ofCandles name = false \/ 0 <= i < Z.of_nat (length arr) ->
  candleReadsInBounds (snd (Traced.read name arr i)).
Proof.
  intro H. apply Forall_cons; [|apply Forall_nil].
  cbn [readArray]. intro Hc. destruct H as [H | H]; [congruence|].
  unfold inBounds. cbn [readIndex readLength].
  apply andb_true_iff. split; [apply Z.leb_le | apply Z.ltb_lt]; lia.
Qed.

Lemma candleReads_readAt {A : Type} (name : arrayName) (arr : list A) (i : Z) :
  ofCandles name = false ->
  candleReadsInBounds (snd (Traced.readAt name arr i)).
Proof.
  intro H. apply Forall_cons; [|apply Forall_nil].
  cbn [readArray]. congruence.
Qed.

(** Decomposes a traced computation along its binds, tests and reads;
    what is left are the index bounds of the reads of candle arrays. *)
Ltac candle_reads :=
  repeat first
    [ apply candleReads_ret
    | apply candleReads_bind; cbv beta zeta
    | apply candleReads_readAt; reflexivity
    | apply candleReads_read; first [left; reflexivity | right]
    | match goal with
      | |- candleReadsInBounds (snd (if ?b then _ else _)) => destruct b
      | |- candleReadsInBounds (snd (match ?o with Some _ => _ | None => _ end))
        => destruct o
      end ].

Lemma psarMissing_reads (psarArr : list value) (i : Z) :
  candleReadsInBounds (snd (Traced.psarMissing psarArr i)).
Proof. unfold Traced.psarMissing. candle_reads. Qed.

Section TracedReads.

Variables (highs lows closes psarArr ema200Arr : list value).
Variable adxArr : list adxEntry.
Variable expiryBars : Z.
Variables (adxThreshold minFlips rangeMultiplier : value).
Variable n : Z.
Hypothesis highs_length : Z.of_nat (length highs) = n.
Hypothesis lows_length : Z.of_nat (length lows) = n.
Hypothesis closes_length : Z.of_nat (length closes) = n.

Lemma traced_sumRangeLoop_reads :
  forall k j sumRange,
    0 <= j -> j + Z.of_nat k <= n ->
    candleReadsInBounds (snd (Traced.sumRangeLoop highs lows j k sumRange)).
Proof.
  induction k as [|k IH]; intros j sumRange Hj Hk;
    cbn [Traced.sumRangeLoop].
  - apply candleReads_ret.
  - candle_reads; try lia.
    apply IH; lia.
Qed.

Lemma traced_rangeRejects_reads (i : Z) :
  i < n ->
  candleReadsInBounds
    (snd (Traced.rangeRejects highs lows rangeMultiplier i)).
Proof.
  intro Hi. unfold Traced.rangeRejects.
  destruct (js_gt rangeMultiplier (ofZ 0)); [|apply candleReads_ret].
  cbv zeta. destruct (Z.leb_spec 14 i); [|apply candleReads_ret].
  apply candleReads_bind; [apply traced_sumRangeLoop_reads; lia|].
  candle_reads; lia.
Qed.

Lemma traced_barDecision_reads (bars i : Z) :
  1 <= i -> i + 1 < n ->
  candleReadsInBounds
    (snd (Traced.barDecision highs lows closes psarArr ema200Arr adxArr
            adxThreshold minFlips rangeMultiplier bars i)).
Proof.
  intros H1 Hn. unfold Traced.barDecision.
  apply candleReads_bind; [apply psarMissing_reads|].
  destruct (fst (Traced.psarMissing psarArr i)); [apply candleReads_ret|].
  do 5 (apply candleReads_bind;
        [apply candleReads_read; first [left; reflexivity | right; lia]|]).
  apply candleReads_bind;
    [unfold Traced.ema200OrNull; candle_reads|].
  apply candleReads_bind;
    [unfold Traced.adxOrNull; candle_reads|].
  destruct (psarCross _ _ _ _) as [d|]; [|apply candleReads_ret].
  destruct (negb (continuation d _ _)); [apply candleReads_ret|].
  destruct (js_lt (ofZ bars) minFlips); [apply candleReads_ret|].
  cbv zeta.
  apply candleReads_bind; [apply traced_rangeRejects_reads; lia|].
  candle_reads.
Qed.

Lemma traced_backtestStep_reads (st : loopState) (i : Z) :
  1 <= i -> 0 <= i + 1 + expiryBars < n -> i + 1 < n ->
  candleReadsInBounds
    (snd (Traced.backtestStep highs lows closes psarArr ema200Arr adxArr
            expiryBars adxThreshold minFlips rangeMultiplier st i)).
Proof.
  intros H1 He Hn. unfold Traced.backtestStep.
  apply candleReads_bind; [now apply traced_barDecision_reads|].
  destruct (fst (Traced.barDecision _ _ _ _ _ _ _ _ _ _ _)) as [[d|] bars];
    candle_reads; lia.
Qed.

Lemma traced_visit_reads (indices : list Z) :
  Forall (fun i => 1 <= i /\ 0 <= i + 1 + expiryBars < n /\ i + 1 < n)
    indices ->
  forall st,
    candleReadsInBounds
      (snd (Traced.visit highs lows closes psarArr ema200Arr adxArr
              expiryBars adxThreshold minFlips rangeMultiplier indices st)).
Proof.
  induction 1 as [|i rest (H1 & He & Hn) _ IH]; intro st;
    cbn [Traced.visit].
  - apply candleReads_ret.
  - apply candleReads_bind; [now apply traced_backtestStep_reads|].
    apply IH.
Qed.

End TracedReads.

Section StackReads.

Variables (closes psarArr ema50Arr ema100Arr ema200Arr : list value).
Variable expiryBars : Z.
Variable n : Z.
Hypothesis closes_length : Z.of_nat (length closes) = n.

Lemma stackBar_reads (i : Z) :
  1 <= i -> i + 1 < n ->
  candleReadsInBounds
    (snd (Traced.stackBar closes psarArr ema50Arr ema100Arr ema200Arr i)).
Proof.
  intros H1 Hn. unfold Traced.stackBar.
  apply candleReads_bind; [apply psarMissing_reads|].
  destruct (fst (Traced.psarMissing psarArr i)); [apply candleReads_ret|].
  do 5 (apply candleReads_bind;
        [apply candleReads_read; first [left; reflexivity | right; lia]|]).
  destruct (psarCross _ _ _ _) as [d|]; [|apply candleReads_ret].
  destruct (negb (continuation d _ _)); [apply candleReads_ret|].
  candle_reads.
Qed.

Lemma stackStep_reads (st : Z * Z) (i : Z) :
  1 <= i -> 0 <= i + 1 + expiryBars < n -> i + 1 < n ->
  candleReadsInBounds
    (snd (Traced.stackStep closes psarArr ema50Arr ema100Arr ema200Arr
            expiryBars st i)).
Proof.
  intros H1 He Hn. unfold Traced.stackStep.
  apply candleReads_bind; [now apply stackBar_reads|].
  destruct (fst (Traced.stackBar _ _ _ _ _ _)) as [d|];
    [|apply candleReads_ret].
  destruct st as [total correct]. candle_reads; lia.
Qed.

Lemma stackVisit_reads (indices : list Z) :
  Forall (fun i => 1 <= i /\ 0 <= i + 1 + expiryBars < n /\ i + 1 < n)
    indices ->
  forall st,
    candleReadsInBounds
      (snd (Traced.stackVisit closes psarArr ema50Arr ema100Arr ema200Arr
              expiryBars indices st)).
Proof.
  induction 1 as [|i rest (H1 & He & Hn) _ IH]; intro st;
    cbn [Traced.stackVisit].
  - apply candleReads_ret.
  - apply candleReads_bind; [now apply stackStep_reads|].
    apply IH.
Qed.

End StackReads.

Lemma access_eqb_eq (a b : access) : access_eqb a b = true -> a = b.
Proof.
  destruct a as [na ia la], b as [nb ib lb]. unfold access_eqb. simpl.
  rewrite !andb_true_iff. intros [[Hn Hi] Hl].
  apply Z.eqb_eq in Hi. apply Nat.eqb_eq in Hl.
  destruct na, nb; try discriminate; now subst.
Qed.

Lemma In_access (a : access) (log : list access) :
  existsb (access_eqb a) log = true -> In a log.
Proof.
  intro H. apply existsb_exists in H as (b & Hin & Heq).
  apply access_eqb_eq in Heq. now subst.
Qed.

(** C9 as stated fails: the loop also reads the indicator arrays at [i],
    and these are shorter than the candle array.  On 250 candles, with the
    51 values of EMA(200), the loop visits bar 100 and reads
    [ema200Arr[100]], which is out of range. *)
Lemma ema_read_out_of_bounds :
  let highs := map high longFlat in
  let lows := map low longFlat in
  let closes := map close longFlat in
  let psarArr :=
    PSAR_calculate (TechnicalIndicators := longFlatIndicators)
      highs lows q_0_02 q_0_2 in
  let ema200Arr :=
    EMA_calculate (TechnicalIndicators := longFlatIndicators)
      (ofZ 200) closes in
  exists a,
    In a (snd (Traced.backtestLoop highs lows closes psarArr ema200Arr
                 (repeat (mkAdx (ofZ 30) (ofZ 20) (ofZ 10)) 223) 1
                 (ofZ 20) (ofZ 1) (ofZ 0)
                 (Z.of_nat (length longFlat)))) /\
    a = mkAccess Ema200Arr 100 (length ema200Arr) /\
    inBounds a = false.
Proof.
  cbv zeta. eexists. split; [|split; [reflexivity|]].
  - apply In_access. vm_compute. reflexivity.
  - vm_compute. reflexivity.
Qed.

(** C9 (as amended): for [expiryBars >= 1], every read of the candle
    arrays ([closes], [highs], [lows]) that the batch loops perform is in
    bounds, whatever the indicator arrays are: the loops of
    [backtest_psar_adx.js] and of the EMA-stack backtest, run with every
    array read recorded, compute what the loops compute, and every
    recorded read of a candle array hits one of its elements.  Reads of
    the indicator arrays may be out of range: they give [undefined], which
    the loop tests for (a missing PSAR value skips the bar). *)
Theorem candle_reads_in_bounds (candles : list candle)
  (psarArr ema50Arr ema100Arr ema200Arr : list value)
  (adxArr : list adxEntry) (expiryBars : Z)
  (adxThreshold minFlips rangeMultiplier : value) :
  1 <= expiryBars ->
  let n := Z.of_nat (length candles) in
  let highs := map high candles in
  let lows := map low candles in
  let closes := map close candles in
  let run :=
    Traced.backtestLoop highs lows closes psarArr ema200Arr adxArr
      expiryBars adxThreshold minFlips rangeMultiplier n in
  let runStack :=
    Traced.stackLoop closes psarArr ema50Arr ema100Arr ema200Arr
      expiryBars n in
  fst run =
    backtestLoop highs lows closes psarArr ema200Arr adxArr expiryBars
      adxThreshold minFlips rangeMultiplier n /\
  candleReadsInBounds (snd run) /\
  fst runStack =
    EmaStack.loop closes psarArr ema50Arr ema100Arr ema200Arr expiryBars n /\
  candleReadsInBounds (snd runStack) /\
  (forall bars i,
     idx psarArr (i - 1) = None \/ idx psarArr i = None ->
     barDecision highs lows closes psarArr ema200Arr adxArr adxThreshold
       minFlips rangeMultiplier bars i = (None, bars + 1)).
Proof.
  intros He n highs lows closes run runStack.
  assert (Hh : Z.of_nat (length highs) = n)
    by (unfold highs; now rewrite length_map).
  assert (Hl : Z.of_nat (length lows) = n)
    by (unfold lows; now rewrite length_map).
  assert (Hc : Z.of_nat (length closes) = n)
    by (unfold closes; now rewrite length_map).
  assert (Hrange :
    Forall (fun i => 1 <= i /\ 0 <= i + 1 + expiryBars < n /\ i + 1 < n)
      (forRange 1 (n - (expiryBars + 1)))).
  { apply Forall_forall. intros i Hi. apply In_forRange in Hi. lia. }
  unfold run, runStack, Traced.backtestLoop, Traced.stackLoop, backtestLoop,
    EmaStack.loop.
  split; [apply traced_visit_value|].
  split; [apply (traced_visit_reads highs lows closes psarArr ema200Arr adxArr
                   expiryBars adxThreshold minFlips rangeMultiplier n
                   Hh Hl Hc _ Hrange)|].
  split; [apply stackVisit_value|].
  split; [apply (stackVisit_reads closes psarArr ema50Arr ema100Arr ema200Arr
                   expiryBars n Hc _ Hrange)|].
  intros bars i H. unfold barDecision, get.
  destruct H as [-> | ->]; simpl; [reflexivity|].
  now rewrite orb_true_r.
Qed.

Lemma candle_reads_in_bounds_witness :
  1 <= 1 /\
  candleReadsInBounds
    (snd (Traced.backtestLoop (map high longFlat) (map low longFlat)
            (map close longFlat) (repeat (ofZ 2) 250) (repeat (ofZ 1) 51)
            (repeat (mkAdx (ofZ 30) (ofZ 20) (ofZ 10)) 223) 1
            (ofZ 20) (ofZ 1) (ofZ 0) (Z.of_nat (length longFlat)))).
Proof.
  assert (H1 : 1 <= 1) by lia.
  split; [exact H1|].
  exact (proj1 (proj2 (candle_reads_in_bounds longFlat (repeat (ofZ 2) 250)
                         [] [] (repeat (ofZ 1) 51)
                         (repeat (mkAdx (ofZ 30) (ofZ 20) (ofZ 10)) 223) 1
                         (ofZ 20) (ofZ 1) (ofZ 0) H1))).
Defined.

(** ** The ledger of the triple-oscillator backtest *)

(** Trades that all expire at bar [i] are all resolved there. *)
Lemma expire_all_due (i : Z) (closeNow : value) :
  forall trades remaining totalTrades correctTrades,
    Forall (fun t => Triple.expiryIndex t = i) trades ->
    exists correctTrades',
      Triple.expire i closeNow trades remaining totalTrades correctTrades =
      (remaining, totalTrades + Z.of_nat (length trades), correctTrades').
Proof.
  induction trades as [|t rest IH]; intros remaining tot cor Hall.
  - exists cor. simpl. f_equal. f_equal. lia.
  - inversion Hall as [|? ? Ht Hrest]; subst. simpl.
    rewrite Z.eqb_refl.
    destruct (IH remaining (tot + 1)
                (if Triple.tradeCorrect t closeNow then cor + 1 else cor)
                Hrest) as (cor' & ->).
    exists cor'. f_equal. f_equal. lia.
Qed.

Section Ledger.

Context {OI : OscillatorIndicators}.

Lemma step_ledger (st : Triple.ledger) (i : Z) (c : candle) :
  ledgerInv st i ->
  let st' := Triple.step st i c in
  ledgerInv st' (i + 1) /\
  Triple.history st' = Triple.history st ++ [c] /\
  Triple.totalTrades st' = 
    Triple.totalTrades st + Z.of_nat (length (Triple.openTrades st)) /\
  Z.of_nat (length (Triple.openTrades st')) =
    (if opensTrade (Triple.history st) c then 1 else 0).
Proof.
  intros [Hlen Hall]. unfold Triple.step, opensTrade.
  assert (Hexp : exists cor',
    match Triple.openTrades st with
    | [] => (Triple.openTrades st, Triple.totalTrades st,
             Triple.correctTrades st)
    | _ :: _ =>
      Triple.expire i (close c) (Triple.openTrades st) []
        (Triple.totalTrades st) (Triple.correctTrades st)
    end =
    ([], Triple.totalTrades st + Z.of_nat (length (Triple.openTrades st)),
     cor')).
  { destruct (Triple.openTrades st) as [|t rest] eqn:E.
    - exists (Triple.correctTrades st). simpl. f_equal. f_equal. lia.
    - rewrite <- E. rewrite <- E in Hall.
      apply expire_all_due. exact Hall. }
  destruct Hexp as (cor' & ->). cbv zeta.
  destruct (length (Triple.history st ++ [c]) <? 200)%nat; simpl.
  - repeat split; simpl; auto.
  - destruct (Triple.oscillatorSignal _ c) as [d|]; simpl.
    + repeat split; simpl; auto.
    + repeat split; simpl; auto.
Qed.

Lemma loop_ledger (data : list candle) :
  forall st i,
    ledgerInv st i ->
    let st' := Triple.loop st i data in
    ledgerInv st' (i + Z.of_nat (length data)) /\
    Triple.totalTrades st' + Z.of_nat (length (Triple.openTrades st')) =
      Triple.totalTrades st + Z.of_nat (length (Triple.openTrades st)) +
      tradesCreated (Triple.history st) data.
Proof.
  induction data as [|c rest IH]; intros st i Hinv.
  - simpl. rewrite Z.add_0_r. split; [exact Hinv | lia].
  - simpl Triple.loop. cbv zeta.
    destruct (step_ledger st i c Hinv) as (Hinv' & Hh & Ht & Ho).
    destruct (IH _ _ Hinv') as (Hinv'' & Hsum).
    split.
    + replace (i + Z.of_nat (length (c :: rest)))
        with (i + 1 + Z.of_nat (length rest)) by (simpl length; lia).
      exact Hinv''.
    + rewrite Hsum, Hh, Ht, Ho. simpl tradesCreated. lia.
Qed.

End Ledger.

(** C5 as stated fails: a trade created at the last bar expires beyond the
    input, is never resolved and is not counted.  On 210 candles with one
    signal, at bar 209, one trade is created and the reported total is 0. *)
Lemma last_bar_trade_not_counted :
  tradesCreated (OI := lastBarOscillators) [] twoHundredTen = 1 /\
  Triple.openTrades (Triple.run (OI := lastBarOscillators) twoHundredTen) =
    [Triple.mkTrade 209 210 UP (ofZ 1)] /\
  Triple.backtest (OI := lastBarOscillators) twoHundredTen =
    Some (mkResult 0 0 (ofZ 0)).
Proof. vm_compute. repeat split. Qed.

(** C5 (as amended): the reported total counts the resolved trades: the
    total plus the number of trades still open equals the number of trades
    created.  The expiry being one bar, at most one trade is open at a
    time, and a trade is still open at the end only if it was created at
    the last bar (its expiry index is the length of the input); that trade
    is not counted. *)
Theorem total_counts_resolved_trades (OI : OscillatorIndicators)
  (data : list candle) :
  let st := Triple.run data in
  Triple.totalTrades st + Z.of_nat (length (Triple.openTrades st)) =
    tradesCreated [] data /\
  (length (Triple.openTrades st) <= 1)%nat /\
  Forall (fun t => Triple.expiryIndex t = Z.of_nat (length data))
    (Triple.openTrades st) /\
  (Triple.openTrades st = [] -> Triple.totalTrades st = tradesCreated [] data).
Proof.
  assert (Hinv : ledgerInv (Triple.mkLedger [] [] 0 0) 0)
    by (split; [simpl; lia | constructor]).
  destruct (loop_ledger data _ _ Hinv) as ((Hlen & Hall) & Hsum).
  simpl in Hsum. unfold Triple.run. cbv zeta.
  split; [exact Hsum|]. split; [exact Hlen|]. split; [exact Hall|].
  intro He. rewrite He in Hsum. simpl in Hsum. lia.
Qed.

(** ** The look-back filter, for comparison *)

Lemma countSides_spec (closes psar : list value) :
  forall (k : nat) (j b a : Z),
    let r := countSides closes psar j k b a in
    (b <= fst r <= b + Z.of_nat k) /\
    (a <= snd r <= a + Z.of_nat k) /\
    (fst r = b + Z.of_nat k <->
     forall m, 0 <= m < Z.of_nat k ->
               js_le (get closes (j + m)) (get psar (j + m)) = true) /\
    (snd r = a + Z.of_nat k <->
     forall m, 0 <= m < Z.of_nat k ->
               js_ge (get closes (j + m)) (get psar (j + m)) = true).
Proof.
  induction k as [|k IH]; intros j b a; cbv zeta.
  - simpl. repeat split; intros; lia.
  - simpl countSides.
    set (b1 := if js_le (get closes j) (get psar j) then b + 1 else b).
    set (a1 := if js_ge (get closes j) (get psar j) then a + 1 else a).
    destruct (IH (j + 1) b1 a1) as (Hb & Ha & Hbe & Hae).
    set (r := countSides closes psar (j + 1) k b1 a1) in *.
    assert (Hb1 : b <= b1 <= b + 1)
      by (unfold b1; destruct (js_le _ _); lia).
    assert (Ha1 : a <= a1 <= a + 1)
      by (unfold a1; destruct (js_ge _ _); lia).
    split; [lia|]. split; [lia|]. split.
    + split.
      * intros Heq m Hm.
        assert (Hb1' : b1 = b + 1) by lia.
        destruct (Z.eq_dec m 0) as [-> | Hne].
        -- rewrite Z.add_0_r. unfold b1 in Hb1'.
           destruct (js_le _ _); [reflexivity | lia].
        -- replace (j + m) with (j + 1 + (m - 1)) by lia.
           apply Hbe; lia.
      * intro Hall.
        assert (Hj : js_le (get closes j) (get psar j) = true)
          by (rewrite <- (Z.add_0_r j); apply Hall; lia).
        assert (Hr : fst r = b1 + Z.of_nat k).
        { apply Hbe. intros m Hm.
          replace (j + 1 + m) with (j + (m + 1)) by lia. apply Hall. lia. }
        unfold b1 in Hr. rewrite Hj in Hr. lia.
    + split.
      * intros Heq m Hm.
        assert (Ha1' : a1 = a + 1) by lia.
        destruct (Z.eq_dec m 0) as [-> | Hne].
        -- rewrite Z.add_0_r. unfold a1 in Ha1'.
           destruct (js_ge _ _); [reflexivity | lia].
        -- replace (j + m) with (j + 1 + (m - 1)) by lia.
           apply Hae; lia.
      * intro Hall.
        assert (Hj : js_ge (get closes j) (get psar j) = true)
          by (rewrite <- (Z.add_0_r j); apply Hall; lia).
        assert (Hr : snd r = a1 + Z.of_nat k).
        { apply Hae. intros m Hm.
          replace (j + 1 + m) with (j + (m + 1)) by lia. apply Hall. lia. }
        unfold a1 in Hr. rewrite Hj in Hr. lia.
Qed.

(** The look-back backtest does what the persistence filter is meant to
    do: an UP flip is kept iff the close was at or below the PSAR on each
    of the [lookback] bars before the cross. *)
Lemma lookbackCross_UP (closes psar : list value) (lookback i : Z) :
  1 <= lookback ->
  lookbackCross closes psar lookback i = Some UP <->
  crossUp (get closes (i - 1)) (get psar (i - 1)) (get closes i) (get psar i)
    = true /\
  forall j, i - lookback <= j < i -> js_le (get closes j) (get psar j) = true.
Proof.
  intro Hk. unfold lookbackCross.
  pose proof (countSides_spec closes psar (Z.to_nat lookback)
                (i - lookback) 0 0) as Hs. cbv zeta in Hs.
  destruct (countSides closes psar (i - lookback) (Z.to_nat lookback) 0 0)
    as [belowCount aboveCount].
  simpl fst in Hs. simpl snd in Hs.
  destruct Hs as (_ & _ & Hbe & _).
  rewrite Z2Nat.id in Hbe by lia. simpl in Hbe.
  set (up := crossUp _ _ _ _).
  assert (Hx : up = true ->
               crossDown (get closes (i - 1)) (get psar (i - 1))
                 (get closes i) (get psar i) = false)
    by apply cross_exclusive.
  split.
  - intro H.
    assert (Hb : (belowCount =? lookback) = true /\ up = true).
    { destruct (belowCount =? lookback), up,
        (aboveCount =? lookback),
        (crossDown (get closes (i - 1)) (get psar (i - 1))
           (get closes i) (get psar i)); simpl in H; try discriminate;
        auto. }
    destruct Hb as [Hb Hu]. split; [exact Hu|].
    apply Z.eqb_eq in Hb. intros j Hj.
    replace j with (i - lookback + (j - (i - lookback))) by lia.
    apply Hbe; lia.
  - intros [Hu Hall]. rewrite Hu, (Hx Hu), andb_false_r, andb_true_r.
    assert (Hb : belowCount = lookback).
    { apply Hbe. intros m Hm. apply Hall. lia. }
    apply Z.eqb_eq in Hb. rewrite Hb. reflexivity.
Qed.

(** The batch loop of backtest_psar_adx.js has another mechanism, a count
    of the bars since the last confirmed flip, which starts at 0: with
    [minFlips = 1] a confirmed flip at bar 1 is dropped. *)
Example batch_counter_drops_flip_at_bar_one :
  barDecision [] [] [ofZ 1; ofZ 3; ofZ 4] [ofZ 2; ofZ 2; ofZ 2] [] []
    (ofZ 20) (ofZ 1) (ofZ 0) 0 1 = (None, 0) /\
  barDecision [] [] [ofZ 1; ofZ 3; ofZ 4] [ofZ 2; ofZ 2; ofZ 2] [] []
    (ofZ 20) (ofZ 0) (ofZ 0) 0 1 = (Some UP, 0).
Proof. split; reflexivity. Qed.

(** With [minFlips = 1] (the default) the persistence filter of
    [psarAdxSignal] is off. *)
Lemma persistence_off_at_one (closes psarArr : list value) (crossIdx : Z) :
  persistenceRejects closes psarArr crossIdx (ofZ 1) = false.
Proof. reflexivity. Qed.

(** * Further properties of the backtests *)

(** ** Counting loops *)

(** A loop whose body opens at most one trade, and counts it as correct at
    most once, keeps [0 <= correct <= total <= number of iterations]. *)
Lemma counting_fold {S I : Type} (tot cor : S -> Z) (body : S -> I -> S) :
  (forall s i,
     tot s <= tot (body s i) <= tot s + 1 /\
     cor s <= cor (body s i) /\
     cor (body s i) - cor s <= tot (body s i) - tot s) ->
  forall (l : list I) (s : S),
    tot s <= tot (fold_left body l s) <= tot s + Z.of_nat (length l) /\
    cor s <= cor (fold_left body l s) /\
    cor (fold_left body l s) - cor s <= tot (fold_left body l s) - tot s.
Proof.
  intros Hbody l. induction l as [|i l IH]; intro s; simpl fold_left.
  - simpl. lia.
  - specialize (IH (body s i)). specialize (Hbody s i).
    simpl length. lia.
Qed.

(** Two loops over the same indices whose bodies preserve a relation end in
    related states. *)
Lemma fold_left_related {A B I : Type} (R : A -> B -> Prop)
  (f : A -> I -> A) (g : B -> I -> B) (l : list I) :
  (forall a b i, In i l -> R a b -> R (f a i) (g b i)) ->
  forall a b, R a b -> R (fold_left f l a) (fold_left g l b).
Proof.
  induction l as [|i l IH]; intros Hstep a b Hab; simpl; [exact Hab|].
  apply IH.
  - intros a' b' j Hj. apply Hstep. now right.
  - apply Hstep; [now left | exact Hab].
Qed.

Lemma forRange_length (from bound : Z) :
  Z.of_nat (length (forRange from bound)) = Z.max 0 (bound - from).
Proof. unfold forRange. rewrite length_map, length_seq. lia. Qed.

Lemma accuracyOf_range (total correct : Z) :
  0 <= correct <= total ->
  exists q, accuracyOf total correct = Num q /\
            (0 <= q)%Q /\ (q <= inject_Z 100)%Q.
Proof.
  intro H. unfold accuracyOf. destruct (Z.ltb_spec 0 total) as [Ht|Ht].
  - eexists. split; [reflexivity|].
    assert (Ht' : (0 < inject_Z total)%Q).
    { change (inject_Z 0 < inject_Z total)%Q. rewrite <- Zlt_Qlt. exact Ht. }
    assert (H0 : (0 <= inject_Z correct / inject_Z total)%Q).
    { apply Qle_shift_div_l; [exact Ht'|].
      rewrite Qmult_0_l. change (inject_Z 0 <= inject_Z correct)%Q.
      rewrite <- Zle_Qle. lia. }
    assert (H1 : (inject_Z correct / inject_Z total <= 1)%Q).
    { apply Qle_shift_div_r; [exact Ht'|].
      rewrite Qmult_1_l. rewrite <- Zle_Qle. lia. }
    split.
    + apply Qmult_le_0_compat; [exact H0 | discriminate].
    + rewrite <- (Qmult_1_l (inject_Z 100)) at 2.
      apply Qmult_le_compat_r; [exact H1 | discriminate].
  - exists (inject_Z 0). split; [reflexivity|]. split; discriminate.
Qed.

Lemma backtestStep_counts (highs lows closes psarArr ema200Arr : list value)
  (adxArr : list adxEntry) (expiryBars : Z)
  (adxThreshold minFlips rangeMultiplier : value) (st : loopState) (i : Z) :
  let st' := backtestStep highs lows closes psarArr ema200Arr adxArr
               expiryBars adxThreshold minFlips rangeMultiplier st i in
  totalTrades st <= totalTrades st' <= totalTrades st + 1 /\
  correctTrades st <= correctTrades st' /\
  correctTrades st' - correctTrades st <= totalTrades st' - totalTrades st.
Proof.
  unfold backtestStep.
  destruct (barDecision _ _ _ _ _ _ _ _ _ _ _) as [[d|] bars]; simpl.
  - destruct (isWin _ _ _); lia.
  - lia.
Qed.

(** X1: the PSAR+ADX backtest returns [0 <= correct <= total], with
    [total] at most the number of bars the loop visits,
    [max 0 (candles.length - expiryBars - 2)], and an accuracy between 0
    and 100. *)
Theorem backtest_counts_bounded (TI : TechnicalIndicators)
  (candles : list candle) (expiryBars : Z)
  (adxThreshold minFlips psarStep psarMax rangeMultiplier : value)
  (r : backtestResult) :
  backtestStrategy candles expiryBars adxThreshold minFlips psarStep psarMax
    rangeMultiplier = Return r ->
  0 <= correct r <= total r /\
  total r <= Z.max 0 (Z.of_nat (length candles) - expiryBars - 2) /\
  exists q, accuracy r = Num q /\ (0 <= q)%Q /\ (q <= inject_Z 100)%Q.
Proof.
  unfold backtestStrategy. intro H.
  destruct (_ <? _)%nat; [discriminate|].
  destruct (ADX_calculate _ _ _ _) as [adxArr|]; [|discriminate].
  injection H as <-. simpl total. simpl correct. simpl accuracy.
  unfold backtestLoop.
  match goal with
  | |- context [fold_left ?body ?l ?s] =>
    pose proof (counting_fold totalTrades correctTrades body
                  (backtestStep_counts _ _ _ _ _ _ _ _ _ _) l s) as Hc;
    set (st := fold_left body l s) in *
  end.
  rewrite forRange_length in Hc. simpl in Hc.
  assert (Hb : 0 <= correctTrades st <= totalTrades st) by lia.
  split; [exact Hb|]. split; [lia|].
  apply accuracyOf_range. exact Hb.
Qed.

Lemma backtest_counts_bounded_witness :
  backtestStrategy (TI := zigzagIndicators) zigzag 1 undefined (ofZ 0)
    undefined undefined undefined =
    Return (mkResult 2 1 (Num (100 # 2))) /\
  0 <= 1 <= 2 /\ 2 <= Z.max 0 (Z.of_nat (length zigzag) - 1 - 2).
Proof.
  assert (H : backtestStrategy (TI := zigzagIndicators) zigzag 1 undefined
                (ofZ 0) undefined undefined undefined =
              Return (mkResult 2 1 (Num (100 # 2)))) by (vm_compute; reflexivity).
  split; [exact H|].
  destruct (backtest_counts_bounded zigzagIndicators zigzag 1 undefined
              (ofZ 0) undefined undefined undefined _ H) as (H1 & H2 & _).
  split; [exact H1 | exact H2].
Defined.

(** ** Tightening the filters of the PSAR+ADX backtest *)

Lemma js_lt_threshold_mono (a : value) (t t' : Q) :
  (t <= t')%Q -> js_lt a (Num t') = false -> js_lt a (Num t) = false.
Proof.
  intros Ht H. destruct a as [| |x]; simpl in *; try reflexivity.
  unfold Qltb in *. apply negb_false_iff in H. apply negb_false_iff.
  apply Qle_bool_iff in H. apply Qle_bool_iff.
  exact (Qle_trans _ _ _ Ht H).
Qed.

(** The counter of bars since the last confirmed flip evolves the same way
    whatever [minFlips] and the ADX threshold are. *)
Lemma barDecision_counter (highs lows closes psarArr ema200Arr : list value)
  (adxArr : list adxEntry) (t t' k k' rm : value) (bars i : Z) :
  snd (barDecision highs lows closes psarArr ema200Arr adxArr t k rm bars i) =
  snd (barDecision highs lows closes psarArr ema200Arr adxArr t' k' rm bars i).
Proof.
  unfold barDecision.
  destruct (_ || _); [reflexivity|].
  destruct (psarCross _ _ _ _) as [d|]; [|reflexivity].
  destruct (negb _); [reflexivity|].
  repeat match goal with
         | |- context [if ?b then _ else _] => destruct b
         end; reflexivity.
Qed.

Lemma barDecision_tighter (highs lows closes psarArr ema200Arr : list value)
  (adxArr : list adxEntry) (t t' k k' : Q) (rm : value) (bars i : Z)
  (d : direction) :
  (t <= t')%Q -> (k <= k')%Q ->
  fst (barDecision highs lows closes psarArr ema200Arr adxArr (Num t') (Num k')
         rm bars i) = Some d ->
  fst (barDecision highs lows closes psarArr ema200Arr adxArr (Num t) (Num k)
         rm bars i) = Some d.
Proof.
  intros Ht Hk. unfold barDecision.
  destruct (_ || _); [discriminate|].
  destruct (psarCross _ _ _ _) as [d'|]; [|discriminate].
  destruct (negb _); [discriminate|].
  destruct (js_lt (ofZ bars) (Num k')) eqn:Ek; [discriminate|].
  rewrite (js_lt_threshold_mono _ _ _ Hk Ek).
  destruct (rangeRejects _ _ _ _); [discriminate|].
  destruct (trendSkips _ _ _); [discriminate|].
  unfold adxSkips. destruct (adxOrNull adxArr i) as [a|]; [|trivial].
  destruct (js_lt a (Num t')) eqn:Ea; [discriminate|].
  rewrite (js_lt_threshold_mono _ _ _ Ht Ea). trivial.
Qed.

Lemma backtestLoop_tighter (highs lows closes psarArr ema200Arr : list value)
  (adxArr : list adxEntry) (expiryBars : Z) (t t' k k' : Q) (rm : value)
  (n : Z) :
  (t <= t')%Q -> (k <= k')%Q ->
  let loose := backtestLoop highs lows closes psarArr ema200Arr adxArr
                 expiryBars (Num t) (Num k) rm n in
  let tight := backtestLoop highs lows closes psarArr ema200Arr adxArr
                 expiryBars (Num t') (Num k') rm n in
  totalTrades tight <= totalTrades loose /\
  correctTrades tight <= correctTrades loose.
Proof.
  intros Ht Hk. cbv zeta. unfold backtestLoop.
  pose (R := fun loose tight : loopState =>
               barsSinceFlip loose = barsSinceFlip tight /\
               totalTrades tight <= totalTrades loose /\
               correctTrades tight <= correctTrades loose).
  assert (HR : R (fold_left
                    (backtestStep highs lows closes psarArr ema200Arr adxArr
                       expiryBars (Num t) (Num k) rm)
                    (forRange 1 (n - (expiryBars + 1))) (mkLoop 0 0 0))
                 (fold_left
                    (backtestStep highs lows closes psarArr ema200Arr adxArr
                       expiryBars (Num t') (Num k') rm)
                    (forRange 1 (n - (expiryBars + 1))) (mkLoop 0 0 0))).
  { apply fold_left_related; [|unfold R; simpl; lia].
    intros a b i _ (Hb & Htot & Hcor). unfold R, backtestStep.
    pose proof (barDecision_counter highs lows closes psarArr ema200Arr
                  adxArr (Num t) (Num t') (Num k) (Num k') rm
                  (barsSinceFlip a) i) as Hc.
    pose proof (barDecision_tighter highs lows closes psarArr ema200Arr
                  adxArr t t' k k' rm (barsSinceFlip a) i) as Hm.
    rewrite <- Hb.
    destruct (barDecision highs lows closes psarArr ema200Arr adxArr
                (Num t') (Num k') rm (barsSinceFlip a) i) as [[d'|] bars'];
      destruct (barDecision highs lows closes psarArr ema200Arr adxArr
                  (Num t) (Num k) rm (barsSinceFlip a) i) as [[d|] bars];
      simpl in Hc, Hm; subst bars'; simpl.
    - specialize (Hm d' Ht Hk eq_refl). injection Hm as ->.
      destruct (isWin _ _ _); lia.
    - specialize (Hm d' Ht Hk eq_refl). discriminate.
    - destruct (isWin _ _ _); lia.
    - lia. }
  destruct HR as (_ & H1 & H2). split; assumption.
Qed.

(** X2: raising the ADX threshold or [minFlips] never adds a trade to the
    PSAR+ADX backtest: on the same candles, the run with the larger values
    reports a total and a correct count at most those of the other run. *)
Theorem tighter_filters_fewer_trades (TI : TechnicalIndicators)
  (candles : list candle) (expiryBars : Z) (t t' k k' : Q)
  (psarStep psarMax rangeMultiplier : value) (r r' : backtestResult) :
  (t <= t')%Q -> (k <= k')%Q ->
  backtestStrategy candles expiryBars (Num t) (Num k) psarStep psarMax
    rangeMultiplier = Return r ->
  backtestStrategy candles expiryBars (Num t') (Num k') psarStep psarMax
    rangeMultiplier = Return r' ->
  total r' <= total r /\ correct r' <= correct r.
Proof.
  intros Ht Hk. unfold backtestStrategy.
  destruct (_ <? _)%nat; [discriminate|].
  destruct (ADX_calculate _ _ _ _) as [adxArr|]; [|discriminate].
  intros H H'. injection H as <-. injection H' as <-. simpl.
  apply backtestLoop_tighter; assumption.
Qed.

Lemma tighter_filters_fewer_trades_witness :
  (inject_Z 20 <= inject_Z 20)%Q /\ (inject_Z 0 <= inject_Z 1)%Q /\
  backtestStrategy (TI := zigzagIndicators) zigzag 1 (ofZ 20) (ofZ 0)
    undefined undefined undefined = Return (mkResult 2 1 (Num (100 # 2))) /\
  backtestStrategy (TI := zigzagIndicators) zigzag 1 (ofZ 20) (ofZ 1)
    undefined undefined undefined = Return (mkResult 1 0 (Num (0 # 1))) /\
  1 <= 2 /\ 0 <= 1.
Proof.
  assert (Ht : (inject_Z 20 <= inject_Z 20)%Q) by apply Qle_refl.
  assert (Hk : (inject_Z 0 <= inject_Z 1)%Q) by discriminate.
  assert (H : backtestStrategy (TI := zigzagIndicators) zigzag 1 (ofZ 20)
                (ofZ 0) undefined undefined undefined =
              Return (mkResult 2 1 (Num (100 # 2)))) by (vm_compute; reflexivity).
  assert (H' : backtestStrategy (TI := zigzagIndicators) zigzag 1 (ofZ 20)
                 (ofZ 1) undefined undefined undefined =
               Return (mkResult 1 0 (Num (0 # 1)))) by (vm_compute; reflexivity).
  split; [exact Ht|]. split; [exact Hk|]. split; [exact H|]. split; [exact H'|].
  exact (tighter_filters_fewer_trades zigzagIndicators zigzag 1 _ _ _ _
           undefined undefined undefined _ _ Ht Hk H H').
Defined.

(** ** The PSAR crossover backtests against each other *)

Lemma js_lt_zero_count (bars : Z) : 0 <= bars -> js_lt (ofZ bars) (ofZ 0) = false.
Proof.
  intro H. unfold js_lt, ofZ, Qltb. apply negb_false_iff.
  apply Qle_bool_iff. rewrite <- Zle_Qle. exact H.
Qed.

Lemma adxSkips_NaN (adxv : option value) : adxSkips adxv NaN = false.
Proof. destruct adxv as [[| |a]|]; reflexivity. Qed.

(** With [minFlips = 0], no range multiplier and a threshold that is not a
    number, an iteration of the PSAR+ADX loop decides as the PSAR
    crossover loop does. *)
Lemma barDecision_plain (highs lows closes psar emaArr : list value)
  (adxArr : list adxEntry) (bars i : Z) :
  0 <= bars ->
  fst (barDecision highs lows closes psar emaArr adxArr NaN (ofZ 0) (ofZ 0)
         bars i) = Psar.bar closes psar emaArr i /\
  0 <= snd (barDecision highs lows closes psar emaArr adxArr NaN (ofZ 0)
              (ofZ 0) bars i).
Proof.
  intro Hb. unfold barDecision, Psar.bar.
  destruct (_ || _); [simpl; split; [reflexivity | lia]|].
  destruct (psarCross _ _ _ _) as [d|]; [|simpl; split; [reflexivity | lia]].
  destruct (negb _); [simpl; split; [reflexivity | lia]|].
  rewrite (js_lt_zero_count _ Hb), adxSkips_NaN.
  change (rangeRejects highs lows i (ofZ 0)) with false. cbv iota.
  destruct (trendSkips _ _ _); simpl; split; reflexivity || lia.
Qed.

Lemma Psar_loop_as_backtestLoop (highs lows closes psar emaArr : list value)
  (adxArr : list adxEntry) (n : Z) :
  let st := backtestLoop highs lows closes psar emaArr adxArr 1 NaN (ofZ 0)
              (ofZ 0) n in
  Psar.loop closes psar emaArr n = (totalTrades st, correctTrades st).
Proof.
  cbv zeta. unfold Psar.loop, backtestLoop.
  change (n - (1 + 1)) with (n - 2).
  pose (R := fun (pr : Z * Z) (st : loopState) =>
               pr = (totalTrades st, correctTrades st) /\
               0 <= barsSinceFlip st).
  assert (HR : R (fold_left (Psar.step closes psar emaArr)
                    (forRange 1 (n - 2)) (0, 0))
                 (fold_left
                    (backtestStep highs lows closes psar emaArr adxArr 1 NaN
                       (ofZ 0) (ofZ 0))
                    (forRange 1 (n - 2)) (mkLoop 0 0 0))).
  { apply fold_left_related; [|unfold R; simpl; split; [reflexivity | lia]].
    intros pr st i _ (-> & Hb). unfold R, Psar.step, backtestStep.
    destruct (barDecision_plain highs lows closes psar emaArr adxArr
                (barsSinceFlip st) i Hb) as (Hd & Hs).
    destruct (barDecision _ _ _ _ _ _ _ _ _ _ _) as [dec bars].
    simpl in Hd, Hs. rewrite <- Hd.
    destruct dec as [d|]; simpl; [|split; [reflexivity | exact Hs]].
    replace (i + 1 + 1) with (i + 2) by lia.
    destruct (isWin _ _ _); split; (reflexivity || exact Hs). }
  exact (proj1 HR).
Qed.

(** X3: the PSAR crossover backtest is the PSAR+ADX backtest run with a
    one-bar expiry, [minFlips = 0], no range multiplier and an ADX
    threshold that is not a number (which rejects nothing): whenever
    [ADX.calculate] does not throw, both report the same figures, and the
    first stops for lack of data exactly when the second throws. *)
Theorem psar_backtest_is_unfiltered_psar_adx (TI : TechnicalIndicators)
  (candles : list candle) :
  ADX_calculate (map high candles) (map low candles) (map close candles)
    (ofZ 14) <> None ->
  backtestStrategy candles 1 NaN (ofZ 0) undefined undefined undefined =
  match Psar.backtest candles with
  | Some r => Return r
  | None => Throw "Insufficient data for PSAR+ADX strategy"
  end.
Proof.
  intro Hadx. unfold backtestStrategy, Psar.backtest.
  destruct (_ <? _)%nat; [reflexivity|].
  destruct (ADX_calculate _ _ _ _) as [adxArr|]; [|congruence].
  change (defaultTo (ofZ 20) NaN) with NaN.
  change (defaultTo (ofZ 1) (ofZ 0)) with (ofZ 0).
  change (defaultTo q_0_02 undefined) with q_0_02.
  change (defaultTo q_0_2 undefined) with q_0_2.
  change (defaultTo (ofZ 0) undefined) with (ofZ 0).
  rewrite (Psar_loop_as_backtestLoop (map high candles) (map low candles)
             (map close candles) _ _ adxArr).
  reflexivity.
Qed.

Lemma psar_backtest_is_unfiltered_psar_adx_witness :
  ADX_calculate (TechnicalIndicators := zigzagIndicators) (map high zigzag)
    (map low zigzag) (map close zigzag) (ofZ 14) <> None /\
  Psar.backtest (TI := zigzagIndicators) zigzag =
    Some (mkResult 2 1 (Num (100 # 2))) /\
  backtestStrategy (TI := zigzagIndicators) zigzag 1 NaN (ofZ 0) undefined
    undefined undefined = Return (mkResult 2 1 (Num (100 # 2))).
Proof.
  assert (H : ADX_calculate (TechnicalIndicators := zigzagIndicators)
                (map high zigzag) (map low zigzag) (map close zigzag)
                (ofZ 14) <> None) by discriminate.
  assert (Hp : Psar.backtest (TI := zigzagIndicators) zigzag =
               Some (mkResult 2 1 (Num (100 # 2)))) by (vm_compute; reflexivity).
  split; [exact H|]. split; [exact Hp|].
  pose proof (psar_backtest_is_unfiltered_psar_adx zigzagIndicators zigzag H)
    as He.
  rewrite Hp in He. exact He.
Defined.

(** A look-back of 0 or 1 bar asks nothing more than the cross itself. *)
Lemma lookbackCross_plain (closes psar : list value) (lookback i : Z) :
  0 <= lookback <= 1 ->
  lookbackCross closes psar lookback i =
  psarCross (get closes (i - 1)) (get psar (i - 1)) (get closes i) (get psar i).
Proof.
  intro H. assert (Hl : lookback = 0 \/ lookback = 1) by lia.
  unfold lookbackCross, psarCross.
  destruct Hl as [-> | ->]; simpl countSides.
  - simpl. reflexivity.
  - unfold crossUp, crossDown.
    destruct (js_le (get closes (i - 1)) (get psar (i - 1)));
      destruct (js_ge (get closes (i - 1)) (get psar (i - 1))); reflexivity.
Qed.

Lemma Lookback_bar_plain (closes psar ema200Arr : list value)
  (lookback i : Z) :
  0 <= lookback <= 1 ->
  Lookback.bar closes psar ema200Arr lookback i =
  Psar.bar closes psar ema200Arr i.
Proof.
  intro H. unfold Lookback.bar, Psar.bar.
  rewrite (lookbackCross_plain closes psar lookback i H). reflexivity.
Qed.

Lemma Lookback_loop_plain (closes psar ema200Arr : list value)
  (lookback n : Z) :
  0 <= lookback <= 1 ->
  Lookback.loop closes psar ema200Arr lookback n =
  Psar.loop closes psar ema200Arr n.
Proof.
  intro H. unfold Lookback.loop, Psar.loop.
  assert (Hstep : forall st i,
            Lookback.step closes psar ema200Arr lookback st i =
            Psar.step closes psar ema200Arr st i).
  { intros st i. unfold Lookback.step, Psar.step.
    now rewrite Lookback_bar_plain. }
  assert (Hfold : forall l st,
            fold_left (Lookback.step closes psar ema200Arr lookback) l st =
            fold_left (Psar.step closes psar ema200Arr) l st).
  { induction l as [|i l IH]; intro st; simpl; [reflexivity|].
    now rewrite Hstep, IH. }
  rewrite Hfold.
  assert (Hl : lookback = 0 \/ lookback = 1) by lia.
  destruct Hl as [-> | ->]; [|reflexivity].
  destruct (Z_lt_le_dec 0 (n - 2)) as [Hn | Hn].
  - rewrite (forRange_cons 0) by exact Hn. simpl fold_left.
    unfold Psar.step at 2, Psar.bar. simpl. reflexivity.
  - rewrite !forRange_nil by lia. reflexivity.
Qed.

(** X4: with a look-back of 0 or 1 bar, the look-back backtest reports the
    figures of the plain PSAR crossover backtest, on any input long enough
    for both. *)
Theorem lookback_one_is_plain_psar (TI : TechnicalIndicators)
  (candles : list candle) (lookback : Z) :
  0 <= lookback <= 1 ->
  (250 <= length candles)%nat ->
  Lookback.backtest candles lookback = Psar.backtest candles.
Proof.
  intros Hl Hn. unfold Lookback.backtest, Psar.backtest.
  destruct (Nat.ltb_spec (length candles) 200); [lia|].
  destruct (Nat.ltb_spec (length candles) 250); [lia|].
  rewrite Lookback_loop_plain by exact Hl. reflexivity.
Qed.

Lemma lookback_one_is_plain_psar_witness :
  0 <= 1 <= 1 /\ (250 <= length zigzag)%nat /\
  Lookback.backtest (TI := zigzagIndicators) zigzag 1 =
    Some (mkResult 2 1 (Num (100 # 2))) /\
  Lookback.backtest (TI := zigzagIndicators) zigzag 1 =
    Psar.backtest (TI := zigzagIndicators) zigzag.
Proof.
  assert (H1 : 0 <= 1 <= 1) by lia.
  assert (H2 : (250 <= length zigzag)%nat) by (vm_compute; lia).
  split; [exact H1|]. split; [exact H2|].
  split; [vm_compute; reflexivity|].
  exact (lookback_one_is_plain_psar zigzagIndicators zigzag 1 H1 H2).
Defined.

Lemma lookbackCross_UP_witness :
  1 <= 3 /\
  lookbackCross (map close lateRise) (repeat (ofZ 2) 5) 3 3 = Some UP /\
  crossUp (ofZ 1) (ofZ 2) (ofZ 3) (ofZ 2) = true.
Proof.
  assert (H : 1 <= 3) by lia.
  assert (Hc : lookbackCross (map close lateRise) (repeat (ofZ 2) 5) 3 3
               = Some UP) by reflexivity.
  split; [exact H|]. split; [exact Hc|].
  exact (proj1 (proj1 (lookbackCross_UP (map close lateRise)
                         (repeat (ofZ 2) 5) 3 3 H) Hc)).
Defined.

(** ** The EMA stack *)

Lemma js_lt_Q (a b : value) :
  js_lt a b = true -> exists x y, a = Num x /\ b = Num y /\ (x < y)%Q.
Proof. apply js_lt_Num. Qed.

(** X5: the EMA-stack backtest opens a trade at bar [i] only if the three
    EMA values read at [i] are numbers in the strict order of the trade's
    direction (EMA50 > EMA100 > EMA200 for UP, the reverse for DOWN), and
    the bar shows a PSAR cross in that direction confirmed by the next
    close; a bar with an EMA value missing opens no trade. *)
Theorem ema_stack_trade_needs_ordered_stack
  (closes psarArr ema50Arr ema100Arr ema200Arr : list value) (i : Z)
  (d : direction) :
  EmaStack.bar closes psarArr ema50Arr ema100Arr ema200Arr i = Some d ->
  (exists e50 e100 e200 : Q,
     get ema50Arr i = Num e50 /\ get ema100Arr i = Num e100 /\
     get ema200Arr i = Num e200 /\
     match d with
     | UP => (e200 < e100)%Q /\ (e100 < e50)%Q
     | DOWN => (e50 < e100)%Q /\ (e100 < e200)%Q
     end) /\
  psarCross (get closes (i - 1)) (get psarArr (i - 1))
            (get closes i) (get psarArr i) = Some d /\
  continuation d (get closes (i + 1)) (get closes i) = true.
Proof.
  unfold EmaStack.bar.
  destruct (_ || _); [discriminate|].
  destruct (psarCross _ _ _ _) as [d'|]; [|discriminate].
  destruct (continuation _ _ _) eqn:Ec; [|discriminate]. cbv zeta.
  simpl negb. cbv iota.
  destruct (_ || _ || _); [discriminate|].
  unfold EmaStack.bullishStack, EmaStack.bearishStack, js_gt.
  destruct d'; simpl direction_eqb; cbv iota.
  - rewrite orb_false_r. simpl andb.
    destruct (js_lt (get ema100Arr i) (get ema50Arr i)) eqn:E1;
      [|discriminate].
    destruct (js_lt (get ema200Arr i) (get ema100Arr i)) eqn:E2;
      [|discriminate].
    intro H. injection H as <-. split; [|split; [reflexivity | exact Ec]].
    apply js_lt_Q in E1. apply js_lt_Q in E2.
    destruct E1 as (x1 & y1 & Ha & Hb & H1).
    destruct E2 as (x2 & y2 & Hc & Hd & H2).
    rewrite Ha in Hd. injection Hd as <-.
    exists y1, x1, x2. repeat split; assumption.
  - simpl andb. simpl orb.
    destruct (js_lt (get ema50Arr i) (get ema100Arr i)) eqn:E1;
      [|discriminate].
    destruct (js_lt (get ema100Arr i) (get ema200Arr i)) eqn:E2;
      [|discriminate].
    intro H. injection H as <-. split; [|split; [reflexivity | exact Ec]].
    apply js_lt_Q in E1. apply js_lt_Q in E2.
    destruct E1 as (x1 & y1 & Ha & Hb & H1).
    destruct E2 as (x2 & y2 & Hc & Hd & H2).
    rewrite Hb in Hc. injection Hc as <-.
    exists x1, y1, y2. repeat split; assumption.
Qed.

Lemma ema_stack_trade_needs_ordered_stack_witness :
  EmaStack.bar [ofZ 1; ofZ 3; ofZ 4] [ofZ 2; ofZ 2; ofZ 2]
    [ofZ 0; ofZ 9] [ofZ 0; ofZ 8] [ofZ 0; ofZ 7] 1 = Some UP /\
  exists e50 e100 e200 : Q,
    get [ofZ 0; ofZ 9] 1 = Num e50 /\ get [ofZ 0; ofZ 8] 1 = Num e100 /\
    get [ofZ 0; ofZ 7] 1 = Num e200 /\
    (e200 < e100)%Q /\ (e100 < e50)%Q.
Proof.
  assert (H : EmaStack.bar [ofZ 1; ofZ 3; ofZ 4] [ofZ 2; ofZ 2; ofZ 2]
                [ofZ 0; ofZ 9] [ofZ 0; ofZ 8] [ofZ 0; ofZ 7] 1 = Some UP)
    by reflexivity.
  split; [exact H|].
  exact (proj1 (ema_stack_trade_needs_ordered_stack _ _ _ _ _ 1 UP H)).
Defined.

(** ** The figures of the PSAR variants *)

Lemma pair_loop_counts (body : Z * Z -> Z -> Z * Z) (from bound : Z) :
  (forall st i,
     fst st <= fst (body st i) <= fst st + 1 /\
     snd st <= snd (body st i) /\
     snd (body st i) - snd st <= fst (body st i) - fst st) ->
  forall t c, fold_left body (forRange from bound) (0, 0) = (t, c) ->
  boundedFigures (mkResult t c (accuracyOf t c)) (bound - from).
Proof.
  intros Hbody t c H.
  pose proof (counting_fold fst snd body Hbody (forRange from bound) (0, 0))
    as Hc.
  rewrite H, forRange_length in Hc. simpl in Hc.
  assert (Hb : 0 <= c <= t) by lia.
  unfold boundedFigures. simpl.
  split; [exact Hb|]. split; [lia|]. apply accuracyOf_range. exact Hb.
Qed.

Lemma Psar_trade_counts (closes : list value) (d : direction) (st : Z * Z)
  (i : Z) :
  fst st <= fst (Psar.trade closes d st i) <= fst st + 1 /\
  snd st <= snd (Psar.trade closes d st i) /\
  snd (Psar.trade closes d st i) - snd st <=
  fst (Psar.trade closes d st i) - fst st.
Proof.
  destruct st as [t c]. unfold Psar.trade.
  destruct (isWin _ _ _); simpl; lia.
Qed.

Lemma Psar_step_counts (closes psar emaArr : list value) (st : Z * Z) (i : Z) :
  fst st <= fst (Psar.step closes psar emaArr st i) <= fst st + 1 /\
  snd st <= snd (Psar.step closes psar emaArr st i) /\
  snd (Psar.step closes psar emaArr st i) - snd st <=
  fst (Psar.step closes psar emaArr st i) - fst st.
Proof.
  unfold Psar.step. destruct (Psar.bar _ _ _ _); [|lia].
  apply Psar_trade_counts.
Qed.

Lemma Lookback_step_counts (closes psar emaArr : list value) (lookback : Z)
  (st : Z * Z) (i : Z) :
  fst st <= fst (Lookback.step closes psar emaArr lookback st i)
    <= fst st + 1 /\
  snd st <= snd (Lookback.step closes psar emaArr lookback st i) /\
  snd (Lookback.step closes psar emaArr lookback st i) - snd st <=
  fst (Lookback.step closes psar emaArr lookback st i) - fst st.
Proof.
  unfold Lookback.step. destruct (Lookback.bar _ _ _ _ _); [|lia].
  apply Psar_trade_counts.
Qed.

Lemma EmaStack_step_counts
  (closes psarArr ema50Arr ema100Arr ema200Arr : list value) (expiryBars : Z)
  (st : Z * Z) (i : Z) :
  let st' := EmaStack.step closes psarArr ema50Arr ema100Arr ema200Arr
               expiryBars st i in
  fst st <= fst st' <= fst st + 1 /\
  snd st <= snd st' /\ snd st' - snd st <= fst st' - fst st.
Proof.
  unfold EmaStack.step. destruct (EmaStack.bar _ _ _ _ _ _); [|simpl; lia].
  destruct st as [t c]. destruct (isWin _ _ _); simpl; lia.
Qed.

(** X6: the PSAR crossover backtest, its EMA100 variant, the look-back
    variant and the EMA-stack backtest all report [0 <= correct <= total],
    a total at most the number of bars their loop visits, and an accuracy
    between 0 and 100. *)
Theorem psar_variants_figures_bounded (TI : TechnicalIndicators)
  (candles : list candle) :
  let n := Z.of_nat (length candles) in
  (forall r, Psar.backtest candles = Some r -> boundedFigures r (n - 3)) /\
  (forall r, PsarEma100.backtest candles = Some r ->
             boundedFigures r (n - 3)) /\
  (forall lookback r, Lookback.backtest candles lookback = Some r ->
                      boundedFigures r (n - 2 - lookback)) /\
  (forall expiryBars psarStep psarMax,
     boundedFigures
       (EmaStack.backtestStrategy candles expiryBars psarStep psarMax)
       (n - expiryBars - 2)).
Proof.
  intro n. split; [|split; [|split]].
  - intros r H. unfold Psar.backtest in H.
    destruct (_ <? _)%nat; [discriminate|].
    destruct (Psar.loop _ _ _ _) as [t c] eqn:E.
    injection H as <-. unfold Psar.loop in E.
    replace (n - 3) with (Z.of_nat (length candles) - 2 - 1) by (unfold n; lia).
    eapply pair_loop_counts; [|exact E]. apply Psar_step_counts.
  - intros r H. unfold PsarEma100.backtest in H.
    destruct (_ <? _)%nat; [discriminate|].
    destruct (Psar.loop _ _ _ _) as [t c] eqn:E.
    injection H as <-. unfold Psar.loop in E.
    replace (n - 3) with (Z.of_nat (length candles) - 2 - 1) by (unfold n; lia).
    eapply pair_loop_counts; [|exact E]. apply Psar_step_counts.
  - intros lookback r H. unfold Lookback.backtest in H.
    destruct (_ <? _)%nat; [discriminate|].
    destruct (Lookback.loop _ _ _ _ _) as [t c] eqn:E.
    injection H as <-. unfold Lookback.loop in E.
    eapply pair_loop_counts; [|exact E]. apply Lookback_step_counts.
  - intros expiryBars psarStep psarMax. unfold EmaStack.backtestStrategy.
    destruct (EmaStack.loop _ _ _ _ _ _ _) as [t c] eqn:E.
    unfold EmaStack.loop in E.
    replace (n - expiryBars - 2)
      with (Z.of_nat (length candles) - (expiryBars + 1) - 1)
      by (unfold n; lia).
    eapply pair_loop_counts; [|exact E]. apply EmaStack_step_counts.
Qed.

(** ** What the signal functions return *)

(** X7: [psarSignal] returns either the neutral signal or a fired one:
    [skipped] false, a direction, confidence 80 and the reason text; it
    fires only on an array of at least three candles whose bar before last
    shows a PSAR cross in that direction which the last close continues. *)
Theorem psarSignal_neutral_or_fired (TI : TechnicalIndicators)
  (arg : candlesArg) :
  psarSignal arg = mkSignal None (ofZ 0) EmptyString true \/
  exists candles d,
    arg = Array candles /\ (3 <= length candles)%nat /\
    psarSignal arg =
      mkSignal (Some d) (ofZ 80)
        ("PSAR cross " ++ directionName d ++
         " with continuation and EMA200 filter") false /\
    let n := Z.of_nat (length candles) in
    let closes := map close candles in
    let psar :=
      alignPsar (length candles)
        (PSAR_calculate (map high candles) (map low candles) q_0_02 q_0_2) in
    psarCross (get closes (n - 3)) (get psar (n - 3))
              (get closes (n - 2)) (get psar (n - 2)) = Some d /\
    continuation d (get closes (n - 1)) (get closes (n - 2)) = true.
Proof.
  destruct arg as [|candles]; [left; reflexivity|].
  unfold psarSignal.
  destruct (Nat.ltb_spec (length candles) 3) as [Hn|Hn]; [left; reflexivity|].
  cbv zeta.
  destruct (_ || _ || _); [left; reflexivity|].
  destruct (psarCross _ _ _ _) as [d|] eqn:Ec; [|left; reflexivity].
  destruct (continuation _ _ _) eqn:Ek; [|left; reflexivity].
  simpl negb. cbv iota.
  destruct (emaRejects _ _ _); [left; reflexivity|].
  right. exists candles, d. repeat split; assumption.
Qed.

Lemma psarAdxConfidence_range (adxVal rangeMult : value) (t : Q) :
  adxVal <> NaN ->
  adxRejects adxVal (Num t) = false ->
  exists q, psarAdxConfidence adxVal (Num t) rangeMult = Num q /\
            (inject_Z 70 <= q)%Q /\ (q <= inject_Z 100)%Q.
Proof.
  intros Hnan Hrej. unfold psarAdxConfidence.
  destruct adxVal as [| |a]; [| congruence |].
  - destruct (js_gt rangeMult (ofZ 0)); simpl; eexists;
      (split; [reflexivity|]); (split; [|apply Q.le_min_r]);
      apply Q.min_glb; vm_compute; discriminate.
  - unfold adxRejects in Hrej. simpl in Hrej. unfold Qltb in Hrej.
    apply negb_false_iff, Qle_bool_iff in Hrej.
    assert (Hb : (0 <= Qmin (inject_Z 30) ((a - t) * inject_Z 2))%Q).
    { apply Q.min_glb; [discriminate|].
      apply Qmult_le_0_compat; [|discriminate].
      unfold Qminus. rewrite <- (Qplus_opp_r t).
      apply Qplus_le_compat; [exact Hrej | apply Qle_refl]. }
    destruct (js_gt rangeMult (ofZ 0)); simpl; eexists;
      (split; [reflexivity|]); (split; [|apply Q.le_min_r]);
      (apply Q.min_glb; [|vm_compute; discriminate]).
    + rewrite <- (Qplus_0_r (inject_Z 70)) at 1.
      rewrite <- Qplus_assoc.
      apply Qplus_le_compat; [apply Qle_refl|].
      rewrite <- (Qplus_0_r 0).
      apply Qplus_le_compat; [exact Hb | discriminate].
    + rewrite <- (Qplus_0_r (inject_Z 70)) at 1.
      apply Qplus_le_compat; [apply Qle_refl | exact Hb].
Qed.

(** X8: when [psarAdxSignal] fires, [skipped] is false and, provided the
    threshold is a number and the ADX value at the bar of the cross is not
    NaN (it is a number or undefined), the confidence is a number between
    70 and 100. *)
Theorem psarAdx_fired_confidence_bounded (TI : TechnicalIndicators)
  (toFixed2 : value -> string) (candles : list candle)
  (config : psarAdxConfig) (d : direction) (t : Q) :
  let n := length candles in
  let adxVal :=
    adxAt (alignAdx n (ADX_calculate (map high candles) (map low candles)
                         (map close candles) (ofZ 14)))
          (Z.of_nat n - 2) in
  let r := psarAdxSignal toFixed2 (Array candles) config in
  signal r = Some d ->
  nullish (adxThreshold config) (ofZ 20) = Num t ->
  adxVal <> NaN ->
  skipped r = false /\
  exists q, confidence r = Num q /\
            (inject_Z 70 <= q)%Q /\ (q <= inject_Z 100)%Q.
Proof.
  intros n adxVal r. subst r adxVal n. unfold psarAdxSignal.
  destruct (_ <? _)%nat; [discriminate|]. cbv zeta.
  destruct (_ || _ || _); [discriminate|].
  destruct (psarCross _ _ _ _) as [d'|]; [|discriminate].
  destruct (negb _); [discriminate|].
  destruct (rangeRejects _ _ _ _); [discriminate|].
  destruct (persistenceRejects _ _ _ _); [discriminate|].
  destruct (emaRejects _ _ _); [discriminate|].
  destruct (adxRejects _ _) eqn:Ea; [discriminate|].
  intros _ Ht Hnan. simpl. split; [reflexivity|].
  rewrite Ht in *. apply psarAdxConfidence_range; assumption.
Qed.

Lemma psarAdx_fired_confidence_bounded_witness :
  signal (psarAdxSignal (TI := shortRiseIndicators) noFormat (Array shortRise)
            emptyConfig) = Some UP /\
  nullish (adxThreshold emptyConfig) (ofZ 20) = Num (inject_Z 20) /\
  exists q, confidence (psarAdxSignal (TI := shortRiseIndicators) noFormat
                          (Array shortRise) emptyConfig) = Num q /\
            (inject_Z 70 <= q)%Q /\ (q <= inject_Z 100)%Q.
Proof.
  assert (H1 : signal (psarAdxSignal (TI := shortRiseIndicators) noFormat
                         (Array shortRise) emptyConfig) = Some UP)
    by reflexivity.
  assert (H2 : nullish (adxThreshold emptyConfig) (ofZ 20) =
               Num (inject_Z 20)) by reflexivity.
  split; [exact H1|]. split; [exact H2|].
  refine (proj2 (psarAdx_fired_confidence_bounded shortRiseIndicators noFormat
                   shortRise emptyConfig UP (inject_Z 20) H1 H2 _)).
  discriminate.
Defined.

(** X9: with the default PSAR step and maximum, [psarAdxSignal] fires only
    where [psarSignal] fires, and in the same direction: the ADX, range and
    persistence filters only remove signals. *)
Theorem psarAdx_fires_only_where_psar_fires (TI : TechnicalIndicators)
  (toFixed2 : value -> string) (candles : list candle)
  (config : psarAdxConfig) (d : direction) :
  nullish (psarStep config) q_0_02 = q_0_02 ->
  nullish (psarMax config) q_0_2 = q_0_2 ->
  signal (psarAdxSignal toFixed2 (Array candles) config) = Some d ->
  signal (psarSignal (Array candles)) = Some d.
Proof.
  intros Hs Hm. unfold psarAdxSignal, psarSignal.
  destruct (_ <? _)%nat; [discriminate|]. cbv zeta. rewrite Hs, Hm.
  destruct (_ || _ || _); [discriminate|].
  destruct (psarCross _ _ _ _) as [d'|]; [|discriminate].
  destruct (negb _); [discriminate|].
  destruct (rangeRejects _ _ _ _); [discriminate|].
  destruct (persistenceRejects _ _ _ _); [discriminate|].
  destruct (emaRejects _ _ _); [discriminate|].
  destruct (adxRejects _ _); [discriminate|].
  simpl. trivial.
Qed.

Lemma psarAdx_fires_only_where_psar_fires_witness :
  nullish (psarStep emptyConfig) q_0_02 = q_0_02 /\
  nullish (psarMax emptyConfig) q_0_2 = q_0_2 /\
  signal (psarAdxSignal (TI := shortRiseIndicators) noFormat (Array shortRise)
            emptyConfig) = Some UP /\
  signal (psarSignal (TI := shortRiseIndicators) (Array shortRise)) = Some UP.
Proof.
  assert (H1 : nullish (psarStep emptyConfig) q_0_02 = q_0_02) by reflexivity.
  assert (H2 : nullish (psarMax emptyConfig) q_0_2 = q_0_2) by reflexivity.
  assert (H3 : signal (psarAdxSignal (TI := shortRiseIndicators) noFormat
                         (Array shortRise) emptyConfig) = Some UP)
    by reflexivity.
  split; [exact H1|]. split; [exact H2|]. split; [exact H3|].
  exact (psarAdx_fires_only_where_psar_fires shortRiseIndicators noFormat
           shortRise emptyConfig UP H1 H2 H3).
Defined.

(** ** More on [trendStrategy5m] *)

(** Below [candles.length] the ADX element read by an iteration exists. *)
Lemma trend_bar_returns (closes fastEma slowEma trendEma : list value)
  (adxValues : list adxEntry) (adxThreshold : value) (n i : Z) :
  i < n ->
  exists pushed,
    Trend.bar closes fastEma slowEma trendEma adxValues adxThreshold n i =
    Return pushed.
Proof.
  intro Hi. unfold Trend.bar.
  destruct (_ || _ || _ || _) eqn:Eg; [eexists; reflexivity|].
  apply orb_false_iff in Eg. destruct Eg as [_ Eg]. apply Z.ltb_ge in Eg.
  destruct (idx adxValues _) as [e|] eqn:Ee.
  - destruct (_ || _); eexists; reflexivity.
  - rewrite idx_nonneg in Ee by exact Eg. apply nth_error_None in Ee. lia.
Qed.

Lemma trend_loop_returns (closes fastEma slowEma trendEma : list value)
  (adxValues : list adxEntry) (adxThreshold : value) (n : Z) :
  forall indices signals,
    Forall (fun i => i < n) indices ->
    exists result,
      Trend.loop closes fastEma slowEma trendEma adxValues adxThreshold n
        indices signals = Return result.
Proof.
  induction indices as [|i rest IH]; intros signals Hall; simpl.
  - eexists; reflexivity.
  - inversion Hall as [|? ? Hi Hrest]; subst.
    destruct (trend_bar_returns closes fastEma slowEma trendEma adxValues
                adxThreshold n i Hi) as (pushed & ->).
    apply IH. exact Hrest.
Qed.

(** X10: [trendStrategy5m] never reads [.adx] of a missing element: it
    returns a list of signals whenever [ADX.calculate] itself does not
    throw, whatever the lengths of the indicator series are. *)
Theorem trend_strategy_returns (TI : TechnicalIndicators)
  (candles : list candle) (opts : Trend.options) :
  ADX_calculate (map high candles) (map low candles) (map close candles)
    (defaultTo (ofZ 14) (Trend.adxLen opts)) <> None ->
  exists signals, Trend.trendStrategy5m candles opts = Return signals.
Proof.
  intro H. unfold Trend.trendStrategy5m.
  destruct (ADX_calculate _ _ _ _) as [adxValues|]; [|congruence].
  apply trend_loop_returns. apply Forall_forall. intros i Hi.
  apply In_forRange in Hi. lia.
Qed.

Lemma trend_strategy_returns_witness :
  ADX_calculate (TechnicalIndicators := crossingIndicators)
    (map high crossingCandles) (map low crossingCandles)
    (map close crossingCandles)
    (defaultTo (ofZ 14) (Trend.adxLen Trend.noOptions)) <> None /\
  exists signals,
    Trend.trendStrategy5m (TI := crossingIndicators) crossingCandles
      Trend.noOptions = Return signals.
Proof.
  assert (H : ADX_calculate (TechnicalIndicators := crossingIndicators)
                (map high crossingCandles) (map low crossingCandles)
                (map close crossingCandles)
                (defaultTo (ofZ 14) (Trend.adxLen Trend.noOptions)) <> None)
    by discriminate.
  split; [exact H|].
  exact (trend_strategy_returns crossingIndicators crossingCandles
           Trend.noOptions H).
Defined.

Lemma trend_loop_Forall (P : Trend.entry -> Prop)
  (closes fastEma slowEma trendEma : list value)
  (adxValues : list adxEntry) (adxThreshold : value) (n : Z) :
  forall indices signals result,
    (forall i pushed,
       In i indices ->
       Trend.bar closes fastEma slowEma trendEma adxValues adxThreshold n i =
         Return pushed ->
       Forall P pushed) ->
    Forall P signals ->
    Trend.loop closes fastEma slowEma trendEma adxValues adxThreshold n
      indices signals = Return result ->
    Forall P result.
Proof.
  induction indices as [|i rest IH]; intros signals result Hbar Hs H;
    simpl in H.
  - now injection H as <-.
  - destruct (Trend.bar _ _ _ _ _ _ _ i) as [msg|pushed] eqn:Eb;
      [discriminate|].
    eapply IH; [| |exact H].
    + intros j p Hj. apply Hbar. now right.
    + apply Forall_app. split; [exact Hs|].
      eapply Hbar; [now left | exact Eb].
Qed.

Lemma trend_confidence_range (a t : Q) :
  js_lt (Num a) (Num t) = false ->
  exists q, Trend.confidenceOf (Num a) (Num t) = Num q /\
            (5 # 10 <= q)%Q /\ (q <= 95 # 100)%Q.
Proof.
  intro H. simpl in H. unfold Qltb in H.
  apply negb_false_iff, Qle_bool_iff in H.
  unfold Trend.confidenceOf. simpl. eexists. split; [reflexivity|].
  split; [|apply Q.le_min_r].
  apply Q.min_glb; [|vm_compute; discriminate].
  rewrite <- (Qplus_0_l (5 # 10)) at 1.
  apply Qplus_le_compat; [|apply Qle_refl].
  apply Qle_shift_div_l; [reflexivity|].
  rewrite Qmult_0_l. unfold Qminus. rewrite <- (Qplus_opp_r t).
  apply Qplus_le_compat; [exact H | apply Qle_refl].
Qed.

(** A signal pushed at bar [i] carries index [i]; with a numeric
    threshold its confidence is between 0.5 and 0.95. *)
Lemma trend_bar_entries (closes fastEma slowEma trendEma : list value)
  (adxValues : list adxEntry) (adxThreshold : value) (n i : Z)
  (pushed : list Trend.entry) :
  Trend.bar closes fastEma slowEma trendEma adxValues adxThreshold n i =
    Return pushed ->
  Forall (fun e =>
            Trend.index e = i /\
            forall t, adxThreshold = Num t ->
                      exists q, Trend.confidence e = Num q /\
                                (5 # 10 <= q)%Q /\ (q <= 95 # 100)%Q)
         pushed.
Proof.
  unfold Trend.bar.
  destruct (_ || _ || _ || _); [intro H; injection H as <-; constructor|].
  destruct (idx adxValues _) as [e|]; [|discriminate].
  destruct (isNaN (adx e)) eqn:En; [intro H; injection H as <-; constructor|].
  destruct (js_lt (adx e) adxThreshold) eqn:El;
    [intro H; injection H as <-; constructor|].
  simpl orb. cbv iota. intro H. injection H as <-.
  assert (Hc : forall t, adxThreshold = Num t ->
            exists q, Trend.confidenceOf (adx e) adxThreshold = Num q /\
                      (5 # 10 <= q)%Q /\ (q <= 95 # 100)%Q).
  { intros t ->. destruct (adx e) as [| |a]; try discriminate.
    apply trend_confidence_range. exact El. }
  apply Forall_app. split.
  - destruct (Trend.bullish _ _ _ _ _ _); repeat constructor; exact Hc.
  - destruct (Trend.bearish _ _ _ _ _ _); repeat constructor; exact Hc.
Qed.

(** X11: every signal returned by [trendStrategy5m] is for a bar the loop
    visits, [1 <= index < candles.length - 5], and, when the ADX threshold
    is a number, has a confidence between 0.5 and 0.95. *)
Theorem trend_signals_in_range (TI : TechnicalIndicators)
  (candles : list candle) (opts : Trend.options)
  (signals : list Trend.entry) :
  Trend.trendStrategy5m candles opts = Return signals ->
  Forall (fun e =>
            1 <= Trend.index e < Z.of_nat (length candles) - 5 /\
            forall t, defaultTo (ofZ 25) (Trend.adxThreshold opts) = Num t ->
                      exists q, Trend.confidence e = Num q /\
                                (5 # 10 <= q)%Q /\ (q <= 95 # 100)%Q)
         signals.
Proof.
  unfold Trend.trendStrategy5m. intro H.
  destruct (ADX_calculate _ _ _ _) as [adxValues|]; [|discriminate].
  eapply trend_loop_Forall; [| |exact H]; [|constructor].
  intros i pushed Hi Hb. apply In_forRange in Hi.
  apply trend_bar_entries in Hb.
  eapply Forall_impl; [|exact Hb]. simpl. intros e [He Hc]. split.
  - lia.
  - exact Hc.
Qed.

Lemma trend_signals_in_range_witness :
  Trend.trendStrategy5m (TI := crossingIndicators) crossingCandles
    Trend.noOptions =
    Return [Trend.mkEntry 1 UP (Trend.confidenceOf (ofZ 30) (ofZ 25))] /\
  1 <= 1 < Z.of_nat (length crossingCandles) - 5.
Proof.
  assert (H : Trend.trendStrategy5m (TI := crossingIndicators) crossingCandles
                Trend.noOptions =
              Return [Trend.mkEntry 1 UP
                        (Trend.confidenceOf (ofZ 30) (ofZ 25))])
    by reflexivity.
  split; [exact H|].
  pose proof (trend_signals_in_range crossingIndicators crossingCandles
                Trend.noOptions _ H) as Hf.
  inversion Hf as [|? ? [Hr _] _]. exact Hr.
Defined.

(** ** Padding *)

(** X12: the padding loops of the signal functions only add elements in
    front: the padded series ends with the original series, and has
    [candles.length] elements unless the series was longer already, in
    which case it is left as it is. *)
Theorem padding_keeps_series (n : nat) (series : list value)
  (adxArr : list adxEntry) :
  (exists pad, alignUndefined n series = pad ++ series /\
               length pad = (n - length series)%nat /\
               Forall (fun v => v = undefined) pad) /\
  (exists pad, alignPsar n series = pad ++ series /\
               length pad = (n - length series)%nat /\
               Forall (fun v => v = get series 0) pad) /\
  (exists pad, alignAdx n (Some adxArr) = pad ++ adxArr /\
               length pad = (n - length adxArr)%nat /\
               Forall (fun e => adx e = undefined) pad) /\
  length (alignUndefined n series) = Nat.max n (length series) /\
  length (alignPsar n series) = Nat.max n (length series) /\
  length (alignAdx n (Some adxArr)) = Nat.max n (length adxArr) /\
  length (alignAdx n None) = n.
Proof.
  unfold alignUndefined, alignAdx.
  rewrite !unshiftWhile_repeat, alignPsar_repeat.
  repeat split.
  - eexists. split; [reflexivity|]. split; [apply repeat_length|].
    apply Forall_forall. intros v Hv. now apply repeat_spec in Hv.
  - eexists. split; [reflexivity|]. split; [apply repeat_length|].
    apply Forall_forall. intros v Hv. now apply repeat_spec in Hv.
  - eexists. split; [reflexivity|]. split; [apply repeat_length|].
    apply Forall_forall. intros e He. apply repeat_spec in He. now subst.
  - rewrite length_app, repeat_length. lia.
  - rewrite length_app, repeat_length. lia.
  - rewrite length_app, repeat_length. lia.
  - apply repeat_length.
Qed.

(** ** Synthetic volume *)

Lemma Qfloor_scaled (random : Q) (k : Z) :
  (0 <= random)%Q -> (random < 1)%Q -> 0 < k ->
  0 <= Qfloor (random * inject_Z k) < k.
Proof.
  intros H0 H1 Hk.
  assert (Hk' : (0 < inject_Z k)%Q).
  { change (inject_Z 0 < inject_Z k)%Q. rewrite <- Zlt_Qlt. exact Hk. }
  assert (Hx0 : (0 <= random * inject_Z k)%Q).
  { apply Qmult_le_0_compat; [exact H0 | apply Qlt_le_weak; exact Hk']. }
  assert (Hx1 : (random * inject_Z k < inject_Z k)%Q).
  { rewrite <- (Qmult_1_l (inject_Z k)) at 2.
    apply Qmult_lt_compat_r; assumption. }
  split.
  - pose proof (Qlt_floor (random * inject_Z k)) as Hf.
    assert (Hlt : (inject_Z 0 < inject_Z (Qfloor (random * inject_Z k) + 1))%Q)
      by (eapply Qle_lt_trans; [exact Hx0 | exact Hf]).
    rewrite <- Zlt_Qlt in Hlt. lia.
  - pose proof (Qfloor_le (random * inject_Z k)) as Hf.
    assert (Hlt : (inject_Z (Qfloor (random * inject_Z k)) < inject_Z k)%Q)
      by (eapply Qle_lt_trans; [exact Hf | exact Hx1]).
    rewrite <- Zlt_Qlt in Hlt. exact Hlt.
Qed.

(** X13: for a random number in [0, 1), [getSyntheticVolume] returns an
    integer volume within the range of the hour's session: 100..400 before
    8h, 400..800 before 16h, 800..1500 otherwise, also when the hour cannot
    be parsed; so always within 100..1500. *)
Theorem synthetic_volume_in_range (parseInt10 : string -> value)
  (random : Q) (timeString : string) :
  (0 <= random)%Q -> (random < 1)%Q ->
  exists v,
    getSyntheticVolume parseInt10 random timeString = ofZ v /\
    100 <= v <= 1500 /\
    let hour := parseInt10 (beforeColon timeString) in
    if js_lt hour (ofZ 8) then 100 <= v <= 400
    else if js_lt hour (ofZ 16) then 400 <= v <= 800
    else 800 <= v <= 1500.
Proof.
  intros H0 H1. unfold getSyntheticVolume. cbv zeta.
  destruct (js_lt (parseInt10 (beforeColon timeString)) (ofZ 8)).
  - pose proof (Qfloor_scaled random (400 - 100 + 1) H0 H1 eq_refl).
    eexists. split; [reflexivity|]. lia.
  - destruct (js_lt (parseInt10 (beforeColon timeString)) (ofZ 16)).
    + pose proof (Qfloor_scaled random (800 - 400 + 1) H0 H1 eq_refl).
      eexists. split; [reflexivity|]. lia.
    + pose proof (Qfloor_scaled random (1500 - 800 + 1) H0 H1 eq_refl).
      eexists. split; [reflexivity|]. lia.
Qed.

Lemma synthetic_volume_in_range_witness :
  (0 <= 1 # 2)%Q /\ (1 # 2 < 1)%Q /\
  beforeColon "09:30" = "09"%string /\
  getSyntheticVolume (fun _ => ofZ 9) (1 # 2) "09:30" = ofZ 600 /\
  exists v, getSyntheticVolume (fun _ => ofZ 9) (1 # 2) "09:30" = ofZ v /\
            100 <= v <= 1500.
Proof.
  assert (H0 : (0 <= 1 # 2)%Q) by discriminate.
  assert (H1 : (1 # 2 < 1)%Q) by reflexivity.
  split; [exact H0|]. split; [exact H1|].
  split; [reflexivity|]. split; [reflexivity|].
  destruct (synthetic_volume_in_range (fun _ => ofZ 9) (1 # 2) "09:30" H0 H1)
    as (v & Hv & Hr & _).
  exists v. split; [exact Hv | exact Hr].
Defined.

(** ** Resolution of open trades *)

(** X14: the resolution loop of the triple-oscillator backtest partitions
    the open trades: those whose expiry index is the current bar are
    counted once in the total (and in the correct count iff they are
    wins), the others stay open, in their order, after the trades already
    kept. *)
Theorem expire_partitions (i : Z) (closeNow : value)
  (trades remaining : list Triple.trade) (totalTrades correctTrades : Z) :
  let due := fun t => Triple.expiryIndex t =? i in
  Triple.expire i closeNow trades remaining totalTrades correctTrades =
  (remaining ++ filter (fun t => negb (due t)) trades,
   totalTrades + Z.of_nat (length (filter due trades)),
   correctTrades +
   Z.of_nat (length (filter (fun t => due t && Triple.tradeCorrect t closeNow)
                       trades))).
Proof.
  cbv zeta. revert remaining totalTrades correctTrades.
  assert (Htriple : forall (a a' : list Triple.trade) (b b' c c' : Z),
            a = a' -> b = b' -> c = c' -> (a, b, c) = (a', b', c'))
    by (intros; subst; reflexivity).
  induction trades as [|t rest IH]; intros remaining tot cor; simpl.
  - apply Htriple; [now rewrite app_nil_r | lia | lia].
  - destruct (Triple.expiryIndex t =? i); simpl.
    + rewrite IH. destruct (Triple.tradeCorrect t closeNow); simpl;
        apply Htriple; try reflexivity; lia.
    + rewrite IH, <- app_assoc. reflexivity.
Qed.

(** ** The figures of the triple-oscillator backtest *)

Section TripleFigures.

Context {OI : OscillatorIndicators}.

Lemma triple_step_counts (st : Triple.ledger) (i : Z) (c : candle) :
  let st' := Triple.step st i c in
  Triple.totalTrades st <= Triple.totalTrades st' /\
  Triple.correctTrades st <= Triple.correctTrades st' /\
  Triple.correctTrades st' - Triple.correctTrades st <=
  Triple.totalTrades st' - Triple.totalTrades st.
Proof.
  unfold Triple.step.
  assert (He : forall rem tot cor,
    let r := Triple.expire i (close c) (Triple.openTrades st) rem tot cor in
    tot <= snd (fst r) /\ cor <= snd r /\ snd r - cor <= snd (fst r) - tot).
  { intros rem tot cor. cbv zeta. rewrite expire_partitions. simpl.
    assert (H2 : Z.of_nat
                   (length (filter
                              (fun t => (Triple.expiryIndex t =? i) &&
                                        Triple.tradeCorrect t (close c))
                              (Triple.openTrades st))) <=
                 Z.of_nat
                   (length (filter (fun t => Triple.expiryIndex t =? i)
                              (Triple.openTrades st)))).
    { induction (Triple.openTrades st) as [|t l IHl]; simpl; [lia|].
      destruct (Triple.expiryIndex t =? i); simpl;
        [destruct (Triple.tradeCorrect t (close c)); simpl length; lia
        | exact IHl]. }
    lia. }
  specialize (He [] (Triple.totalTrades st) (Triple.correctTrades st)).
  cbv zeta in He.
  destruct (Triple.openTrades st) as [|t rest] eqn:Eo.
  - destruct (_ <? _)%nat; [simpl; lia|].
    destruct (Triple.oscillatorSignal _ _); simpl; lia.
  - destruct (Triple.expire i (close c) (t :: rest) []
                (Triple.totalTrades st) (Triple.correctTrades st))
      as [[rem tot] cor].
    simpl in He.
    destruct (_ <? _)%nat; [simpl; lia|].
    destruct (Triple.oscillatorSignal _ _); simpl; lia.
Qed.

Lemma triple_loop_counts (data : list candle) :
  forall st i,
    let st' := Triple.loop st i data in
    Triple.totalTrades st <= Triple.totalTrades st' /\
    Triple.correctTrades st <= Triple.correctTrades st' /\
    Triple.correctTrades st' - Triple.correctTrades st <=
    Triple.totalTrades st' - Triple.totalTrades st.
Proof.
  induction data as [|c rest IH]; intros st i; simpl.
  - lia.
  - pose proof (triple_step_counts st i c) as Hs.
    pose proof (IH (Triple.step st i c) (i + 1)) as Hl.
    cbv zeta in Hs, Hl. lia.
Qed.

(** No trade is created before 200 candles are in the history. *)
Lemma tradesCreated_bound (data : list candle) :
  forall history,
    0 <= tradesCreated history data <=
    Z.max 0 (Z.min (Z.of_nat (length data))
               (Z.of_nat (length history) + Z.of_nat (length data) - 199)).
Proof.
  induction data as [|c rest IH]; intro history; simpl tradesCreated.
  - simpl. lia.
  - specialize (IH (history ++ [c])). rewrite length_app in IH.
    simpl length in *. unfold opensTrade.
    rewrite length_app. simpl length.
    destruct (Nat.ltb_spec (length history + 1) 200); simpl negb; simpl andb;
      [lia|].
    destruct (Triple.oscillatorSignal _ _); lia.
Qed.

End TripleFigures.

(** X15: the triple-oscillator loop ends with
    [0 <= correct <= total <= trades created], and no trade is created
    before bar 199: on [N] candles at most [max 0 (N - 199)] trades are
    created, so fewer than 200 candles give no trade at all. *)
Theorem triple_figures_bounded (OI : OscillatorIndicators)
  (data : list candle) :
  let st := Triple.run data in
  0 <= Triple.correctTrades st <= Triple.totalTrades st /\
  Triple.totalTrades st <= tradesCreated [] data /\
  tradesCreated [] data <= Z.max 0 (Z.of_nat (length data) - 199).
Proof.
  cbv zeta. unfold Triple.run.
  pose proof (triple_loop_counts data (Triple.mkLedger [] [] 0 0) 0) as Hc.
  cbv zeta in Hc. simpl in Hc.
  assert (Hinv : ledgerInv (Triple.mkLedger [] [] 0 0) 0)
    by (split; [simpl; lia | constructor]).
  destruct (loop_ledger data _ _ Hinv) as (_ & Hsum). simpl in Hsum.
  pose proof (tradesCreated_bound data []) as Hb. simpl length in Hb.
  split; [lia|]. split; lia.
Qed.

(** ** The Keltner channel backtest *)

Lemma js_le_lt_trans (a b c : value) :
  js_le a b = true -> js_lt b c = true -> js_lt a c = true.
Proof.
  intros H1 H2. apply js_le_Num in H1. apply js_lt_Num in H2.
  destruct H1 as (x & y & -> & -> & H1).
  destruct H2 as (y' & z & Hy & -> & H2). injection Hy as <-.
  apply js_lt_Num. exists x, z. repeat split.
  exact (Qle_lt_trans _ _ _ H1 H2).
Qed.

Lemma js_lt_le_trans (a b c : value) :
  js_lt a b = true -> js_le b c = true -> js_lt a c = true.
Proof.
  intros H1 H2. apply js_lt_Num in H1. apply js_le_Num in H2.
  destruct H1 as (x & y & -> & -> & H1).
  destruct H2 as (y' & z & Hy & -> & H2). injection Hy as <-.
  apply js_lt_Num. exists x, z. repeat split.
  exact (Qlt_le_trans _ _ _ H1 H2).
Qed.

Lemma js_lt_trans (a b c : value) :
  js_lt a b = true -> js_lt b c = true -> js_lt a c = true.
Proof.
  intros H1 H2. apply js_lt_Num in H1. apply js_lt_Num in H2.
  destruct H1 as (x & y & -> & -> & H1).
  destruct H2 as (y' & z & Hy & -> & H2). injection Hy as <-.
  apply js_lt_Num. exists x, z. repeat split.
  exact (Qlt_trans _ _ _ H1 H2).
Qed.

(** A close cannot break above the upper band and below the lower band at
    the same bar, whatever the bands are. *)
Lemma keltner_breaks_exclusive (closePrev closeCurr kcUpper kcLower : value) :
  Keltner.breaksAbove closePrev closeCurr kcUpper = true ->
  Keltner.breaksBelow closePrev closeCurr kcLower = false.
Proof.
  unfold Keltner.breaksAbove, Keltner.breaksBelow, js_gt, js_ge.
  intro H. apply andb_true_iff in H. destruct H as [H1 H2].
  destruct (js_le kcLower closePrev) eqn:E1; [|reflexivity].
  destruct (js_lt closeCurr kcLower) eqn:E2; [|reflexivity].
  (* kcLower <= closePrev <= kcUpper < closeCurr < kcLower *)
  pose proof (js_le_lt_trans _ _ _ H1 H2) as H3.
  pose proof (js_lt_trans _ _ _ H3 E2) as H4.
  pose proof (js_lt_le_trans _ _ _ H4 E1) as H5.
  rewrite js_lt_irrefl in H5. discriminate.
Qed.

(** X16: the Keltner backtest trades against the breakout: the direction
    is DOWN exactly when the close breaks above the upper band with
    EMA50 <= EMA200, UP exactly when it breaks below the lower band with
    EMA50 >= EMA200; the two breakouts never occur at the same bar,
    whatever the bands are. *)
Theorem keltner_trades_against_breakout
  (closePrev closeCurr kcUpper kcLower ema50 ema200 : value) :
  Keltner.breaksAbove closePrev closeCurr kcUpper &&
    Keltner.breaksBelow closePrev closeCurr kcLower = false /\
  (Keltner.reversal closePrev closeCurr kcUpper kcLower ema50 ema200
     = Some DOWN <->
   Keltner.breaksAbove closePrev closeCurr kcUpper = true /\
   js_le ema50 ema200 = true) /\
  (Keltner.reversal closePrev closeCurr kcUpper kcLower ema50 ema200
     = Some UP <->
   Keltner.breaksBelow closePrev closeCurr kcLower = true /\
   js_ge ema50 ema200 = true).
Proof.
  unfold Keltner.reversal.
  destruct (Keltner.breaksAbove closePrev closeCurr kcUpper) eqn:Ea.
  - rewrite (keltner_breaks_exclusive _ _ _ _ Ea). simpl.
    destruct (js_le ema50 ema200); repeat split; intros;
      try discriminate; try tauto;
      match goal with H : _ /\ _ |- _ => destruct H; discriminate end.
  - simpl. destruct (Keltner.breaksBelow closePrev closeCurr kcLower);
      destruct (js_ge ema50 ema200); repeat split; intros;
      try discriminate; try tauto;
      match goal with H : _ /\ _ |- _ => destruct H; discriminate end.
Qed.

Lemma get_defined_in_range (arr : list value) (i : Z) :
  isUndefined (get arr i) = false -> 0 <= i < Z.of_nat (length arr).
Proof.
  unfold get, idx. destruct (Z.ltb_spec i 0); [discriminate|].
  destruct (nth_error arr (Z.to_nat i)) eqn:E; [|discriminate].
  intros _. assert (nth_error arr (Z.to_nat i) <> None) by congruence.
  apply nth_error_Some in H0. lia.
Qed.

(** X17: in the Keltner backtest, when the EMA200 series is short enough
    for the expiry ([ema200Arr.length + expiryBars + 1 <= closes.length],
    as with the library's EMA(200) and an expiry of at most 198 bars),
    every trade reads its entry and exit prices inside the closes array. *)
Theorem keltner_trade_reads_in_bounds
  (closes ema50Arr ema200Arr : list value) (kcArr : list Keltner.channel)
  (expiryBars i : Z) (d : direction) :
  0 <= expiryBars ->
  Z.of_nat (length ema200Arr) + expiryBars + 1 <= Z.of_nat (length closes) ->
  Keltner.bar closes ema50Arr ema200Arr kcArr i = Some d ->
  let idx := i + (20 - 1) in
  0 <= idx - 1 /\ idx + 1 + expiryBars < Z.of_nat (length closes) /\
  (exists entry, nth_error closes (Z.to_nat (idx + 1)) = Some entry /\
                 get closes (idx + 1) = entry) /\
  (exists exit, nth_error closes (Z.to_nat (idx + 1 + expiryBars)) = Some exit /\
                get closes (idx + 1 + expiryBars) = exit).
Proof.
  intros He Hlen Hbar. cbv zeta. unfold Keltner.bar in Hbar.
  destruct (idx kcArr i) as [kc|] eqn:Ek; [|discriminate].
  assert (Hi : 0 <= i).
  { unfold idx in Ek. destruct (Z.ltb_spec i 0); [discriminate | assumption]. }
  cbv zeta in Hbar.
  destruct (isUndefined (get ema50Arr (i + (20 - 1)))); [discriminate|].
  destruct (isUndefined (get ema200Arr (i + (20 - 1)))) eqn:E2;
    [discriminate|].
  apply get_defined_in_range in E2.
  assert (Hread : forall k, 0 <= k < Z.of_nat (length closes) ->
            exists v, nth_error closes (Z.to_nat k) = Some v /\
                      get closes k = v).
  { intros k Hk. unfold get. rewrite idx_nonneg by lia.
    destruct (nth_error closes (Z.to_nat k)) as [v|] eqn:E.
    - exists v. split; reflexivity.
    - apply nth_error_None in E. lia. }
  split; [lia|]. split; [lia|]. split; apply Hread; lia.
Qed.

Lemma keltner_trade_reads_in_bounds_witness :
  0 <= 1 /\
  Z.of_nat (length (repeat (ofZ 2) 20)) + 1 + 1 <=
    Z.of_nat (length (repeat (ofZ 5) 19 ++ [ofZ 9; ofZ 9; ofZ 9])) /\
  Keltner.bar (repeat (ofZ 5) 19 ++ [ofZ 9; ofZ 9; ofZ 9])
    (repeat (ofZ 1) 20) (repeat (ofZ 2) 20)
    [Keltner.mkChannel (ofZ 6) (ofZ 4) (ofZ 2)] 0 = Some DOWN /\
  0 + (20 - 1) + 1 + 1 <
    Z.of_nat (length (repeat (ofZ 5) 19 ++ [ofZ 9; ofZ 9; ofZ 9])).
Proof.
  assert (H1 : 0 <= 1) by lia.
  assert (H2 : Z.of_nat (length (repeat (ofZ 2) 20)) + 1 + 1 <=
               Z.of_nat (length (repeat (ofZ 5) 19 ++ [ofZ 9; ofZ 9; ofZ 9])))
    by (vm_compute; discriminate).
  assert (H3 : Keltner.bar (repeat (ofZ 5) 19 ++ [ofZ 9; ofZ 9; ofZ 9])
                 (repeat (ofZ 1) 20) (repeat (ofZ 2) 20)
                 [Keltner.mkChannel (ofZ 6) (ofZ 4) (ofZ 2)] 0 = Some DOWN)
    by reflexivity.
  split; [exact H1|]. split; [exact H2|]. split; [exact H3|].
  exact (proj1 (proj2 (keltner_trade_reads_in_bounds _ _ _ _ 1 0 DOWN
                         H1 H2 H3))).
Defined.

Lemma Keltner_step_counts (closes ema50Arr ema200Arr : list value)
  (kcArr : list Keltner.channel) (expiryBars : Z) (st : Z * Z) (i : Z) :
  let st' := Keltner.step closes ema50Arr ema200Arr kcArr expiryBars st i in
  fst st <= fst st' <= fst st + 1 /\
  snd st <= snd st' /\ snd st' - snd st <= fst st' - fst st.
Proof.
  unfold Keltner.step. destruct (Keltner.bar _ _ _ _ _); [|simpl; lia].
  destruct st as [t c]. destruct (isWin _ _ _); simpl; lia.
Qed.

(** X18: the Keltner backtest reports [0 <= correct <= total], a total at
    most the number of bars its loop visits,
    [max 0 (candles.length - expiryBars - 1)], and an accuracy between 0
    and 100. *)
Theorem keltner_figures_bounded (TI : TechnicalIndicators)
  (KC : Keltner.KeltnerChannels) (candles : list candle) (expiryBars : Z) :
  boundedFigures (Keltner.backtest candles expiryBars)
    (Z.of_nat (length candles) - expiryBars - 1).
Proof.
  unfold Keltner.backtest.
  destruct (Keltner.loop _ _ _ _ _ _) as [t c] eqn:E.
  unfold Keltner.loop in E.
  replace (Z.of_nat (length candles) - expiryBars - 1)
    with (Z.of_nat (length candles) - (expiryBars + 1) - 0) by lia.
  eapply pair_loop_counts; [|exact E]. apply Keltner_step_counts.
Qed.

(** ** Loading candles *)

Section LoadCandlesFacts.

Variable splitLines : string -> list string.
Variable trim : string -> string.
Variable parseFloat : string -> value.
Variable parseInt10 : string -> value.
Variable random : nat -> Q.

Lemma prices_candleOf (parts : list string) (pushed : nat) (line : string) :
  parts = splitComma (trim line) ->
  prices (candleOf parseFloat parseInt10 random parts pushed) =
  linePrices trim parseFloat line.
Proof. intros ->. reflexivity. Qed.

Lemma loadLines_uncapped (maxRows : value) :
  truthy maxRows = false ->
  forall lines candles,
    map prices (loadLines trim parseFloat parseInt10 random lines candles
                  maxRows) =
    map prices candles ++
    map (linePrices trim parseFloat) (filter (givesCandle trim) lines).
Proof.
  intro Hm. induction lines as [|line rest IH]; intro candles; simpl.
  - now rewrite app_nil_r.
  - unfold givesCandle.
    destruct (isEmpty (trim line)); simpl; [apply IH|].
    destruct (length (splitComma (trim line)) <? 7)%nat; simpl; [apply IH|].
    rewrite Hm. simpl. rewrite IH, map_app, <- app_assoc. reflexivity.
Qed.

Lemma js_ge_counts (len m : Z) :
  js_ge (ofZ len) (ofZ m) = (m <=? len).
Proof.
  unfold js_ge, js_le, ofZ.
  destruct (Z.leb_spec m len) as [H|H].
  - apply Qle_bool_iff. rewrite <- Zle_Qle. exact H.
  - destruct (Qle_bool (inject_Z m) (inject_Z len)) eqn:E; [|reflexivity].
    apply Qle_bool_iff in E. rewrite <- Zle_Qle in E. lia.
Qed.

Lemma truthy_count (m : Z) : 1 <= m -> truthy (ofZ m) = true.
Proof.
  intro H. unfold truthy, ofZ. apply negb_true_iff.
  destruct (Qeq_bool (inject_Z m) 0) eqn:E; [|reflexivity].
  apply Qeq_bool_iff in E. unfold Qeq in E. simpl in E. lia.
Qed.

Lemma loadLines_capped (m : Z) :
  1 <= m ->
  forall lines candles,
    Z.of_nat (length candles) < m ->
    map prices (loadLines trim parseFloat parseInt10 random lines candles
                  (ofZ m)) =
    map prices candles ++
    firstn (Z.to_nat m - length candles)
      (map (linePrices trim parseFloat) (filter (givesCandle trim) lines)).
Proof.
  intro Hm. induction lines as [|line rest IH]; intros candles Hlen.
  - simpl. rewrite firstn_nil. now rewrite app_nil_r.
  - cbn -[truthy js_ge ofZ Z.of_nat firstn Nat.sub Nat.ltb]. unfold givesCandle.
    destruct (isEmpty (trim line));
      cbn -[truthy js_ge ofZ Z.of_nat firstn Nat.sub Nat.ltb]; [now apply IH|].
    destruct (length (splitComma (trim line)) <? 7)%nat;
      cbn -[truthy js_ge ofZ Z.of_nat firstn Nat.sub Nat.ltb]; [now apply IH|].
    rewrite (truthy_count m Hm), js_ge_counts, length_app.
    cbn -[Z.of_nat firstn Nat.sub].
    replace (Z.to_nat m - length candles)%nat
      with (S (Z.to_nat m - (length candles + 1))) by lia.
    rewrite firstn_cons.
    destruct (Z.leb_spec m (Z.of_nat (length candles + 1))) as [Hc|Hc].
    + replace (Z.to_nat m - (length candles + 1))%nat with 0%nat by lia.
      rewrite firstn_O, map_app. reflexivity.
    + rewrite IH by (rewrite length_app; simpl length; lia).
      rewrite length_app. simpl length.
      rewrite map_app, <- app_assoc. reflexivity.
Qed.

Lemma loadLines_volumes (maxRows : value) :
  (forall k, (0 <= random k)%Q /\ (random k < 1)%Q) ->
  forall lines candles,
    Forall (fun c => exists v, volume c = ofZ v /\ 100 <= v <= 1500) candles ->
    Forall (fun c => exists v, volume c = ofZ v /\ 100 <= v <= 1500)
      (loadLines trim parseFloat parseInt10 random lines candles maxRows).
Proof.
  intro Hr. induction lines as [|line rest IH]; intros candles Hc; simpl.
  - exact Hc.
  - destruct (isEmpty (trim line)); [now apply IH|].
    destruct (length (splitComma (trim line)) <? 7)%nat; [now apply IH|].
    assert (Hc' : Forall (fun c => exists v, volume c = ofZ v /\
                                             100 <= v <= 1500)
                    (candles ++
                     [candleOf parseFloat parseInt10 random
                        (splitComma (trim line)) (length candles)])).
    { apply Forall_app. split; [exact Hc|]. constructor; [|constructor].
      destruct (Hr (length candles)) as [H0 H1].
      destruct (synthetic_volume_in_range parseInt10 (random (length candles))
                  (field (splitComma (trim line)) 1) H0 H1)
        as (v & Hv & Hrange & _).
      exists v. split; [exact Hv | exact Hrange]. }
    destruct (_ && _); [exact Hc' | now apply IH].
Qed.

End LoadCandlesFacts.

(** X19: [loadCandles] returns one candle per line that is not blank and
    has at least seven comma-separated fields, in order, with the open,
    high, low and close parsed from fields 2 to 5; lines that do not are
    skipped.  With a positive row limit it stops after that many candles;
    without one (0, NaN or undefined) it reads every line. *)
Theorem loadCandles_rows (splitLines : string -> list string)
  (trim : string -> string) (parseFloat parseInt10 : string -> value)
  (random : nat -> Q) (content : string) :
  let rows :=
    map (linePrices trim parseFloat)
      (filter (givesCandle trim) (splitLines content)) in
  (forall maxRows,
     truthy maxRows = false ->
     map prices (loadCandles splitLines trim parseFloat parseInt10 random
                   content maxRows) = rows) /\
  (forall m,
     1 <= m ->
     map prices (loadCandles splitLines trim parseFloat parseInt10 random
                   content (ofZ m)) = firstn (Z.to_nat m) rows /\
     Z.of_nat (length (loadCandles splitLines trim parseFloat parseInt10
                         random content (ofZ m))) <= m).
Proof.
  cbv zeta. unfold loadCandles. split.
  - intros maxRows Hm. now rewrite loadLines_uncapped.
  - intros m Hm.
    pose proof (loadLines_capped trim parseFloat parseInt10 random m Hm
                  (splitLines content) []) as H.
    simpl in H. rewrite Nat.sub_0_r in H. specialize (H ltac:(lia)).
    split; [exact H|].
    apply (f_equal (@length _)) in H. rewrite length_map in H. rewrite H.
    rewrite length_firstn. lia.
Qed.

(** X20: when every [Math.random()] result is in [0, 1), every candle
    loaded by [loadCandles] has an integer volume between 100 and 1500. *)
Theorem loadCandles_volumes (splitLines : string -> list string)
  (trim : string -> string) (parseFloat parseInt10 : string -> value)
  (random : nat -> Q) (content : string) (maxRows : value) :
  (forall k, (0 <= random k)%Q /\ (random k < 1)%Q) ->
  Forall (fun c => exists v, volume c = ofZ v /\ 100 <= v <= 1500)
    (loadCandles splitLines trim parseFloat parseInt10 random content maxRows).
Proof.
  intro Hr. unfold loadCandles. apply loadLines_volumes; [exact Hr|].
  constructor.
Qed.

Lemma loadCandles_volumes_witness :
  (forall k : nat, (0 <= 1 # 2)%Q /\ (1 # 2 < 1)%Q) /\
  map volume
    (loadCandles (fun content => [content; EmptyString; "a,b"%string; content])
       (fun line => line) (fun _ => ofZ 1) (fun _ => ofZ 9) (fun _ => 1 # 2)
       "2025.07.01,09:30,1,2,0,1,0" undefined) = [ofZ 600; ofZ 600] /\
  Forall (fun c => exists v, volume c = ofZ v /\ 100 <= v <= 1500)
    (loadCandles (fun content => [content; EmptyString; "a,b"%string; content])
       (fun line => line) (fun _ => ofZ 1) (fun _ => ofZ 9) (fun _ => 1 # 2)
       "2025.07.01,09:30,1,2,0,1,0" undefined).
Proof.
  assert (H : forall k : nat, (0 <= 1 # 2)%Q /\ (1 # 2 < 1)%Q)
    by (intro k; split; [discriminate | reflexivity]).
  split; [exact H|]. split; [reflexivity|].
  exact (loadCandles_volumes
           (fun content => [content; EmptyString; "a,b"%string; content])
           (fun line => line) (fun _ => ofZ 1) (fun _ => ofZ 9)
           (fun _ => 1 # 2) "2025.07.01,09:30,1,2,0,1,0" undefined H).
Defined.

(** ** bollingerBreakoutStrategy5m *)

Section BollingerLoop.

Variable closes : list value.
Variable bb : list Bollinger.band.
Variables (widths avgWidth : list value).
Variable adxVals : list adxEntry.
Variable adxThreshold : value.
Variable squeezeMult : option value.
Variable n : Z.

Lemma bollinger_bar_returns (i : Z) :
  i < n ->
  exists pushed,
    Bollinger.bar closes bb widths avgWidth adxVals adxThreshold squeezeMult
      n i = Return pushed.
Proof.
  intro Hi. unfold Bollinger.bar.
  destruct (_ || _) eqn:Eg; [eexists; reflexivity|].
  apply orb_false_iff in Eg. destruct Eg as [Eb Ea].
  apply Z.leb_gt in Eb. apply Z.ltb_ge in Ea.
  destruct (idx bb _) as [b|] eqn:Ebb.
  - destruct (idx adxVals _) as [e|] eqn:Ee.
    + destruct (_ || _); [eexists; reflexivity|].
      destruct (Bollinger.squeezed _ _ _); eexists; reflexivity.
    + rewrite idx_nonneg in Ee by exact Ea. apply nth_error_None in Ee. lia.
  - rewrite idx_nonneg in Ebb by lia. apply nth_error_None in Ebb. lia.
Qed.

Lemma bollinger_loop_returns :
  forall indices signals,
    Forall (fun i => i < n) indices ->
    exists result,
      Bollinger.loop closes bb widths avgWidth adxVals adxThreshold
        squeezeMult n indices signals = Return result.
Proof.
  induction indices as [|i rest IH]; intros signals Hall; simpl.
  - eexists; reflexivity.
  - inversion Hall as [|? ? Hi Hrest]; subst.
    destruct (bollinger_bar_returns i Hi) as (pushed & ->).
    apply IH. exact Hrest.
Qed.

Lemma bollinger_loop_Forall (P : Trend.entry -> Prop) :
  forall indices signals result,
    (forall i pushed,
       In i indices ->
       Bollinger.bar closes bb widths avgWidth adxVals adxThreshold
         squeezeMult n i = Return pushed ->
       Forall P pushed) ->
    Forall P signals ->
    Bollinger.loop closes bb widths avgWidth adxVals adxThreshold
      squeezeMult n indices signals = Return result ->
    Forall P result.
Proof.
  induction indices as [|i rest IH]; intros signals result Hbar Hs H;
    simpl in H.
  - now injection H as <-.
  - destruct (Bollinger.bar _ _ _ _ _ _ _ _ i) as [msg|pushed] eqn:Eb;
      [discriminate|].
    eapply IH; [| |exact H].
    + intros j p Hj. apply Hbar. now right.
    + apply Forall_app. split; [exact Hs|].
      eapply Hbar; [now left | exact Eb].
Qed.

(** A close cannot break out above the upper band and below the lower
    band at the same bar, whatever the bands are. *)
Lemma bollinger_breakouts_exclusive (prev curr upper lower : value) :
  Bollinger.breakoutUp prev curr upper &&
  Bollinger.breakoutDown prev curr lower = false.
Proof.
  unfold Bollinger.breakoutUp, Bollinger.breakoutDown, js_gt, js_ge.
  destruct (js_le prev upper) eqn:E1; [|reflexivity].
  destruct (js_lt upper curr) eqn:E2; [|reflexivity].
  destruct (js_le lower prev) eqn:E3; [|reflexivity].
  destruct (js_lt curr lower) eqn:E4; [|reflexivity].
  pose proof (js_le_lt_trans _ _ _ E1 E2) as H1.
  pose proof (js_lt_trans _ _ _ H1 E4) as H2.
  pose proof (js_lt_le_trans _ _ _ H2 E3) as H3.
  rewrite js_lt_irrefl in H3. discriminate.
Qed.

(** An iteration pushes at most one signal, for its own bar; with a
    numeric threshold the confidence is between 0.5 and 0.95. *)
Lemma bollinger_bar_entries (i : Z) (pushed : list Trend.entry) :
  Bollinger.bar closes bb widths avgWidth adxVals adxThreshold squeezeMult
    n i = Return pushed ->
  (pushed = [] \/ exists e, pushed = [e]) /\
  Forall (fun e =>
            Trend.index e = i /\
            forall t, adxThreshold = Num t ->
                      exists q, Trend.confidence e = Num q /\
                                (5 # 10 <= q)%Q /\ (q <= 95 # 100)%Q)
         pushed.
Proof.
  unfold Bollinger.bar.
  destruct (_ || _);
    [intro H; injection H as <-; split; [now left | constructor]|].
  destruct (idx bb _) as [b|]; [|discriminate].
  destruct (idx adxVals _) as [e|]; [|discriminate].
  destruct (isNaN (adx e)) eqn:En;
    [intro H; injection H as <-; split; [now left | constructor]|].
  destruct (js_lt (adx e) adxThreshold) eqn:El;
    [intro H; injection H as <-; split; [now left | constructor]|].
  simpl orb. cbv iota.
  destruct (Bollinger.squeezed _ _ _);
    [intro H; injection H as <-; split; [now left | constructor]|].
  intro H. injection H as <-.
  assert (Hc : forall t, adxThreshold = Num t ->
            exists q, Trend.confidenceOf (adx e) adxThreshold = Num q /\
                      (5 # 10 <= q)%Q /\ (q <= 95 # 100)%Q).
  { intros t ->. destruct (adx e) as [| |a]; try discriminate.
    apply trend_confidence_range. exact El. }
  pose proof (bollinger_breakouts_exclusive (get closes (i - 1))
                (get closes i) (Bollinger.upper b) (Bollinger.lower b)) as Hx.
  destruct (Bollinger.breakoutUp _ _ _), (Bollinger.breakoutDown _ _ _);
    try discriminate Hx; simpl; split;
    try (now left); try (right; eexists; reflexivity);
    repeat constructor; exact Hc.
Qed.

Lemma bollinger_loop_indices (bound : Z) :
  forall from signals result,
    NoDup (map Trend.index signals) ->
    Forall (fun s => Trend.index s < from) signals ->
    Bollinger.loop closes bb widths avgWidth adxVals adxThreshold
      squeezeMult n (forRange from bound) signals = Return result ->
    NoDup (map Trend.index result).
Proof.
  intro from.
  apply (forRange_ind bound (fun from indices =>
    forall signals result,
      NoDup (map Trend.index signals) ->
      Forall (fun s => Trend.index s < from) signals ->
      Bollinger.loop closes bb widths avgWidth adxVals adxThreshold
        squeezeMult n indices signals = Return result ->
      NoDup (map Trend.index result))); clear from.
  - intros from _ signals result Hnd _ H. simpl in H. now injection H as <-.
  - intros from Hlt IH signals result Hnd Hall H. simpl in H.
    destruct (Bollinger.bar _ _ _ _ _ _ _ _ from) as [msg|pushed] eqn:Eb;
      [discriminate|].
    apply bollinger_bar_entries in Eb. destruct Eb as [Hone Hent].
    apply IH in H; [exact H | |].
    + destruct Hone as [-> | (e & ->)].
      * now rewrite app_nil_r.
      * inversion Hent as [|? ? [He _] _]; subst.
        rewrite map_app. simpl.
        apply NoDup_app; [exact Hnd | repeat constructor; intros [] |].
        intros x Hx [<- | []].
        apply in_map_iff in Hx. destruct Hx as (s & Hs & Hin).
        rewrite Forall_forall in Hall. specialize (Hall s Hin). lia.
    + apply Forall_app. split.
      * eapply Forall_impl; [|exact Hall]. simpl. intros; lia.
      * eapply Forall_impl; [|exact Hent]. simpl. intros e [He _]. lia.
Qed.

End BollingerLoop.

(** X21: [bollingerBreakoutStrategy5m] never reads a property of a missing
    band or ADX element: it returns a list of signals whenever
    [ADX.calculate] itself does not throw, whatever the lengths of the
    band and ADX series. *)
Theorem bollinger_strategy_returns (TI : TechnicalIndicators)
  (BB : Bollinger.BollingerBands) (candles : list candle)
  (opts : Bollinger.options) :
  ADX_calculate (map high candles) (map low candles) (map close candles)
    (defaultTo (ofZ 14) (Bollinger.adxLen opts)) <> None ->
  exists signals,
    Bollinger.bollingerBreakoutStrategy5m candles opts = Return signals.
Proof.
  intro H. unfold Bollinger.bollingerBreakoutStrategy5m.
  destruct (ADX_calculate _ _ _ _) as [adxVals|]; [|congruence].
  apply bollinger_loop_returns. apply Forall_forall. intros i Hi.
  apply In_forRange in Hi. lia.
Qed.

Lemma bollinger_strategy_returns_witness :
  ADX_calculate (TechnicalIndicators := breakoutIndicators)
    (map high breakoutCandles) (map low breakoutCandles)
    (map close breakoutCandles)
    (defaultTo (ofZ 14) (Bollinger.adxLen noSqueeze)) <> None /\
  Bollinger.bollingerBreakoutStrategy5m (TI := breakoutIndicators)
    (BB := breakoutBands) breakoutCandles noSqueeze =
    Return [Trend.mkEntry 1 UP (Trend.confidenceOf (ofZ 35) (ofZ 30))] /\
  Bollinger.bollingerBreakoutStrategy5m (TI := breakoutIndicators)
    (BB := breakoutBands) breakoutCandles Bollinger.noOptions = Return [] /\
  exists signals,
    Bollinger.bollingerBreakoutStrategy5m (TI := breakoutIndicators)
      (BB := breakoutBands) breakoutCandles noSqueeze = Return signals.
Proof.
  assert (H : ADX_calculate (TechnicalIndicators := breakoutIndicators)
                (map high breakoutCandles) (map low breakoutCandles)
                (map close breakoutCandles)
                (defaultTo (ofZ 14) (Bollinger.adxLen noSqueeze)) <> None)
    by discriminate.
  split; [exact H|]. split; [reflexivity|]. split; [reflexivity|].
  exact (bollinger_strategy_returns breakoutIndicators breakoutBands
           breakoutCandles noSqueeze H).
Defined.

(** X22: [bollingerBreakoutStrategy5m] emits at most one signal per bar
    (no two returned signals share an index): a close cannot break out
    above the upper band and below the lower band at the same bar,
    whatever the bands are.  Every signal is for a visited bar,
    [1 <= index < candles.length - 5], and with a numeric ADX threshold its
    confidence is between 0.5 and 0.95. *)
Theorem bollinger_signals (TI : TechnicalIndicators)
  (BB : Bollinger.BollingerBands) (candles : list candle)
  (opts : Bollinger.options) (signals : list Trend.entry) :
  Bollinger.bollingerBreakoutStrategy5m candles opts = Return signals ->
  NoDup (map Trend.index signals) /\
  Forall (fun e =>
            1 <= Trend.index e < Z.of_nat (length candles) - 5 /\
            forall t,
              defaultTo (ofZ 30) (Bollinger.adxThreshold opts) = Num t ->
              exists q, Trend.confidence e = Num q /\
                        (5 # 10 <= q)%Q /\ (q <= 95 # 100)%Q)
         signals.
Proof.
  unfold Bollinger.bollingerBreakoutStrategy5m. intro H.
  destruct (ADX_calculate _ _ _ _) as [adxVals|]; [|discriminate]. split.
  - eapply bollinger_loop_indices; [| |exact H]; constructor.
  - eapply bollinger_loop_Forall; [| |exact H]; [|constructor].
    intros i pushed Hi Hb. apply In_forRange in Hi.
    apply bollinger_bar_entries in Hb. destruct Hb as [_ Hb].
    eapply Forall_impl; [|exact Hb]. simpl. intros e [He Hc]. split.
    + lia.
    + exact Hc.
Qed.

Lemma bollinger_signals_witness :
  Bollinger.bollingerBreakoutStrategy5m (TI := breakoutIndicators)
    (BB := breakoutBands) breakoutCandles noSqueeze =
    Return [Trend.mkEntry 1 UP (Trend.confidenceOf (ofZ 35) (ofZ 30))] /\
  NoDup (map Trend.index
           [Trend.mkEntry 1 UP (Trend.confidenceOf (ofZ 35) (ofZ 30))]).
Proof.
  assert (H : Bollinger.bollingerBreakoutStrategy5m (TI := breakoutIndicators)
                (BB := breakoutBands) breakoutCandles noSqueeze =
              Return [Trend.mkEntry 1 UP
                        (Trend.confidenceOf (ofZ 35) (ofZ 30))])
    by reflexivity.
  split; [exact H|].
  exact (proj1 (bollinger_signals breakoutIndicators breakoutBands
                  breakoutCandles noSqueeze _ H)).
Defined.

(** ** The SMA cross, PSAR and Stochastic backtest *)

Section SmaLoop.

Variable candles : list candle.
Variables (sma5 sma13 psar stochK : list value).
Variable expiry : Z.

Lemma sma_step_throws_TypeError (st : Z * Z) (i : Z) (msg : string) :
  SmaPsarStoch.step candles sma5 sma13 psar stochK expiry st i = Throw msg ->
  msg = "TypeError"%string.
Proof.
  unfold SmaPsarStoch.step.
  destruct (idx candles i) as [c|]; [|intro H; now injection H as <-].
  destruct (SmaPsarStoch.bar _ _ _ _ c i); [|discriminate].
  destruct st as [t c0].
  destruct (idx candles (i + expiry)); [discriminate|].
  intro H. now injection H as <-.
Qed.

Lemma sma_step_returns (st : Z * Z) (i : Z) :
  0 <= expiry -> 0 <= i -> i + expiry < Z.of_nat (length candles) ->
  exists st',
    SmaPsarStoch.step candles sma5 sma13 psar stochK expiry st i = Return st' /\
    fst st <= fst st' <= fst st + 1 /\
    snd st <= snd st' /\ snd st' - snd st <= fst st' - fst st.
Proof.
  intros He Hi Hn. unfold SmaPsarStoch.step.
  destruct (idx candles i) as [c|] eqn:Ec.
  - destruct (SmaPsarStoch.bar _ _ _ _ c i); [|exists st; split; [reflexivity | lia]].
    destruct st as [t c0].
    destruct (idx candles (i + expiry)) as [x|] eqn:Ex.
    + eexists. split; [reflexivity|].
      destruct (isWin _ _ _); simpl; lia.
    + rewrite idx_nonneg in Ex by lia. apply nth_error_None in Ex. lia.
  - rewrite idx_nonneg in Ec by lia. apply nth_error_None in Ec. lia.
Qed.

Lemma sma_loop_returns :
  0 <= expiry ->
  forall indices st,
    Forall (fun i => 0 <= i /\ i + expiry < Z.of_nat (length candles))
      indices ->
    exists st',
      SmaPsarStoch.loop candles sma5 sma13 psar stochK expiry indices st =
        Return st' /\
      fst st <= fst st' <= fst st + Z.of_nat (length indices) /\
      snd st <= snd st' /\ snd st' - snd st <= fst st' - fst st.
Proof.
  intro He. induction indices as [|i rest IH]; intros st Hall.
  - exists st. simpl. split; [reflexivity | lia].
  - inversion Hall as [|? ? [Hi Hn] Hrest]; subst.
    destruct (sma_step_returns st i He Hi Hn) as (st1 & Hs & Hc).
    destruct (IH st1 Hrest) as (st' & Hl & Hc').
    exists st'. simpl SmaPsarStoch.loop. rewrite Hs. split; [exact Hl|].
    simpl length. lia.
Qed.

(** Once the loop reaches the index [candles.length], it throws. *)
Lemma sma_loop_throws :
  forall indices st,
    In (Z.of_nat (length candles)) indices ->
    SmaPsarStoch.loop candles sma5 sma13 psar stochK expiry indices st =
    Throw "TypeError".
Proof.
  induction indices as [|i rest IH]; intros st Hin; [contradiction|].
  simpl SmaPsarStoch.loop.
  destruct (SmaPsarStoch.step candles sma5 sma13 psar stochK expiry st i)
    as [msg|st'] eqn:Es.
  - now rewrite (sma_step_throws_TypeError st i msg Es).
  - destruct Hin as [-> | Hin]; [|now apply IH].
    unfold SmaPsarStoch.step in Es.
    rewrite idx_beyond in Es by lia. discriminate.
Qed.

End SmaLoop.

(** X23: with a non-negative expiry and at least 30 candles, the SMA/PSAR/
    Stochastic backtest never fails on a missing candle: it reports
    figures with [0 <= correct <= total], a total at most the number of
    bars visited and an accuracy between 0 and 100. *)
Theorem sma_backtest_returns (TI : TechnicalIndicators)
  (SI : SmaPsarStoch.Indicators) (candles : list candle) (expiry : Z) :
  0 <= expiry ->
  (30 <= length candles)%nat ->
  exists r,
    SmaPsarStoch.backtest candles expiry = Some (Return r) /\
    boundedFigures r (Z.of_nat (length candles) - expiry - 2).
Proof.
  intros He Hn. unfold SmaPsarStoch.backtest.
  destruct (Nat.ltb_spec (length candles) 30); [lia|].
  match goal with
  | |- context [SmaPsarStoch.loop ?c ?a ?b ?p ?s ?e ?l ?st] =>
    destruct (sma_loop_returns c a b p s e He l st) as ([t c0] & Hl & Hc)
  end.
  { apply Forall_forall. intros i Hi. apply In_forRange in Hi. lia. }
  rewrite Hl. eexists. split; [reflexivity|].
  rewrite forRange_length in Hc. simpl in Hc.
  assert (Hb : 0 <= c0 <= t) by lia.
  unfold boundedFigures. simpl.
  split; [exact Hb|]. split; [lia|]. apply accuracyOf_range. exact Hb.
Qed.

(** X24: with a negative expiry and at least 30 candles, the SMA/PSAR/
    Stochastic backtest always fails: its loop runs past the last candle
    and reads a property of a missing element (a TypeError). *)
Theorem sma_backtest_negative_expiry_throws (TI : TechnicalIndicators)
  (SI : SmaPsarStoch.Indicators) (candles : list candle) (expiry : Z) :
  expiry < 0 ->
  (30 <= length candles)%nat ->
  SmaPsarStoch.backtest candles expiry = Some (Throw "TypeError").
Proof.
  intros He Hn. unfold SmaPsarStoch.backtest.
  destruct (Nat.ltb_spec (length candles) 30); [lia|].
  rewrite sma_loop_throws; [reflexivity|].
  apply In_forRange. lia.
Qed.

Lemma sma_backtest_returns_witness :
  exists r,
    @SmaPsarStoch.backtest thirtyFlatIndicators smaCrossIndicators
      thirtyFlat 1 = Some (Return r) /\
    boundedFigures r (Z.of_nat (length thirtyFlat) - 1 - 2).
Proof.
  assert (He : 0 <= 1) by lia.
  assert (Hn : (30 <= length thirtyFlat)%nat) by (simpl; lia).
  exact (sma_backtest_returns thirtyFlatIndicators smaCrossIndicators
           thirtyFlat 1 He Hn).
Defined.

Lemma sma_backtest_negative_expiry_throws_witness :
  @SmaPsarStoch.backtest thirtyFlatIndicators smaCrossIndicators
    thirtyFlat (-1) = Some (Throw "TypeError").
Proof.
  assert (He : -1 < 0) by lia.
  assert (Hn : (30 <= length thirtyFlat)%nat) by (simpl; lia).
  exact (sma_backtest_negative_expiry_throws thirtyFlatIndicators
           smaCrossIndicators thirtyFlat (-1) He Hn).
Defined.
